(** * Frame extraction from an animated image (scripts/extract-gif-frames.py)

    A shallow embedding of [extract_frames] and of the command-line driver of
    the script, together with the properties of the frame-sampling loop:
    how many frames are written, under which names, and how the run ends
    on the inputs the script rejects. *)

From Stdlib Require Import ZArith String Ascii List Lia DecimalString DecimalZ.
From stdpp Require Import base gmap strings list.
From Equations Require Import Equations.

Local Open Scope Z_scope.

(** ** Python built-ins used by the script *)

Module Py.

(** [str(n)] for an integer: decimal digits, a leading minus sign for a
    negative number, no leading zero. *)
Definition str (z : Z) : string := NilZero.string_of_int (Z.to_int z).

Fixpoint zeros (n : nat) : string :=
  match n with
  | O => ""
  | S n' => String "0" (zeros n')
  end.

(** Left padding of a digit string with zeros up to [width] characters. *)
Definition zfill (width : nat) (digits : string) : string :=
  zeros (width - String.length digits) +:+ digits.

(** [format(n, "03d")]: the sign, if any, counts in the width of three. *)
Definition format_03d (z : Z) : string :=
  if z <? 0 then String "-" (zfill 2 (str (- z))) else zfill 3 (str z).

(** [a // b]: floor division, [ZeroDivisionError] (here [None]) when [b = 0]. *)
Definition floordiv (a b : Z) : option Z :=
  if b =? 0 then None else Some (a / b).

(** [len(range(lo, hi, step))] for a non-zero step. *)
Definition range_len (lo hi step : Z) : Z :=
  if (0 <? step) && (lo <? hi) then 1 + (hi - 1 - lo) / step
  else if (step <? 0) && (hi <? lo) then 1 + (lo - 1 - hi) / (0 - step)
  else 0.

(** [range(lo, hi, step)] as the list of its elements; [None] stands for the
    [ValueError] that a zero step raises. *)
Definition range (lo hi step : Z) : option (list Z) :=
  if step =? 0 then None
  else Some (map (fun k => lo + Z.of_nat k * step)
                 (seq 0 (Z.to_nat (range_len lo hi step)))).

(** [s.rfind(c)] for a one-character [c]: the last index of [c], or [-1]. *)
Fixpoint rfind_from (c : ascii) (s : string) (pos : Z) (found : Z) : Z :=
  match s with
  | EmptyString => found
  | String a s' =>
      rfind_from c s' (pos + 1) (if Ascii.eqb a c then pos else found)
  end.

Definition rfind (c : ascii) (s : string) : Z := rfind_from c s 0 (-1).

(** [s.endswith("/")]. *)
Fixpoint endswith_sep (s : string) : bool :=
  match s with
  | EmptyString => false
  | String a EmptyString => Ascii.eqb a "/"
  | String _ s' => endswith_sep s'
  end.

End Py.

(** ** [os.path] (POSIX flavour) *)

Module OsPath.

(** [os.path.join(a, b)]. *)
Definition join (a b : string) : string :=
  if String.prefix "/" b then b
  else if (String.eqb a "" || Py.endswith_sep a)%bool then a +:+ b
  else a +:+ "/" +:+ b.

(** The scan of [genericpath._splitext] over the leading dots of the last
    component: [true] as soon as a character other than the dot is met in
    [p[from : from + n]]. *)
Fixpoint has_non_dot (p : string) (from n : nat) : bool :=
  match n with
  | O => false
  | S n' =>
      match String.get from p with
      | Some a => if Ascii.eqb a "." then has_non_dot p (S from) n' else true
      | None => true
      end
  end.

(** [os.path.splitext(p)[0]]. *)
Definition splitext_root (p : string) : string :=
  let sepIndex := Py.rfind "/" p in
  let dotIndex := Py.rfind "." p in
  if (sepIndex <? dotIndex) &&
     has_non_dot p (Z.to_nat (sepIndex + 1)) (Z.to_nat (dotIndex - (sepIndex + 1)))
  then String.substring 0 (Z.to_nat dotIndex) p
  else p.

(** The parents of a path, outermost first: what stands before each
    separator, when that is not empty and does not itself end in a
    separator.  [parents_from seen rest] reads [rest] with [seen] already
    behind it. *)
Fixpoint parents_from (seen rest : string) : list string :=
  match rest with
  | EmptyString => []
  | String c rest' =>
      let more := parents_from (seen +:+ String c EmptyString) rest' in
      if (Ascii.eqb c "/" && negb (String.eqb seen "") && negb (Py.endswith_sep seen))%bool
      then seen :: more
      else more
  end.

Definition parents (p : string) : list string := parents_from "" p.

End OsPath.

(** ** The world the script runs in *)

(** The decoder collaborator (Pillow).  [seek] reads the header of a frame;
    the raster is decoded only when it is asked for, by [convert].  A frame
    carries its raster ([None]: the data is damaged and loading it raises)
    and the [duration] entry of [img.info] while it is the active frame, if
    any. *)
Record Frame := { pixels : option string; info_duration : option Z }.

(** What [Image.open] yields: the [n_frames] attribute (absent for formats
    without animation support), the frame loaded on opening, and the frame
    [seek(i)] makes active ([None]: the decoder raises on the way there,
    because that frame or one before it cannot be read, or because there is
    no such frame). *)
Record Image := {
  n_frames_attr : option Z;
  first_frame : Frame;
  frame_at : Z -> option Frame
}.

(** The image object held by [extract_frames]: [seek] changes its active
    frame in place. *)
Record Handle := { image : Image; active : Frame }.

(** The result of [img.convert(mode)]. *)
Record Still := { still_mode : string; still_pixels : string }.

(** The filesystem collaborator: directories, regular files with their
    content, and the paths at which the operating system refuses to create a
    directory or to write a file (a directory without write permission, a
    read-only medium).  A path is the name of what it denotes: two strings
    are two names. *)
Record FS := {
  dirs : gset string;
  files : gmap string string;
  refused : gset string
}.

(** Calls made to the two collaborators, oldest first.  [EvSave] is a save
    that wrote its file, [EvSaveFailed] one that raised. *)
Inductive event :=
  | EvOpen (path : string)
  | EvMakedirs (path : string)
  | EvSeek (index : Z)
  | EvConvert (mode : string)
  | EvSave (path format data : string)
  | EvSaveFailed (path format : string).

Record World := { fs : FS; stdout : list string; calls : list event }.

(** The exceptions of a run: the [ZeroDivisionError] of [//], the
    [ValueError] of [range] and of [int], [DecodeError] for what the decoder
    raises in [Image.open], [seek] and [convert], and [OSError] for what the
    filesystem raises in [os.makedirs] and [save]. *)
Inductive exn := ZeroDivisionError | ValueError | DecodeError | OSError.

(** How a computation ends: with a value, by [sys.exit(code)], or with an
    exception that nothing catches. *)
Inductive outcome (A : Type) :=
  | Return (a : A)
  | SysExit (code : Z)
  | Raise (e : exn).
Arguments Return {A} a.
Arguments SysExit {A} code.
Arguments Raise {A} e.

(** The exit status the interpreter gives the process. *)
Definition exit_status {A} (o : outcome A) : Z :=
  match o with
  | Return _ => 0
  | SysExit code => code
  | Raise _ => 1
  end.

Definition M (A : Type) : Type := World -> outcome A * World.

#[global] Instance M_ret : MRet M := fun A a w => (Return a, w).

#[global] Instance M_bind : MBind M := fun A B f m w =>
  match m w with
  | (Return a, w') => f a w'
  | (SysExit code, w') => (SysExit code, w')
  | (Raise e, w') => (Raise e, w')
  end.

Definition sys_exit {A} (code : Z) : M A := fun w => (SysExit code, w).

Definition raise {A} (e : exn) : M A := fun w => (Raise e, w).

Definition log (e : event) : M unit := fun w =>
  (Return tt, {| fs := fs w; stdout := stdout w; calls := calls w ++ [e] |}).

Definition print (line : string) : M unit := fun w =>
  (Return tt, {| fs := fs w; stdout := stdout w ++ [line]; calls := calls w |}).

(** [os.path.exists(path)]. *)
Definition path_exists (path : string) : M bool := fun w =>
  (Return (bool_decide (path ∈ dirs (fs w)) || bool_decide (is_Some (files (fs w) !! path))), w).

(** Whether [mkdir(d)] is refused: [d] is a regular file, or the system does
    not let it be created. *)
Definition mkdir_refused (f : FS) (d : string) : bool :=
  bool_decide (is_Some (files f !! d)) || bool_decide (d ∈ refused f).

(** The directories of [ds] made one after the other, outermost first.  One
    that exists is left alone; the first that cannot be made stops the work,
    and those made before it stay. *)
Fixpoint mkdir_all (ds : list string) (f : FS) : bool * FS :=
  match ds with
  | [] => (true, f)
  | d :: ds' =>
      if bool_decide (d ∈ dirs f) then mkdir_all ds' f
      else if mkdir_refused f d then (false, f)
      else mkdir_all ds' {| dirs := {[ d ]} ∪ dirs f; files := files f;
                            refused := refused f |}
  end.

(** [os.makedirs(path, exist_ok=True)]: the directory and every missing
    parent are created; [OSError] when the path is empty
    ([FileNotFoundError]), when it or one of its parents is a regular file
    ([FileExistsError], [NotADirectoryError]) or may not be created
    ([PermissionError]). *)
Definition makedirs (path : string) : M unit := fun w =>
  let called := calls w ++ [EvMakedirs path] in
  if String.eqb path "" then
    (Raise OSError, {| fs := fs w; stdout := stdout w; calls := called |})
  else
    let (made, f) := mkdir_all (OsPath.parents path ++ [path]) (fs w) in
    (if made then Return tt else Raise OSError,
     {| fs := f; stdout := stdout w; calls := called |}).

(** The value of an optional result, or the exception. *)
Definition or_raise {A} (o : option A) (e : exn) : M A :=
  match o with
  | Some a => mret a
  | None => raise e
  end.

Inductive flow (S : Type) :=
  | Continue (s : S)
  | Break (s : S).
Arguments Continue {S} s.
Arguments Break {S} s.

(** [for i in l: body], where the body may [break]. *)
Fixpoint for_each {S} (body : Z -> S -> M (flow S)) (l : list Z) (s : S) : M S :=
  match l with
  | [] => mret s
  | i :: l' =>
      r ← body i s;
      match r with
      | Continue s' => for_each body l' s'
      | Break s' => mret s'
      end
  end.

(** ** [extract_frames] *)

Section Script.

(** [Image.open] on the content of a file ([None]: the decoder raises), and
    the bytes [save] writes for a still in a given format. *)
Variable pil_open : string -> option Image.
Variable pil_encode : string -> Still -> string.

(** [int(s)]; [None] stands for its [ValueError]. *)
Variable py_int : string -> option Z.

(** [Image.open(path)]. *)
Definition image_open (path : string) : M Handle := fun w =>
  let w' := {| fs := fs w; stdout := stdout w; calls := calls w ++ [EvOpen path] |} in
  match files (fs w) !! path with
  | Some data =>
      match pil_open data with
      | Some im => (Return {| image := im; active := first_frame im |}, w')
      | None => (Raise DecodeError, w')
      end
  | None => (Raise DecodeError, w')
  end.

(** [img.seek(i)]. *)
Definition seek (img : Handle) (i : Z) : M Handle :=
  log (EvSeek i);;
  f ← or_raise (frame_at (image img) i) DecodeError;
  mret {| image := image img; active := f |}.

(** [img.convert(mode)]: the raster of the active frame is loaded here. *)
Definition convert (img : Handle) (mode : string) : M Still :=
  log (EvConvert mode);;
  px ← or_raise (pixels (active img)) DecodeError;
  mret {| still_mode := mode; still_pixels := px |}.

(** Whether a file can be written at [path]: the path is not a directory and
    the system does not refuse it. *)
Definition can_save (f : FS) (path : string) : bool :=
  bool_decide (path ∉ dirs f) && bool_decide (path ∉ refused f).

(** [frame.save(path, format)]: the file is created or replaced; [OSError]
    ([IsADirectoryError], [PermissionError]) when it cannot be written. *)
Definition save (frame : Still) (path format : string) : M unit := fun w =>
  if can_save (fs w) path then
    let data := pil_encode format frame in
    (Return tt,
     {| fs := {| dirs := dirs (fs w); files := <[ path := data ]> (files (fs w));
                 refused := refused (fs w) |};
        stdout := stdout w;
        calls := calls w ++ [EvSave path format data] |})
  else
    (Raise OSError,
     {| fs := fs w; stdout := stdout w;
        calls := calls w ++ [EvSaveFailed path format] |}).

(** The f-string naming an output file. *)
Definition frame_name (extracted i duration : Z) : string :=
  "frame_" +:+ Py.format_03d extracted +:+ "_f" +:+ Py.str i +:+
  "_d" +:+ Py.str duration +:+ "ms.png".

(** The local variables the loop updates. *)
Record LoopState := { extracted : Z; img : Handle }.

(** The body of the loop, lines 46 to 56. *)
Definition loop_body (max_frames : Z) (output_dir : string) (i : Z) (st : LoopState)
  : M (flow LoopState) :=
  if extracted st >=? max_frames then mret (Break st)
  else
    img' ← seek (img st) i;
    frame ← convert img' "RGBA";
    let duration := default 0 (info_duration (active img')) in
    let out_path := OsPath.join output_dir (frame_name (extracted st) i duration) in
    save frame out_path "PNG";;
    mret (Continue {| extracted := extracted st + 1; img := img' |}).

(** Lines 28 and 29; [None] stands for the [ZeroDivisionError] of [//]. *)
Definition resolve_skip (total_frames max_frames : Z) (skip : option Z) : option Z :=
  match skip with
  | None => Z.max 1 <$> Py.floordiv total_frames max_frames
  | Some s => Some s
  end.

(** Lines 32 to 34. *)
Definition resolve_output_dir (gif_path : string) (output_dir : option string) : string :=
  match output_dir with
  | None => OsPath.splitext_root gif_path +:+ "_frames"
  | Some d => d
  end.

Definition extract_frames (gif_path : string) (max_frames : Z) (skip : option Z)
    (output_dir : option string) : M (string * Z) :=
  found ← path_exists gif_path;
  if negb found then
    print ("Error: File not found: " +:+ gif_path);;
    sys_exit 1
  else
    img0 ← image_open gif_path;
    let total_frames := default 1 (n_frames_attr (image img0)) in
    if total_frames =? 1 then
      print "Error: Not an animated GIF (only 1 frame)";;
      sys_exit 1
    else
      skip ← or_raise (resolve_skip total_frames max_frames skip) ZeroDivisionError;
      let output_dir := resolve_output_dir gif_path output_dir in
      makedirs output_dir;;
      print ("GIF: " +:+ gif_path);;
      print ("Total frames: " +:+ Py.str total_frames);;
      print ("Skip: every " +:+ Py.str skip +:+ " frame(s)");;
      print ("Output: " +:+ output_dir);;
      print "---";;
      candidates ← or_raise (Py.range 0 total_frames skip) ValueError;
      st ← for_each (loop_body max_frames output_dir) candidates
             {| extracted := 0; img := img0 |};
      print ("Extracted " +:+ Py.str (extracted st) +:+ " frames to " +:+ output_dir);;
      mret (output_dir, extracted st).

(** ** The command-line driver *)

(** The module docstring, printed as the usage text. *)
Definition module_doc : string :=
"GIF 프레임 추출 스크립트
Usage: python scripts/extract-gif-frames.py <input.gif> [--max-frames 30] [--skip N]

Options:
  --max-frames  최대 추출 프레임 수 (기본: 30)
  --skip N      N 프레임마다 1장 추출 (기본: 자동 계산)
  --output-dir  출력 디렉토리 (기본: input 파일 옆에 _frames 폴더)
".

(** The variables the argument scanner assigns. *)
Record Options := {
  opt_max_frames : Z;
  opt_skip : option Z;
  opt_output_dir : option string
}.

(** Lines 68 to 70. *)
Definition default_options : Options :=
  {| opt_max_frames := 30; opt_skip := None; opt_output_dir := None |}.

(** [args[i]]; the scanner only reads indices it has checked. *)
Definition arg_at (args : list string) (i : nat) : string := default "" (args !! i).

(** The [while] loop of lines 74 to 85, from index [i] on. *)
Equations? scan_args (args : list string) (i : nat) (o : Options) : outcome Options
  by wf (length args - i)%nat lt :=
  scan_args args i o with decide (i < length args)%nat => {
    | right _ => Return o
    | left Hlt =>
        if String.eqb (arg_at args i) "--max-frames" && (i + 1 <? length args)%nat then
          match py_int (arg_at args (i + 1)) with
          | Some n =>
              scan_args args (i + 2)
                {| opt_max_frames := n; opt_skip := opt_skip o;
                   opt_output_dir := opt_output_dir o |}
          | None => Raise ValueError
          end
        else if String.eqb (arg_at args i) "--skip" && (i + 1 <? length args)%nat then
          match py_int (arg_at args (i + 1)) with
          | Some n =>
              scan_args args (i + 2)
                {| opt_max_frames := opt_max_frames o; opt_skip := Some n;
                   opt_output_dir := opt_output_dir o |}
          | None => Raise ValueError
          end
        else if String.eqb (arg_at args i) "--output-dir" && (i + 1 <? length args)%nat then
          scan_args args (i + 2)
            {| opt_max_frames := opt_max_frames o; opt_skip := opt_skip o;
               opt_output_dir := Some (arg_at args (i + 1)) |}
        else scan_args args (i + 1) o
  }.
Proof. all: lia. Qed.

Definition lift_outcome {A} (r : outcome A) : M A := fun w => (r, w).

(** Lines 62 to 87. *)
Definition main (argv : list string) : M unit :=
  if (length argv <? 2)%nat then
    print module_doc;;
    sys_exit 1
  else
    let gif_path := arg_at argv 1 in
    o ← lift_outcome (scan_args (drop 2 argv) 0 default_options);
    extract_frames gif_path (opt_max_frames o) (opt_skip o) (opt_output_dir o);;
    mret tt.

(** The script as a process: its exit status and the world it leaves. *)
Definition run_script (argv : list string) (w : World) : Z * World :=
  let (r, w') := main argv w in (exit_status r, w').

End Script.

Arguments image_open pil_open path w : rename.
Arguments loop_body pil_encode max_frames output_dir i st w : rename.

(** ** Vocabulary of the statements *)

(** The least [q] with [a <= q * b], for a positive [b]. *)
Definition ceil_div (a b : Z) : Z := (a + b - 1) / b.

(** The frame [seek(i)] makes active. *)
Definition frame_of (im : Image) (i : Z) : Frame :=
  default (first_frame im) (frame_at im i).

(** The raster [convert] gets from frame [i]; [None] when [seek(i)] or the
    loading of the raster raises. *)
Definition raster (im : Image) (i : Z) : option string :=
  frame_at im i ≫= pixels.

(** The duration read for frame [i]: the entry of [img.info], or 0. *)
Definition duration_of (im : Image) (i : Z) : Z :=
  default 0 (info_duration (frame_of im i)).

(** The file saved for source frame [i] as the [k]-th output. *)
Definition saved_path (im : Image) (output_dir : string) (k i : Z) : string :=
  OsPath.join output_dir (frame_name k i (duration_of im i)).

Definition saved_data (pil_encode : string -> Still -> string) (im : Image) (i : Z) : string :=
  pil_encode "PNG" {| still_mode := "RGBA"; still_pixels := default "" (raster im i) |}.

(** The collaborator calls of one full iteration. *)
Definition frame_calls (pil_encode : string -> Still -> string) (im : Image)
    (output_dir : string) (ki : Z * Z) : list event :=
  [EvSeek ki.2; EvConvert "RGBA";
   EvSave (saved_path im output_dir ki.1 ki.2) "PNG" (saved_data pil_encode im ki.2)].

(** The files written, in order, among a list of calls. *)
Definition saves (evs : list event) : list (string * string) :=
  omap (fun e => match e with EvSave path _ data => Some (path, data) | _ => None end) evs.

(** The source indices sought, in order, among a list of calls. *)
Definition seeks (evs : list event) : list Z :=
  omap (fun e => match e with EvSeek i => Some i | _ => None end) evs.

(** The pairs (sequence index, source index) the loop processes when it
    starts with [extracted = e] on the candidates [l]. *)
Fixpoint sampled (max_frames e : Z) (l : list Z) : list (Z * Z) :=
  match l with
  | [] => []
  | i :: l' => if e >=? max_frames then [] else (e, i) :: sampled max_frames (e + 1) l'
  end.

(** Replaying a list of writes on the files of a filesystem. *)
Definition write_all (ws : list (string * string)) (m : gmap string string)
  : gmap string string :=
  foldl (fun m kv => <[ kv.1 := kv.2 ]> m) m ws.

(** The sequence index read back from its field of a file name. *)
Definition parse_seq (field : string) : option Z :=
  Z.of_int <$> NilZero.int_of_string field.

(** The flags the argument scanner knows. *)
Definition recognized (token : string) : bool :=
  String.eqb token "--max-frames" || String.eqb token "--skip"
  || String.eqb token "--output-dir".

(** One turn of the scanner's loop at an index [i] below the length: the
    next index and the options then, or [None] when [int] raises. *)
Definition scan_step (py_int : string -> option Z) (args : list string) (i : nat)
    (o : Options) : option (nat * Options) :=
  if String.eqb (arg_at args i) "--max-frames" && (i + 1 <? length args)%nat then
    (fun n => ((i + 2)%nat,
               {| opt_max_frames := n; opt_skip := opt_skip o;
                  opt_output_dir := opt_output_dir o |})) <$> py_int (arg_at args (i + 1))
  else if String.eqb (arg_at args i) "--skip" && (i + 1 <? length args)%nat then
    (fun n => ((i + 2)%nat,
               {| opt_max_frames := opt_max_frames o; opt_skip := Some n;
                  opt_output_dir := opt_output_dir o |})) <$> py_int (arg_at args (i + 1))
  else if String.eqb (arg_at args i) "--output-dir" && (i + 1 <? length args)%nat then
    Some ((i + 2)%nat,
          {| opt_max_frames := opt_max_frames o; opt_skip := opt_skip o;
             opt_output_dir := Some (arg_at args (i + 1)) |})
  else Some ((i + 1)%nat, o).

(** [scan_reaches py_int args i o]: the scan of [args], started at index 0
    with the default options, comes to index [i] with the options [o].  The
    indices reached are the ones where a token is read as a flag or passed
    over; the value of a recognized flag is stepped across. *)
Inductive scan_reaches (py_int : string -> option Z) (args : list string)
  : nat -> Options -> Prop :=
  | scan_start : scan_reaches py_int args 0 default_options
  | scan_next i o i' o' :
      scan_reaches py_int args i o ->
      (i < length args)%nat ->
      scan_step py_int args i o = Some (i', o') ->
      scan_reaches py_int args i' o'.

Definition is_digit (a : ascii) : bool :=
  match uint_of_char a (Some Decimal.Nil) with
  | Some _ => true
  | None => false
  end.

(** A field made of decimal digits only. *)
Fixpoint all_digits (s : string) : bool :=
  match s with
  | EmptyString => true
  | String a s' => is_digit a && all_digits s'
  end.

(** ** A small decoder for the examples *)

(** Every character of the file is one frame; frame [i] lasts [10 * (i + 1)]
    milliseconds, except every frame at a multiple of 4, which has no duration
    entry.  An empty file is not an image. *)
Definition toy_frame (data : string) (i : Z) : option Frame :=
  if (0 <=? i) && (i <? Z.of_nat (String.length data)) then
    Some {| pixels := Some (String.substring (Z.to_nat i) 1 data);
            info_duration := if i mod 4 =? 0 then None else Some (10 * (i + 1)) |}
  else None.

Definition toy_open (data : string) : option Image :=
  match toy_frame data 0 with
  | Some f =>
      Some {| n_frames_attr := Some (Z.of_nat (String.length data));
              first_frame := f;
              frame_at := toy_frame data |}
  | None => None
  end.

Definition toy_encode (format : string) (s : Still) : string :=
  format +:+ ":" +:+ still_mode s +:+ ":" +:+ still_pixels s.

(** The decimal fragment of [int]: an optional minus sign and digits. *)
Definition dec_int (s : string) : option Z := Z.of_int <$> NilZero.int_of_string s.

Definition toy_world (path data : string) : World :=
  {| fs := {| dirs := ∅; files := {[ path := data ]}; refused := ∅ |};
     stdout := []; calls := [] |}.

(** A run on a 12-frame file with stride 5, and a world that differs from
    [toy_world] by files lying around. *)
Definition example_run : outcome (string * Z) * World :=
  extract_frames toy_open toy_encode "a/anim.gif" 30 (Some 5) None
    (toy_world "a/anim.gif" "abcdefghijkl").

Definition crowded_world : World :=
  {| fs := {| dirs := {[ "a/anim_frames" ]};
              files := {[ "a/anim.gif" := "abcdefghijkl";
                          "a/anim_frames/frame_000_f0_d0ms.png" := "old";
                          "notes.txt" := "n" ]};
              refused := ∅ |};
     stdout := ["earlier"];
     calls := [] |}.

(** A world where [out] is a regular file, and one where the path of the
    second frame file of a stride-3 run into [out] is a directory. *)
Definition blocked_world : World :=
  {| fs := {| dirs := ∅;
              files := {[ "a.gif" := "abcdefghijkl"; "out" := "notes" ]};
              refused := ∅ |};
     stdout := []; calls := [] |}.

Definition frame_dir_world : World :=
  {| fs := {| dirs := {[ "out/frame_001_f3_d40ms.png" ]};
              files := {[ "a.gif" := "abcdefghijkl" ]};
              refused := ∅ |};
     stdout := []; calls := [] |}.

(** A decoder like the small one, except that [seek] raises on a frame
    written [?] and that the raster of a frame written [!] is damaged. *)
Definition flawed_frame (data : string) (i : Z) : option Frame :=
  if String.eqb (String.substring (Z.to_nat i) 1 data) "?" then None
  else if String.eqb (String.substring (Z.to_nat i) 1 data) "!" then
    (fun f => {| pixels := None; info_duration := info_duration f |}) <$> toy_frame data i
  else toy_frame data i.

Definition flawed_open (data : string) : option Image :=
  match toy_frame data 0 with
  | Some f =>
      Some {| n_frames_attr := Some (Z.of_nat (String.length data));
              first_frame := f;
              frame_at := flawed_frame data |}
  | None => None
  end.

(** ** Effects of a run, for comparing two runs *)

(** What a computation adds to the world. *)
Record Effect := {
  e_dirs : gset string;
  e_writes : list (string * string);
  e_out : list string;
  e_calls : list event
}.

Definition apply_effect (d : Effect) (w : World) : World :=
  {| fs := {| dirs := e_dirs d ∪ dirs (fs w);
              files := write_all (e_writes d) (files (fs w));
              refused := refused (fs w) |};
     stdout := stdout w ++ e_out d;
     calls := calls w ++ e_calls d |}.

Definition no_effect : Effect :=
  {| e_dirs := ∅; e_writes := []; e_out := []; e_calls := [] |}.

Definition then_effect (d1 d2 : Effect) : Effect :=
  {| e_dirs := e_dirs d2 ∪ e_dirs d1;
     e_writes := e_writes d1 ++ e_writes d2;
     e_out := e_out d1 ++ e_out d2;
     e_calls := e_calls d1 ++ e_calls d2 |}.

(** The effect of the full iterations on the pairs [kis]. *)
Definition frames_effect (pil_encode : string -> Still -> string) (im : Image)
    (output_dir : string) (kis : list (Z * Z)) : Effect :=
  {| e_dirs := ∅;
     e_writes := map (fun ki => (saved_path im output_dir ki.1 ki.2,
                                 saved_data pil_encode im ki.2)) kis;
     e_out := [];
     e_calls := flat_map (frame_calls pil_encode im output_dir) kis |}.

(** The directories [makedirs] leaves in place when it returns: the output
    directory and its parents. *)
Definition made_dirs (output_dir : string) : gset string :=
  list_to_set (OsPath.parents output_dir ++ [output_dir]).

(** Whether [makedirs] can make the output directory: the path is not empty,
    and each of the directory and its parents exists or may be created. *)
Definition can_makedirs (f : FS) (output_dir : string) : bool :=
  negb (String.eqb output_dir "") &&
  forallb (fun d => bool_decide (d ∈ dirs f) || negb (mkdir_refused f d))
          (OsPath.parents output_dir ++ [output_dir]).

(** Every frame file of the output directory can be written. *)
Definition frames_writable (f : FS) (output_dir : string) : Prop :=
  forall k i d, can_save f (OsPath.join output_dir (frame_name k i d)) = true.

(** The [k]-th output can be taken from source frame [i]: the raster loads
    and the file can be written. *)
Definition frame_ok (f : FS) (im : Image) (output_dir : string) (ki : Z * Z) : Prop :=
  is_Some (raster im ki.2) /\ can_save f (saved_path im output_dir ki.1 ki.2) = true.

(** How the loop goes when it starts with [extracted = e] on the candidates
    [l], in a filesystem [f]: the pairs it processes in full and, when an
    iteration raises, the exception with the calls of that iteration. *)
Fixpoint loop_trace (f : FS) (im : Image) (output_dir : string) (max_frames e : Z)
    (l : list Z) : list (Z * Z) * option (exn * list event) :=
  match l with
  | [] => ([], None)
  | i :: l' =>
      if e >=? max_frames then ([], None)
      else
        match frame_at im i with
        | None => ([], Some (DecodeError, [EvSeek i]))
        | Some fr =>
            match pixels fr with
            | None => ([], Some (DecodeError, [EvSeek i; EvConvert "RGBA"]))
            | Some _ =>
                if can_save f (saved_path im output_dir e i) then
                  let t := loop_trace f im output_dir max_frames (e + 1) l' in
                  ((e, i) :: t.1, t.2)
                else
                  ([], Some (OSError,
                             [EvSeek i; EvConvert "RGBA";
                              EvSaveFailed (saved_path im output_dir e i) "PNG"]))
            end
        end
  end.

(** The calls of the iteration that raised, if one did. *)
Definition last_calls (ending : option (exn * list event)) : list event :=
  match ending with
  | Some (_, evs) => evs
  | None => []
  end.

(** The effect of a loop that went as [t] tells. *)
Definition trace_effect (pil_encode : string -> Still -> string) (im : Image)
    (output_dir : string) (t : list (Z * Z) * option (exn * list event)) : Effect :=
  then_effect (frames_effect pil_encode im output_dir t.1)
    {| e_dirs := ∅; e_writes := []; e_out := []; e_calls := last_calls t.2 |}.

(** The lines printed before the loop. *)
Definition banner (gif_path : string) (total_frames skip : Z) (output_dir : string)
  : list string :=
  ["GIF: " +:+ gif_path;
   "Total frames: " +:+ Py.str total_frames;
   "Skip: every " +:+ Py.str skip +:+ " frame(s)";
   "Output: " +:+ output_dir;
   "---"].

(** The effect of a run that returns after processing the pairs [kis]. *)
Definition run_effect (pil_encode : string -> Still -> string) (im : Image)
    (gif_path : string) (total_frames skip : Z) (output_dir : string)
    (kis : list (Z * Z)) : Effect :=
  {| e_dirs := made_dirs output_dir;
     e_writes := e_writes (frames_effect pil_encode im output_dir kis);
     e_out := banner gif_path total_frames skip output_dir ++
              ["Extracted " +:+ Py.str (Z.of_nat (length kis)) +:+ " frames to " +:+ output_dir];
     e_calls := EvOpen gif_path :: EvMakedirs output_dir ::
                e_calls (frames_effect pil_encode im output_dir kis) |}.

(** The input path denotes the same thing in two worlds. *)
Definition same_input (path : string) (w w' : World) : Prop :=
  (path ∈ dirs (fs w) ↔ path ∈ dirs (fs w')) ∧
  files (fs w) !! path = files (fs w') !! path.

(** The filesystem allows the same at the output directory in two worlds:
    the directory can be made in one exactly when in the other, and so can
    each of its frame files be written. *)
Definition same_output (output_dir : string) (w w' : World) : Prop :=
  can_makedirs (fs w) output_dir = can_makedirs (fs w') output_dir
  /\ forall k i d,
       can_save (fs w) (OsPath.join output_dir (frame_name k i d)) =
       can_save (fs w') (OsPath.join output_dir (frame_name k i d)).

(** ** The loop, one iteration at a time *)

(** [loop_reach body c c']: from the loop head in configuration [c]
    (candidates left, local variables, world), zero or more full iterations
    lead to the loop head in configuration [c']. *)
Inductive loop_reach {S} (body : Z -> S -> M (flow S))
  : list Z * S * World -> list Z * S * World -> Prop :=
  | reach_here c : loop_reach body c c
  | reach_next i l s w s' w' c :
      body i s w = (Return (Continue s'), w') ->
      loop_reach body (l, s', w') c ->
      loop_reach body (i :: l, s, w) c.

(** ** Further vocabulary *)

(** The world when the loop starts: the container opened, the directory
    created, the five lines printed. *)
Definition before_loop (gif_path : string) (total_frames skip : Z) (output_dir : string)
    (w : World) : World :=
  {| fs := {| dirs := made_dirs output_dir ∪ dirs (fs w); files := files (fs w);
              refused := refused (fs w) |};
     stdout := stdout w ++ banner gif_path total_frames skip output_dir;
     calls := calls w ++ [EvOpen gif_path; EvMakedirs output_dir] |}.

(** Whether a character occurs in a string. *)
Fixpoint has_char (c : ascii) (s : string) : bool :=
  match s with
  | EmptyString => false
  | String a s' => Ascii.eqb a c || has_char c s'
  end.

(** The last line a returning run prints. *)
Definition summary_line (count : Z) (output_dir : string) : string :=
  "Extracted " +:+ Py.str count +:+ " frames to " +:+ output_dir.

(** The world after a loop that went as [t] tells, started in [wb], and
    after the summary line when it did not raise. *)
Definition after_loop (pil_encode : string -> Still -> string) (im : Image)
    (output_dir : string) (t : list (Z * Z) * option (exn * list event)) (wb : World)
  : World :=
  {| fs := {| dirs := dirs (fs wb);
              files := write_all (e_writes (frames_effect pil_encode im output_dir t.1))
                                 (files (fs wb));
              refused := refused (fs wb) |};
     stdout := stdout wb ++
               match t.2 with
               | None => [summary_line (Z.of_nat (length t.1)) output_dir]
               | Some _ => []
               end;
     calls := calls wb ++
              e_calls (frames_effect pil_encode im output_dir t.1) ++ last_calls t.2 |}.

(** The world once the container is open. *)
Definition opened (gif_path : string) (w : World) : World :=
  {| fs := fs w; stdout := stdout w; calls := calls w ++ [EvOpen gif_path] |}.

(** A computation that leaves by [sys.exit] only with status 1. *)
Definition exits_one {A} (c : M A) : Prop :=
  forall w code w', c w = (SysExit code, w') -> code = 1.

(** A call that stays with the output directory: it creates that directory
    or saves a frame file in it (or touches no path at all). *)
Definition under_output_dir (output_dir : string) (e : event) : Prop :=
  match e with
  | EvMakedirs path => path = output_dir
  | EvSave path _ _ | EvSaveFailed path _ =>
      exists k i d, path = OsPath.join output_dir (frame_name k i d)
  | _ => True
  end.

(** A computation that only adds to the world and stays with the output
    directory: it adds no directory other than that one and its parents, the
    files it writes are the ones whose saving it logs, and its calls are
    about that directory. *)
Definition confined (output_dir : string) {A} (c : M A) : Prop :=
  forall w r w', c w = (r, w') ->
    exists d, w' = apply_effect d w
              /\ e_dirs d ⊆ made_dirs output_dir
              /\ e_writes d = saves (e_calls d)
              /\ Forall (under_output_dir output_dir) (e_calls d).

(** ** Arithmetic of the sampling *)

Lemma ceil_div_spec a b :
  0 < b -> (ceil_div a b - 1) * b < a <= ceil_div a b * b.
Proof.
  intros Hb. unfold ceil_div.
  pose proof (Z.div_mod (a + b - 1) b ltac:(lia)) as Hdm.
  pose proof (Z.mod_pos_bound (a + b - 1) b Hb) as Hm.
  nia.
Qed.

Lemma ceil_div_succ a b : 0 < b -> ceil_div a b = 1 + (a - 1) / b.
Proof.
  intros Hb. unfold ceil_div.
  replace (a + b - 1) with (a - 1 + 1 * b) by lia.
  rewrite Z.div_add by lia. lia.
Qed.

Lemma range_len_up total s :
  0 < s -> 0 < total -> Py.range_len 0 total s = ceil_div total s.
Proof.
  intros Hs Ht. unfold Py.range_len.
  rewrite (proj2 (Z.ltb_lt 0 s) Hs), (proj2 (Z.ltb_lt 0 total) Ht). simpl.
  rewrite ceil_div_succ by lia. f_equal. f_equal. lia.
Qed.

Lemma range_up total s :
  0 < s -> 0 < total ->
  Py.range 0 total s =
  Some (map (fun k => Z.of_nat k * s) (seq 0 (Z.to_nat (ceil_div total s)))).
Proof.
  intros Hs Ht. unfold Py.range.
  rewrite (proj2 (Z.eqb_neq s 0)) by lia.
  rewrite range_len_up by lia. reflexivity.
Qed.

Lemma range_down total s :
  s < 0 -> 0 <= total -> Py.range 0 total s = Some [].
Proof.
  intros Hs Ht. unfold Py.range, Py.range_len.
  rewrite (proj2 (Z.eqb_neq s 0)) by lia.
  rewrite (proj2 (Z.ltb_ge 0 s)) by lia. simpl.
  rewrite (proj2 (Z.ltb_ge total 0)) by lia.
  rewrite andb_false_r. reflexivity.
Qed.

Lemma sampled_length max_frames l e :
  length (sampled max_frames e l) = Nat.min (length l) (Z.to_nat (max_frames - e)).
Proof.
  revert e. induction l as [|i l IH]; intros e; simpl; [reflexivity|].
  destruct (Z.geb_spec e max_frames) as [Hge|Hlt].
  - replace (Z.to_nat (max_frames - e)) with 0%nat by lia. reflexivity.
  - simpl. rewrite IH.
    replace (Z.to_nat (max_frames - e)) with (S (Z.to_nat (max_frames - (e + 1)))) by lia.
    reflexivity.
Qed.

Lemma sampled_range max_frames s n e a :
  sampled max_frames e (map (fun k => Z.of_nat k * s) (seq a n)) =
  map (fun j => (e + Z.of_nat j, Z.of_nat (a + j) * s))
      (seq 0 (Nat.min n (Z.to_nat (max_frames - e)))).
Proof.
  revert e a. induction n as [|n IH]; intros e a; simpl; [reflexivity|].
  destruct (Z.geb_spec e max_frames) as [Hge|Hlt].
  - replace (Z.to_nat (max_frames - e)) with 0%nat by lia. reflexivity.
  - replace (Z.to_nat (max_frames - e)) with (S (Z.to_nat (max_frames - (e + 1)))) by lia.
    simpl. rewrite IH, <- seq_shift, map_map.
    f_equal.
    + f_equal; [lia | f_equal; lia].
    + apply map_ext. intros j. f_equal; [lia | f_equal; lia].
Qed.

Lemma sampled_candidates max_frames total s :
  0 < s -> 0 < total -> 0 <= max_frames ->
  sampled max_frames 0 (map (fun k => Z.of_nat k * s) (seq 0 (Z.to_nat (ceil_div total s)))) =
  (fun k => (k, k * s)) <$> seqZ 0 (Z.min max_frames (ceil_div total s)).
Proof.
  intros Hs Ht Hm. rewrite sampled_range. unfold seqZ.
  rewrite <- list_fmap_compose.
  replace (Z.to_nat (Z.min max_frames (ceil_div total s)))
    with (Nat.min (Z.to_nat (ceil_div total s)) (Z.to_nat (max_frames - 0))) by lia.
  apply map_ext. intros j. simpl. f_equal; [lia | f_equal; lia].
Qed.

Lemma sampled_bound max_frames l e :
  Z.of_nat (length (sampled max_frames e l)) <= Z.max 0 (max_frames - e).
Proof. rewrite sampled_length. lia. Qed.

Lemma sampled_in_candidates max_frames l :
  forall e ki, ki ∈ sampled max_frames e l -> ki.2 ∈ l.
Proof.
  induction l as [|i l IH]; intros e ki Hin; simpl in Hin.
  - apply elem_of_nil in Hin. contradiction.
  - destruct (e >=? max_frames); [apply elem_of_nil in Hin; contradiction|].
    apply elem_of_cons in Hin as [->|Hin]; [left | right; eapply IH; exact Hin].
Qed.

(** ** Running the monad *)

Lemma apply_no_effect w : apply_effect no_effect w = w.
Proof.
  destruct w as [[d f] o c]. unfold apply_effect, no_effect, write_all. simpl.
  rewrite union_empty_l_L, !app_nil_r. reflexivity.
Qed.

Lemma write_all_app ws1 ws2 m :
  write_all (ws1 ++ ws2) m = write_all ws2 (write_all ws1 m).
Proof. unfold write_all. apply foldl_app. Qed.

Lemma apply_then_effect d1 d2 w :
  apply_effect (then_effect d1 d2) w = apply_effect d2 (apply_effect d1 w).
Proof.
  unfold apply_effect, then_effect. simpl.
  rewrite write_all_app, !app_assoc, (assoc_L (∪)). reflexivity.
Qed.

Lemma bind_return {A B} (m : M A) (k : A -> M B) w a w' :
  m w = (Return a, w') -> (m ≫= k) w = k a w'.
Proof. intros H. unfold mbind, M_bind. rewrite H. reflexivity. Qed.

Lemma bind_raise {A B} (m : M A) (k : A -> M B) w e w' :
  m w = (Raise e, w') -> (m ≫= k) w = (Raise e, w').
Proof. intros H. unfold mbind, M_bind. rewrite H. reflexivity. Qed.

Lemma bind_exit {A B} (m : M A) (k : A -> M B) w code w' :
  m w = (SysExit code, w') -> (m ≫= k) w = (SysExit code, w').
Proof. intros H. unfold mbind, M_bind. rewrite H. reflexivity. Qed.

(** ** The filesystem collaborator *)

Lemma string_length_app a b :
  String.length (a +:+ b) = (String.length a + String.length b)%nat.
Proof. induction a as [|c a IH]; simpl; [reflexivity | rewrite IH; reflexivity]. Qed.

Lemma forallb_agree {A} (f g : A -> bool) l :
  (forall x, f x = g x) -> forallb f l = forallb g l.
Proof.
  intros H. induction l as [|x l IH]; simpl; [reflexivity | rewrite H, IH; reflexivity].
Qed.

Lemma parents_from_length seen rest d :
  d ∈ OsPath.parents_from seen rest ->
  (String.length d < String.length seen + String.length rest)%nat.
Proof.
  revert seen. induction rest as [|c rest IH]; intros seen Hin; simpl in Hin.
  - apply elem_of_nil in Hin. destruct Hin.
  - assert (Hmore : d ∈ OsPath.parents_from (seen +:+ String c "") rest ->
                    (String.length d < String.length seen + String.length (String c rest))%nat).
    { intros H. apply IH in H. rewrite string_length_app in H. simpl in H |- *. lia. }
    destruct (Ascii.eqb c "/" && negb (String.eqb seen "") && negb (Py.endswith_sep seen)).
    + apply elem_of_cons in Hin as [->|Hin]; [simpl; lia | auto].
    + auto.
Qed.

Lemma parents_shorter p d :
  d ∈ OsPath.parents p -> (String.length d < String.length p)%nat.
Proof. intros H. apply parents_from_length in H. exact H. Qed.

Lemma made_dirs_length od d :
  d ∈ made_dirs od -> (String.length d <= String.length od)%nat.
Proof.
  unfold made_dirs. rewrite elem_of_list_to_set, elem_of_app, (list_elem_of_singleton d od).
  intros [H| ->]; [apply parents_shorter in H; lia | lia].
Qed.

Lemma output_dir_made od : od ∈ made_dirs od.
Proof.
  unfold made_dirs. rewrite elem_of_list_to_set, elem_of_app, (list_elem_of_singleton od od).
  right. reflexivity.
Qed.

Lemma mkdir_all_fs ds : forall f,
  files (mkdir_all ds f).2 = files f
  /\ refused (mkdir_all ds f).2 = refused f
  /\ dirs f ⊆ dirs (mkdir_all ds f).2
  /\ dirs (mkdir_all ds f).2 ⊆ list_to_set ds ∪ dirs f.
Proof.
  induction ds as [|d ds IH]; intros f; simpl.
  - repeat split; [reflexivity | apply union_subseteq_r].
  - destruct (bool_decide (d ∈ dirs f)); [|destruct (mkdir_refused f d)].
    + destruct (IH f) as (Hf & Hr & Hlo & Hhi).
      repeat split; try assumption.
      intros x Hx. apply Hhi in Hx.
      rewrite elem_of_union in Hx. rewrite !elem_of_union. tauto.
    + simpl. repeat split; try reflexivity.
      intros x Hx. rewrite !elem_of_union. tauto.
    + destruct (IH {| dirs := {[ d ]} ∪ dirs f; files := files f; refused := refused f |})
        as (Hf & Hr & Hlo & Hhi).
      simpl in Hf, Hr, Hlo, Hhi.
      repeat split; try assumption.
      * intros x Hx. apply Hlo. rewrite elem_of_union. tauto.
      * intros x Hx. apply Hhi in Hx.
        rewrite !elem_of_union in Hx. rewrite !elem_of_union. tauto.
Qed.

(** [mkdir_all] makes every directory exactly when each of them exists or
    is not refused. *)
Lemma mkdir_all_made ds : forall f,
  (mkdir_all ds f).1 =
  forallb (fun d => bool_decide (d ∈ dirs f) || negb (mkdir_refused f d)) ds.
Proof.
  induction ds as [|d ds IH]; intros f; simpl; [reflexivity|].
  destruct (bool_decide (d ∈ dirs f)) eqn:Hd; simpl; [apply IH|].
  destruct (mkdir_refused f d) eqn:Hr; simpl; [reflexivity|].
  rewrite IH. apply forallb_agree. intros x.
  unfold mkdir_refused. simpl.
  destruct (bool_decide (is_Some (files f !! x)) || bool_decide (x ∈ refused f)) eqn:Hx;
    simpl; [|rewrite !orb_true_r; reflexivity].
  rewrite !orb_false_r.
  destruct (decide (x = d)) as [->|Hne].
  - exfalso. unfold mkdir_refused in Hr. congruence.
  - apply bool_decide_ext. rewrite elem_of_union, elem_of_singleton. tauto.
Qed.

Lemma mkdir_all_ok ds f :
  forallb (fun d => bool_decide (d ∈ dirs f) || negb (mkdir_refused f d)) ds = true ->
  mkdir_all ds f =
  (true, {| dirs := list_to_set ds ∪ dirs f; files := files f; refused := refused f |}).
Proof.
  revert f. induction ds as [|d ds IH]; intros f H; simpl in H |- *.
  - destruct f as [d f r]. simpl. rewrite union_empty_l_L. reflexivity.
  - apply andb_true_iff in H as [Hd Hrest].
    destruct (bool_decide (d ∈ dirs f)) eqn:Hin.
    + rewrite IH by exact Hrest. f_equal. f_equal.
      apply bool_decide_eq_true in Hin.
      apply set_eq. intros x. rewrite !elem_of_union, elem_of_singleton.
      split; [tauto | intros [[->|?]|?]; tauto].
    + simpl in Hd. apply negb_true_iff in Hd. rewrite Hd.
      rewrite IH.
      * simpl. f_equal. f_equal.
        apply set_eq. intros x. rewrite !elem_of_union. tauto.
      * rewrite <- Hrest. apply forallb_agree. intros x.
        unfold mkdir_refused. simpl.
        destruct (bool_decide (is_Some (files f !! x)) || bool_decide (x ∈ refused f)) eqn:Hx;
          simpl; [|rewrite !orb_true_r; reflexivity].
        rewrite !orb_false_r.
        destruct (decide (x = d)) as [->|Hne].
        -- exfalso. unfold mkdir_refused in Hd. congruence.
        -- apply bool_decide_ext. rewrite elem_of_union, elem_of_singleton. tauto.
Qed.

(** Making the directories again, in a filesystem that has what the first
    attempt left and the same files at these paths, ends the same way and
    changes nothing. *)
Lemma mkdir_all_again ds : forall f f2,
  dirs f2 = dirs (mkdir_all ds f).2 ->
  refused f2 = refused f ->
  (forall d, d ∈ ds -> files f2 !! d = files f !! d) ->
  mkdir_all ds f2 = ((mkdir_all ds f).1, f2).
Proof.
  induction ds as [|d ds IH]; intros f f2 Hdirs Href Hfiles; simpl in *; [reflexivity|].
  assert (Hrest : forall x, x ∈ ds -> files f2 !! x = files f !! x).
  { intros x Hx. apply Hfiles. apply elem_of_cons. right. exact Hx. }
  destruct (bool_decide (d ∈ dirs f)) eqn:Hd.
  - apply bool_decide_eq_true in Hd.
    rewrite bool_decide_eq_true_2.
    + apply IH; assumption.
    + rewrite Hdirs. apply (mkdir_all_fs ds f). exact Hd.
  - apply bool_decide_eq_false in Hd.
    destruct (mkdir_refused f d) eqn:Hr.
    + simpl in Hdirs |- *.
      rewrite bool_decide_eq_false_2 by (rewrite Hdirs; exact Hd).
      unfold mkdir_refused in Hr |- *.
      rewrite Hfiles, Href by (apply elem_of_cons; left; reflexivity).
      rewrite Hr. reflexivity.
    + rewrite bool_decide_eq_true_2.
      * apply IH; assumption.
      * rewrite Hdirs.
        apply (mkdir_all_fs ds {| dirs := {[ d ]} ∪ dirs f; files := files f;
                                  refused := refused f |}).
        simpl. apply elem_of_union. left. apply elem_of_singleton. reflexivity.
Qed.

Lemma can_makedirs_made f od :
  can_makedirs f od =
  negb (String.eqb od "") && (mkdir_all (OsPath.parents od ++ [od]) f).1.
Proof. unfold can_makedirs. rewrite mkdir_all_made. reflexivity. Qed.

(** [makedirs] returns exactly when [can_makedirs] holds, and then the
    directory and its parents are there. *)
Lemma makedirs_ok od w :
  can_makedirs (fs w) od = true ->
  makedirs od w =
  (Return tt,
   {| fs := {| dirs := made_dirs od ∪ dirs (fs w); files := files (fs w);
               refused := refused (fs w) |};
      stdout := stdout w;
      calls := calls w ++ [EvMakedirs od] |}).
Proof.
  unfold can_makedirs. intros H. apply andb_true_iff in H as [Hne Hall].
  unfold makedirs. apply negb_true_iff in Hne. rewrite Hne.
  rewrite (mkdir_all_ok _ _ Hall). reflexivity.
Qed.

Lemma makedirs_raises od w :
  can_makedirs (fs w) od = false ->
  exists f,
    makedirs od w =
      (Raise OSError,
       {| fs := f; stdout := stdout w; calls := calls w ++ [EvMakedirs od] |})
    /\ files f = files (fs w) /\ refused f = refused (fs w)
    /\ dirs (fs w) ⊆ dirs f /\ dirs f ⊆ made_dirs od ∪ dirs (fs w).
Proof.
  rewrite can_makedirs_made. intros H. unfold makedirs.
  destruct (String.eqb od "") eqn:He.
  - exists (fs w). repeat split; try reflexivity. apply union_subseteq_r.
  - simpl in H.
    destruct (mkdir_all_fs (OsPath.parents od ++ [od]) (fs w)) as (Hf & Hr & Hlo & Hhi).
    destruct (mkdir_all (OsPath.parents od ++ [od]) (fs w)) as [made f].
    simpl in H, Hf, Hr, Hlo, Hhi. subst made.
    exists f. repeat split; assumption.
Qed.

Lemma makedirs_cases od w :
  exists r f,
    makedirs od w =
      (r, {| fs := f; stdout := stdout w; calls := calls w ++ [EvMakedirs od] |})
    /\ (r = Return tt /\ can_makedirs (fs w) od = true
        \/ r = Raise OSError /\ can_makedirs (fs w) od = false)
    /\ files f = files (fs w) /\ refused f = refused (fs w)
    /\ dirs (fs w) ⊆ dirs f /\ dirs f ⊆ made_dirs od ∪ dirs (fs w).
Proof.
  destruct (can_makedirs (fs w) od) eqn:H.
  - eexists _, _. split; [apply makedirs_ok, H|].
    split; [left; split; reflexivity|]. simpl.
    repeat split; [apply union_subseteq_r | reflexivity].
  - destruct (makedirs_raises od w H) as (f & Hrun & Hrest).
    exists (Raise OSError), f. split; [exact Hrun|].
    split; [right; split; reflexivity | exact Hrest].
Qed.

(** A second [makedirs], in a world that has the directories the first one
    left and the same files at these paths, ends as the first and changes
    nothing. *)
Lemma makedirs_again od w r w1 w2 :
  makedirs od w = (r, w1) ->
  dirs (fs w2) = dirs (fs w1) ->
  refused (fs w2) = refused (fs w) ->
  (forall d, d ∈ made_dirs od -> files (fs w2) !! d = files (fs w) !! d) ->
  makedirs od w2 =
  (r, {| fs := fs w2; stdout := stdout w2; calls := calls w2 ++ [EvMakedirs od] |}).
Proof.
  unfold makedirs. intros Hrun Hdirs Href Hfiles.
  destruct (String.eqb od "").
  - injection Hrun as <- <-. reflexivity.
  - pose proof (mkdir_all_again (OsPath.parents od ++ [od]) (fs w) (fs w2)) as Hagain.
    destruct (mkdir_all (OsPath.parents od ++ [od]) (fs w)) as [made f].
    injection Hrun as <- <-. simpl in Hdirs, Hagain.
    rewrite Hagain; [reflexivity | exact Hdirs | exact Href |].
    intros d Hd. apply Hfiles. unfold made_dirs. apply elem_of_list_to_set. exact Hd.
Qed.

Lemma frame_path_longer od k i d :
  (String.length od < String.length (OsPath.join od (frame_name k i d)))%nat.
Proof.
  unfold OsPath.join.
  change (String.prefix "/" (frame_name k i d)) with false. cbv iota.
  destruct (String.eqb od "" || Py.endswith_sep od)%bool;
    rewrite ?string_length_app; unfold frame_name; rewrite string_length_app; simpl; lia.
Qed.

(** A frame file is none of the directories [makedirs] makes. *)
Lemma frame_path_not_made od k i d :
  OsPath.join od (frame_name k i d) ∉ made_dirs od.
Proof.
  intros H. apply made_dirs_length in H.
  pose proof (frame_path_longer od k i d). lia.
Qed.

Lemma can_save_same f f' path :
  dirs f = dirs f' -> refused f = refused f' -> can_save f path = can_save f' path.
Proof. unfold can_save. intros -> ->. reflexivity. Qed.

Lemma can_save_apply_writes d w path :
  e_dirs d = ∅ -> can_save (fs (apply_effect d w)) path = can_save (fs w) path.
Proof.
  intros H. apply can_save_same; simpl; [|reflexivity].
  rewrite H. apply union_empty_l_L.
Qed.

Lemma frame_ok_made f im od ki :
  frame_ok f im od ki ->
  frame_ok {| dirs := made_dirs od ∪ dirs f; files := files f; refused := refused f |}
           im od ki.
Proof.
  intros [Hr Hs]. split; [exact Hr|].
  unfold can_save in Hs |- *. simpl.
  apply andb_true_iff in Hs as [Hd Hrf]. apply bool_decide_eq_true in Hd.
  rewrite Hrf, andb_true_r. apply bool_decide_eq_true.
  rewrite elem_of_union. intros [Hm|Hin]; [|exact (Hd Hin)].
  exact (frame_path_not_made _ _ _ _ Hm).
Qed.

Section Loop.

Variable pil_encode : string -> Still -> string.
Variable max_frames : Z.
Variable output_dir : string.

Lemma loop_body_break i st w :
  max_frames <= extracted st ->
  loop_body pil_encode max_frames output_dir i st w = (Return (Break st), w).
Proof.
  intros H. unfold loop_body.
  rewrite (proj2 (Z.geb_le _ _) H). reflexivity.
Qed.

Lemma loop_body_frame i st w f px :
  extracted st < max_frames ->
  frame_at (image (img st)) i = Some f ->
  pixels f = Some px ->
  can_save (fs w) (saved_path (image (img st)) output_dir (extracted st) i) = true ->
  loop_body pil_encode max_frames output_dir i st w =
  (Return (Continue {| extracted := extracted st + 1;
                       img := {| image := image (img st); active := f |} |}),
   apply_effect
     (frames_effect pil_encode (image (img st)) output_dir [(extracted st, i)]) w).
Proof.
  intros Hlt Hf Hpx Hsave. unfold loop_body.
  destruct (Z.geb_spec (extracted st) max_frames) as [?|_]; [lia|].
  unfold saved_path, duration_of, frame_of in Hsave. rewrite Hf in Hsave. simpl in Hsave.
  unfold seek, convert, save, log, or_raise, mbind, M_bind, mret, M_ret. simpl.
  rewrite Hf. simpl. rewrite Hpx. simpl. rewrite Hsave.
  unfold apply_effect, frames_effect, frame_calls, saved_path, saved_data,
    duration_of, frame_of, raster, write_all. simpl.
  rewrite Hf. simpl. rewrite Hpx. simpl.
  rewrite union_empty_l_L, app_nil_r, <- !app_assoc. simpl. reflexivity.
Qed.

(** The three ways an iteration raises: in [seek], in [convert], in [save]. *)
Lemma loop_body_seek_error i st w :
  extracted st < max_frames ->
  frame_at (image (img st)) i = None ->
  loop_body pil_encode max_frames output_dir i st w =
  (Raise DecodeError,
   apply_effect {| e_dirs := ∅; e_writes := []; e_out := []; e_calls := [EvSeek i] |} w).
Proof.
  intros Hlt Hf. unfold loop_body.
  destruct (Z.geb_spec (extracted st) max_frames) as [?|_]; [lia|].
  unfold seek, convert, save, log, or_raise, mbind, M_bind, mret, M_ret. simpl.
  rewrite Hf. simpl. unfold apply_effect, write_all. simpl.
  destruct w as [[d fl rf] o c]. simpl.
  rewrite union_empty_l_L, app_nil_r. reflexivity.
Qed.

Lemma loop_body_convert_error i st w f :
  extracted st < max_frames ->
  frame_at (image (img st)) i = Some f ->
  pixels f = None ->
  loop_body pil_encode max_frames output_dir i st w =
  (Raise DecodeError,
   apply_effect {| e_dirs := ∅; e_writes := []; e_out := [];
                   e_calls := [EvSeek i; EvConvert "RGBA"] |} w).
Proof.
  intros Hlt Hf Hpx. unfold loop_body.
  destruct (Z.geb_spec (extracted st) max_frames) as [?|_]; [lia|].
  unfold seek, convert, save, log, or_raise, mbind, M_bind, mret, M_ret. simpl.
  rewrite Hf. simpl. rewrite Hpx. simpl. unfold apply_effect, write_all. simpl.
  destruct w as [[d fl rf] o c]. simpl.
  rewrite union_empty_l_L, app_nil_r, <- app_assoc. reflexivity.
Qed.

Lemma loop_body_save_error i st w f px :
  extracted st < max_frames ->
  frame_at (image (img st)) i = Some f ->
  pixels f = Some px ->
  can_save (fs w) (saved_path (image (img st)) output_dir (extracted st) i) = false ->
  loop_body pil_encode max_frames output_dir i st w =
  (Raise OSError,
   apply_effect
     {| e_dirs := ∅; e_writes := []; e_out := [];
        e_calls := [EvSeek i; EvConvert "RGBA";
                    EvSaveFailed (saved_path (image (img st)) output_dir (extracted st) i)
                                 "PNG"] |} w).
Proof.
  intros Hlt Hf Hpx Hsave. unfold loop_body.
  destruct (Z.geb_spec (extracted st) max_frames) as [?|_]; [lia|].
  unfold saved_path, duration_of, frame_of in Hsave |- *. rewrite Hf in Hsave |- *.
  simpl in Hsave.
  unfold seek, convert, save, log, or_raise, mbind, M_bind, mret, M_ret. simpl.
  rewrite Hf. simpl. rewrite Hpx. simpl. rewrite Hsave.
  unfold apply_effect, write_all. simpl.
  destruct w as [[d fl rf] o c]. simpl.
  rewrite union_empty_l_L, app_nil_r, <- !app_assoc. reflexivity.
Qed.

Lemma frames_effect_cons im ki kis :
  frames_effect pil_encode im output_dir (ki :: kis) =
  then_effect (frames_effect pil_encode im output_dir [ki])
              (frames_effect pil_encode im output_dir kis).
Proof.
  unfold frames_effect, then_effect. simpl.
  rewrite union_empty_l_L. reflexivity.
Qed.

(** The loop on candidates whose frames all load and whose files can all be
    written: it processes exactly the pairs of [sampled]. *)
Lemma for_each_sampled im l :
  forall st w,
    image (img st) = im ->
    Forall (frame_ok (fs w) im output_dir) (sampled max_frames (extracted st) l) ->
    exists st',
      for_each (loop_body pil_encode max_frames output_dir) l st w =
        (Return st',
         apply_effect
           (frames_effect pil_encode im output_dir (sampled max_frames (extracted st) l)) w)
      /\ extracted st' =
           extracted st + Z.of_nat (length (sampled max_frames (extracted st) l))
      /\ image (img st') = im.
Proof.
  induction l as [|i l IH]; intros st w Him Hdec; simpl.
  - exists st. unfold mret, M_ret. fold no_effect.
    change (frames_effect pil_encode im output_dir []) with no_effect.
    rewrite apply_no_effect. split; [reflexivity | split; [lia | assumption]].
  - simpl in Hdec. destruct (Z.geb_spec (extracted st) max_frames) as [Hge|Hlt].
    + exists st. unfold mbind, M_bind. rewrite loop_body_break by lia.
      change (frames_effect pil_encode im output_dir []) with no_effect.
      rewrite apply_no_effect. split; [reflexivity | split; [simpl; lia | assumption]].
    + inversion Hdec as [|? ? [[px Hpx] Hsave] Hrest]; subst. simpl in Hpx, Hsave.
      unfold raster in Hpx.
      destruct (frame_at (image (img st)) i) as [f|] eqn:Hf; [|discriminate].
      simpl in Hpx.
      unfold mbind, M_bind.
      rewrite (loop_body_frame i st w f px) by assumption.
      set (st1 := {| extracted := extracted st + 1;
                     img := {| image := image (img st); active := f |} |}).
      destruct (IH st1 (apply_effect
                  (frames_effect pil_encode (image (img st)) output_dir
                     [(extracted st, i)]) w)) as (st' & Hrun & Hext & Him').
      { reflexivity. }
      { eapply Forall_impl; [exact Hrest|].
        intros ki [Hr Hs]. split; [exact Hr|].
        rewrite can_save_apply_writes by reflexivity. exact Hs. }
      exists st'. subst st1. simpl in Hext.
      rewrite (frames_effect_cons _ _ (sampled max_frames (extracted st + 1) l)).
      rewrite apply_then_effect.
      split; [exact Hrun | split; [simpl; lia | assumption]].
Qed.

(** The loop reads the filesystem only to know which frame files can be
    written. *)
Lemma loop_trace_agree f f' im l :
  (forall k i d, can_save f (OsPath.join output_dir (frame_name k i d)) =
                 can_save f' (OsPath.join output_dir (frame_name k i d))) ->
  forall e, loop_trace f im output_dir max_frames e l =
            loop_trace f' im output_dir max_frames e l.
Proof.
  intros Hsame. induction l as [|i l IH]; intros e; simpl; [reflexivity|].
  unfold saved_path. rewrite IH, Hsame. reflexivity.
Qed.

Lemma loop_trace_same f f' im l :
  dirs f = dirs f' -> refused f = refused f' ->
  forall e, loop_trace f im output_dir max_frames e l =
            loop_trace f' im output_dir max_frames e l.
Proof.
  intros Hd Hr. apply loop_trace_agree. intros k i d.
  apply can_save_same; assumption.
Qed.

(** The loop goes as [loop_trace] tells. *)
Lemma for_each_trace im l :
  forall st w,
    image (img st) = im ->
    exists st',
      for_each (loop_body pil_encode max_frames output_dir) l st w =
        (match (loop_trace (fs w) im output_dir max_frames (extracted st) l).2 with
         | None => Return st'
         | Some (e, _) => Raise e
         end,
         apply_effect
           (trace_effect pil_encode im output_dir
              (loop_trace (fs w) im output_dir max_frames (extracted st) l)) w)
      /\ extracted st' =
           extracted st +
           Z.of_nat (length (loop_trace (fs w) im output_dir max_frames (extracted st) l).1)
      /\ image (img st') = im.
Proof.
  assert (Hnil : forall w evs,
            apply_effect
              (then_effect (frames_effect pil_encode im output_dir [])
                 {| e_dirs := ∅; e_writes := []; e_out := []; e_calls := evs |}) w =
            apply_effect {| e_dirs := ∅; e_writes := []; e_out := []; e_calls := evs |} w).
  { intros w evs. rewrite apply_then_effect.
    change (frames_effect pil_encode im output_dir []) with no_effect.
    rewrite apply_no_effect. reflexivity. }
  induction l as [|i l IH]; intros st w Him; simpl.
  - exists st. unfold mret, M_ret, trace_effect. simpl. rewrite Hnil.
    fold no_effect. rewrite apply_no_effect.
    split; [reflexivity | split; [lia | assumption]].
  - destruct (Z.geb_spec (extracted st) max_frames) as [Hge|Hlt].
    { exists st. unfold mbind, M_bind. rewrite loop_body_break by lia.
      unfold trace_effect. simpl. rewrite Hnil. fold no_effect. rewrite apply_no_effect.
      split; [reflexivity | split; [lia | assumption]]. }
    subst im.
    destruct (frame_at (image (img st)) i) as [f|] eqn:Hf.
    2:{ exists st. unfold trace_effect. simpl. rewrite Hnil.
        rewrite (bind_raise _ _ _ _ _ (loop_body_seek_error i st w Hlt Hf)).
        split; [reflexivity | split; [lia | reflexivity]]. }
    destruct (pixels f) as [px|] eqn:Hpx.
    2:{ exists st. unfold trace_effect. simpl. rewrite Hnil.
        rewrite (bind_raise _ _ _ _ _ (loop_body_convert_error i st w f Hlt Hf Hpx)).
        split; [reflexivity | split; [lia | reflexivity]]. }
    destruct (can_save (fs w) (saved_path (image (img st)) output_dir (extracted st) i))
      eqn:Hsave.
    2:{ exists st. unfold trace_effect. simpl. rewrite Hnil.
        rewrite (bind_raise _ _ _ _ _ (loop_body_save_error i st w f px Hlt Hf Hpx Hsave)).
        split; [reflexivity | split; [lia | reflexivity]]. }
    rewrite (bind_return _ _ _ _ _ (loop_body_frame i st w f px Hlt Hf Hpx Hsave)).
    cbv beta iota.
    set (st1 := {| extracted := extracted st + 1;
                   img := {| image := image (img st); active := f |} |}).
    set (w1 := apply_effect
                 (frames_effect pil_encode (image (img st)) output_dir
                    [(extracted st, i)]) w).
    destruct (IH st1 w1 eq_refl) as (st' & Hrun & Hext & Him').
    assert (Hsame : loop_trace (fs w1) (image (img st)) output_dir max_frames
                      (extracted st1) l =
                    loop_trace (fs w) (image (img st)) output_dir max_frames
                      (extracted st + 1) l).
    { apply loop_trace_same; subst w1; simpl; [apply union_empty_l_L | reflexivity]. }
    rewrite Hsame in Hrun, Hext.
    exists st'. split; [|split; [simpl in Hext |- *; lia | assumption]].
    rewrite Hrun. f_equal. subst w1. unfold trace_effect. cbn [fst snd].
    rewrite (frames_effect_cons (image (img st)) (extracted st, i)
               (loop_trace (fs w) (image (img st)) output_dir max_frames
                  (extracted st + 1) l).1).
    rewrite !apply_then_effect. reflexivity.
Qed.

(** The pairs processed are the first of [sampled]; all of them when no
    iteration raises. *)
Lemma loop_trace_sampled f im l :
  forall e,
    Forall (frame_ok f im output_dir) (loop_trace f im output_dir max_frames e l).1
    /\ exists rest,
         sampled max_frames e l =
           ((loop_trace f im output_dir max_frames e l).1 ++ rest)%list
         /\ match (loop_trace f im output_dir max_frames e l).2 with
            | None => rest = []
            | Some _ => exists ki, head rest = Some ki /\ ~ frame_ok f im output_dir ki
            end.
Proof.
  induction l as [|i l IH]; intros e; simpl.
  - split; [constructor | exists []; split; reflexivity].
  - destruct (e >=? max_frames); [split; [constructor | exists []; split; reflexivity]|].
    assert (Hbad : forall P : Prop,
              (frame_ok f im output_dir (e, i) -> False) ->
              Forall (frame_ok f im output_dir) [] /\
              exists rest,
                (e, i) :: sampled max_frames (e + 1) l = ([] ++ rest)%list
                /\ exists ki, head rest = Some ki /\ ~ frame_ok f im output_dir ki).
    { intros _ Hno. split; [constructor|]. eexists. split; [reflexivity|].
      exists (e, i). split; [reflexivity | exact Hno]. }
    destruct (frame_at im i) as [f0|] eqn:Hf.
    2:{ apply (Hbad True). intros [[? Hx] _]. unfold raster in Hx. simpl in Hx.
        rewrite Hf in Hx. discriminate Hx. }
    destruct (pixels f0) as [px|] eqn:Hpx.
    2:{ apply (Hbad True). intros [[? Hx] _]. unfold raster in Hx. simpl in Hx.
        rewrite Hf in Hx. simpl in Hx. rewrite Hpx in Hx. discriminate Hx. }
    destruct (can_save f (saved_path im output_dir e i)) eqn:Hsave.
    2:{ apply (Hbad True). intros [_ Hx]. simpl in Hx. rewrite Hsave in Hx.
        discriminate Hx. }
    destruct (IH (e + 1)) as (Hok & rest & Hs & Hend). cbn [fst snd].
    split.
    + constructor; [|exact Hok]. split; simpl; [|exact Hsave].
      unfold raster. rewrite Hf. simpl. rewrite Hpx. eauto.
    + exists rest. split; [rewrite Hs; reflexivity | exact Hend].
Qed.

(** The loop stops at the first sampled frame that does not load, or whose
    file cannot be written, after the frames before it are saved. *)
Lemma loop_trace_decode_error f im l :
  forall e kis k i rest,
    sampled max_frames e l = (kis ++ (k, i) :: rest)%list ->
    Forall (frame_ok f im output_dir) kis ->
    raster im i = None ->
    loop_trace f im output_dir max_frames e l =
    (kis, Some (DecodeError,
                EvSeek i :: match frame_at im i with
                            | Some _ => [EvConvert "RGBA"]
                            | None => []
                            end)).
Proof.
  induction l as [|i0 l IH]; intros e kis k i rest Hs Hok Hnone.
  - simpl in Hs. destruct kis; discriminate Hs.
  - simpl in Hs |- *. destruct (e >=? max_frames); [destruct kis; discriminate Hs|].
    destruct kis as [|ki kis].
    + simpl in Hs. injection Hs as _ <- _.
      unfold raster in Hnone.
      destruct (frame_at im i0) as [fr|]; [|reflexivity].
      simpl in Hnone. rewrite Hnone. reflexivity.
    + simpl in Hs. injection Hs as <- Hs.
      inversion Hok as [|? ? [[px Hpx] Hsave] Hrest]; subst.
      unfold raster in Hpx. simpl in Hpx, Hsave.
      destruct (frame_at im i0) as [fr|]; [|discriminate Hpx].
      simpl in Hpx. rewrite Hpx, Hsave.
      rewrite (IH (e + 1) kis k i rest Hs Hrest Hnone). reflexivity.
Qed.

Lemma loop_trace_save_error f im l :
  forall e kis k i rest,
    sampled max_frames e l = (kis ++ (k, i) :: rest)%list ->
    Forall (frame_ok f im output_dir) kis ->
    is_Some (raster im i) ->
    can_save f (saved_path im output_dir k i) = false ->
    loop_trace f im output_dir max_frames e l =
    (kis, Some (OSError,
                [EvSeek i; EvConvert "RGBA";
                 EvSaveFailed (saved_path im output_dir k i) "PNG"])).
Proof.
  induction l as [|i0 l IH]; intros e kis k i rest Hs Hok [px0 Hload] Hno.
  - simpl in Hs. destruct kis; discriminate Hs.
  - simpl in Hs |- *. destruct (e >=? max_frames); [destruct kis; discriminate Hs|].
    destruct kis as [|ki kis].
    + simpl in Hs. injection Hs as <- <- _.
      unfold raster in Hload.
      destruct (frame_at im i0) as [fr|]; [|discriminate Hload].
      simpl in Hload. rewrite Hload, Hno. reflexivity.
    + simpl in Hs. injection Hs as <- Hs.
      inversion Hok as [|? ? [[px Hpx] Hsave] Hrest]; subst.
      unfold raster in Hpx. simpl in Hpx, Hsave.
      destruct (frame_at im i0) as [fr|]; [|discriminate Hpx].
      simpl in Hpx. rewrite Hpx, Hsave.
      rewrite (IH (e + 1) kis k i rest Hs Hrest (ex_intro _ px0 Hload) Hno). reflexivity.
Qed.

End Loop.

Section Run.

Variable pil_open : string -> option Image.
Variable pil_encode : string -> Still -> string.

Lemma path_exists_file path data w :
  files (fs w) !! path = Some data -> path_exists path w = (Return true, w).
Proof.
  intros H. unfold path_exists. rewrite H.
  rewrite (bool_decide_eq_true_2 (is_Some (Some data))) by eauto.
  rewrite orb_true_r. reflexivity.
Qed.

Lemma path_exists_absent path w :
  path ∉ dirs (fs w) -> files (fs w) !! path = None ->
  path_exists path w = (Return false, w).
Proof.
  intros Hd Hf. unfold path_exists. rewrite Hf.
  rewrite (bool_decide_eq_false_2 _ Hd).
  rewrite (bool_decide_eq_false_2 (is_Some None)) by (intros [? ?]; discriminate).
  reflexivity.
Qed.

Lemma image_open_ok path data im w :
  files (fs w) !! path = Some data -> pil_open data = Some im ->
  image_open pil_open path w =
  (Return {| image := im; active := first_frame im |},
   {| fs := fs w; stdout := stdout w; calls := calls w ++ [EvOpen path] |}).
Proof. intros Hf Ho. unfold image_open. rewrite Hf, Ho. reflexivity. Qed.

(** A run on an animated container whose sampled frames all decode. *)
Lemma extract_frames_returns gif_path max_frames skip output_dir w data im s l :
  files (fs w) !! gif_path = Some data ->
  pil_open data = Some im ->
  default 1 (n_frames_attr im) <> 1 ->
  resolve_skip (default 1 (n_frames_attr im)) max_frames skip = Some s ->
  Py.range 0 (default 1 (n_frames_attr im)) s = Some l ->
  can_makedirs (fs w) (resolve_output_dir gif_path output_dir) = true ->
  Forall (frame_ok (fs w) im (resolve_output_dir gif_path output_dir))
         (sampled max_frames 0 l) ->
  extract_frames pil_open pil_encode gif_path max_frames skip output_dir w =
  (Return (resolve_output_dir gif_path output_dir,
           Z.of_nat (length (sampled max_frames 0 l))),
   apply_effect
     (run_effect pil_encode im gif_path (default 1 (n_frames_attr im)) s
        (resolve_output_dir gif_path output_dir) (sampled max_frames 0 l)) w).
Proof.
  intros Hfile Hopen Hanim Hskip Hrange Hmk Hdec.
  unfold extract_frames.
  rewrite (bind_return _ _ _ _ _ (path_exists_file _ _ _ Hfile)). cbv beta. unfold negb. cbv iota.
  rewrite (bind_return _ _ _ _ _ (image_open_ok _ _ _ _ Hfile Hopen)). cbv beta. cbn [image].
  rewrite (proj2 (Z.eqb_neq _ 1) Hanim).
  rewrite Hskip. unfold or_raise.
  set (od := resolve_output_dir gif_path output_dir) in *.
  set (total := default 1 (n_frames_attr im)) in *.
  erewrite bind_return by reflexivity. cbv beta.
  erewrite bind_return by (apply makedirs_ok; exact Hmk). cbv beta.
  repeat (erewrite bind_return by reflexivity; cbv beta).
  rewrite Hrange.
  erewrite bind_return by reflexivity. cbv beta.
  cbn [fs stdout calls dirs files refused].
  set (st0 := {| extracted := 0; img := {| image := im; active := first_frame im |} |}).
  match goal with |- (_ ≫= _) ?x = _ => set (w1 := x) end.
  assert (Hdec1 : Forall (frame_ok (fs w1) im od) (sampled max_frames (extracted st0) l)).
  { eapply Forall_impl; [exact Hdec|]. intros ki Hki. apply frame_ok_made. exact Hki. }
  destruct (for_each_sampled pil_encode max_frames od im l st0 w1 eq_refl Hdec1)
    as (st' & Hloop & Hext & _).
  rewrite (bind_return _ _ _ _ _ Hloop). cbv beta.
  erewrite bind_return by reflexivity. cbv beta.
  unfold mret, M_ret. rewrite Hext. simpl extracted.
  rewrite Z.add_0_l. f_equal.
  unfold apply_effect, run_effect, banner. subst w1. cbn [fs stdout calls dirs files
    refused e_dirs e_writes e_out e_calls frames_effect].
  rewrite union_empty_l_L, app_nil_r, <- !app_assoc. reflexivity.
Qed.

End Run.

(** ** The decimal fields of a file name *)

Lemma all_digits_app a b :
  all_digits (a +:+ b) = all_digits a && all_digits b.
Proof.
  induction a as [|c a IH]; simpl; [reflexivity|].
  rewrite IH, andb_assoc. reflexivity.
Qed.

Lemma all_digits_zeros n : all_digits (Py.zeros n) = true.
Proof. induction n; simpl; auto. Qed.

Lemma all_digits_of_uint u : all_digits (NilEmpty.string_of_uint u) = true.
Proof. induction u; simpl; auto. Qed.

Lemma string_of_uint_nonnil u :
  u <> Decimal.Nil -> NilZero.string_of_uint u = NilEmpty.string_of_uint u.
Proof. destruct u; [congruence | reflexivity ..]. Qed.

Lemma str_nonneg_uint k :
  0 <= k ->
  exists u, NilEmpty.uint_of_string (Py.str k) = Some u /\ Z.of_uint u = k /\
            Py.str k = NilEmpty.string_of_uint u /\ u <> Decimal.Nil.
Proof.
  intros Hk. unfold Py.str.
  pose proof (DecimalZ.of_to k) as Hk'.
  destruct (Z.to_int k) as [u|u] eqn:Hu.
  - simpl in Hk'. simpl NilZero.string_of_int.
    assert (u = Decimal.Nil \/ u <> Decimal.Nil) as [->|Hnil]
      by (destruct u; [left; reflexivity | right; discriminate ..]).
    + exists (Decimal.D0 Decimal.Nil). simpl.
      repeat split; [exact Hk' | discriminate].
    + exists u. rewrite string_of_uint_nonnil by assumption.
      rewrite NilEmpty.usu. repeat split; assumption.
  - destruct k; simpl in Hu; try discriminate. lia.
Qed.

Lemma all_digits_str k : 0 <= k -> all_digits (Py.str k) = true.
Proof.
  intros Hk. destruct (str_nonneg_uint k Hk) as (u & _ & _ & -> & _).
  apply all_digits_of_uint.
Qed.

Lemma str_nonempty k : 0 <= k -> Py.str k <> "".
Proof.
  intros Hk. destruct (str_nonneg_uint k Hk) as (u & _ & _ & -> & Hnil).
  destruct u; simpl; congruence.
Qed.

Lemma length_zeros n : String.length (Py.zeros n) = n.
Proof. induction n; simpl; auto. Qed.

Lemma length_zfill width digits :
  String.length (Py.zfill width digits) = Nat.max width (String.length digits).
Proof. unfold Py.zfill. rewrite string_length_app, length_zeros. lia. Qed.

Lemma format_03d_nonneg k : 0 <= k -> Py.format_03d k = Py.zfill 3 (Py.str k).
Proof.
  intros Hk. unfold Py.format_03d.
  rewrite (proj2 (Z.ltb_ge k 0)) by lia. reflexivity.
Qed.

Lemma all_digits_format_03d k : 0 <= k -> all_digits (Py.format_03d k) = true.
Proof.
  intros Hk. rewrite format_03d_nonneg by assumption. unfold Py.zfill.
  rewrite all_digits_app, all_digits_zeros, all_digits_str by assumption.
  reflexivity.
Qed.

Lemma uint_of_zeros n s :
  NilEmpty.uint_of_string (Py.zeros n +:+ s) =
  Nat.iter n Decimal.D0 <$> NilEmpty.uint_of_string s.
Proof.
  induction n as [|n IH].
  - change (Py.zeros 0 +:+ s) with s.
    destruct (NilEmpty.uint_of_string s); reflexivity.
  - change (Py.zeros (S n) +:+ s) with (String "0" (Py.zeros n +:+ s)).
    simpl NilEmpty.uint_of_string. rewrite IH.
    destruct (NilEmpty.uint_of_string s); reflexivity.
Qed.

Lemma of_uint_zeros n u : Z.of_uint (Nat.iter n Decimal.D0 u) = Z.of_uint u.
Proof. induction n as [|n IH]; simpl; [reflexivity | exact IH]. Qed.

Lemma int_of_digits s :
  all_digits s = true -> s <> "" ->
  NilZero.int_of_string s = Decimal.Pos <$> NilEmpty.uint_of_string s.
Proof.
  intros Hd Hne. destruct s as [|a s]; [congruence|].
  simpl in Hd. apply andb_true_iff in Hd as [Ha _].
  unfold NilZero.int_of_string.
  destruct (Ascii.eqb_spec a "-") as [->|_]; [discriminate Ha | reflexivity].
Qed.

(** The sequence field reads back as the sequence index. *)
Lemma parse_seq_format_03d k : 0 <= k -> parse_seq (Py.format_03d k) = Some k.
Proof.
  intros Hk. unfold parse_seq.
  rewrite int_of_digits.
  - rewrite format_03d_nonneg by assumption. unfold Py.zfill.
    rewrite uint_of_zeros.
    destruct (str_nonneg_uint k Hk) as (u & -> & Hu & _). simpl.
    f_equal. unfold Z.of_int. rewrite of_uint_zeros. exact Hu.
  - apply all_digits_format_03d; assumption.
  - rewrite format_03d_nonneg by assumption. unfold Py.zfill.
    intros Habs. apply (f_equal String.length) in Habs.
    rewrite string_length_app in Habs. simpl in Habs.
    pose proof (str_nonempty k Hk) as Hne.
    destruct (Py.str k); [congruence | simpl in Habs; lia].
Qed.

Lemma format_03d_inj k k' :
  0 <= k -> 0 <= k' -> Py.format_03d k = Py.format_03d k' -> k = k'.
Proof.
  intros Hk Hk' Heq.
  pose proof (parse_seq_format_03d k Hk) as H1.
  rewrite Heq, parse_seq_format_03d in H1 by assumption. congruence.
Qed.

Lemma length_format_03d k : (3 <= String.length (Py.format_03d k))%nat.
Proof.
  unfold Py.format_03d. destruct (k <? 0).
  - simpl. rewrite length_zfill. lia.
  - rewrite length_zfill. lia.
Qed.

(** A run of digits is delimited by the first character that is no digit. *)
Lemma digits_field_unique a :
  forall a' c r c' r',
    all_digits a = true -> all_digits a' = true ->
    is_digit c = false -> is_digit c' = false ->
    a +:+ String c r = a' +:+ String c' r' -> a = a'.
Proof.
  induction a as [|x a IH]; intros a' c r c' r' Ha Ha' Hc Hc' Heq.
  - destruct a' as [|x' a']; [reflexivity|]. simpl in *.
    injection Heq as -> _. apply andb_true_iff in Ha' as [Hx _]. congruence.
  - destruct a' as [|x' a']; simpl in *.
    + injection Heq as -> _. apply andb_true_iff in Ha as [Hx _]. congruence.
    + injection Heq as -> Heq.
      apply andb_true_iff in Ha as [_ Ha]. apply andb_true_iff in Ha' as [_ Ha'].
      f_equal. apply (IH a' c r c' r'); assumption.
Qed.

Lemma append_cancel_l pre x y : pre +:+ x = pre +:+ y -> x = y.
Proof.
  induction pre as [|c pre IH]; simpl; [auto|].
  intros [= H]. auto.
Qed.

Lemma frame_name_inj k i d k' i' d' :
  0 <= k -> 0 <= k' -> frame_name k i d = frame_name k' i' d' -> k = k'.
Proof.
  intros Hk Hk' Heq. unfold frame_name in Heq.
  apply (append_cancel_l "frame_") in Heq.
  apply format_03d_inj; try assumption.
  simpl in Heq.
  eapply digits_field_unique; [| | | | exact Heq];
    auto using all_digits_format_03d.
Qed.

Lemma string_app_assoc a b c : (a +:+ b) +:+ c = a +:+ b +:+ c.
Proof.
  induction a as [|x a IH]; [reflexivity|].
  change (String x ((a +:+ b) +:+ c) = String x (a +:+ b +:+ c)).
  f_equal. exact IH.
Qed.

(** Joining the output directory with a frame name prepends a fixed prefix. *)
Lemma join_frame_name od :
  exists pre, forall k i d, OsPath.join od (frame_name k i d) = pre +:+ frame_name k i d.
Proof.
  exists (if (String.eqb od "" || Py.endswith_sep od)%bool then od else od +:+ "/").
  intros k i d. unfold OsPath.join.
  change (String.prefix "/" (frame_name k i d)) with false. cbv iota.
  destruct (String.eqb od "" || Py.endswith_sep od)%bool; [reflexivity|].
  symmetry. apply string_app_assoc.
Qed.

Lemma saved_path_inj im od k i k' i' :
  0 <= k -> 0 <= k' -> saved_path im od k i = saved_path im od k' i' -> k = k'.
Proof.
  intros Hk Hk' Heq. unfold saved_path in Heq.
  destruct (join_frame_name od) as [pre Hpre].
  rewrite !Hpre in Heq. apply append_cancel_l in Heq.
  eapply frame_name_inj; eassumption.
Qed.

(** ** Two runs on the same input *)

Lemma write_all_union ws :
  forall m : gmap string string,
    write_all ws m = list_to_map (reverse ws) ∪ m.
Proof.
  induction ws as [|[k v] ws IH]; intros m.
  - simpl. rewrite (left_id_L ∅ (∪)). reflexivity.
  - change (write_all ((k, v) :: ws) m) with (write_all ws (<[k:=v]> m)).
    rewrite IH, reverse_cons, list_to_map_app. simpl.
    rewrite insert_empty, <- (assoc_L (∪)), <- insert_union_singleton_l.
    reflexivity.
Qed.

Lemma write_all_twice ws (m : gmap string string) :
  write_all ws (write_all ws m) = write_all ws m.
Proof.
  rewrite !write_all_union, (assoc_L (∪)), (idemp_L (∪)). reflexivity.
Qed.

(** ** The counter along the loop *)

Section Counter.

Variable pil_encode : string -> Still -> string.
Variable max_frames : Z.
Variable output_dir : string.

(** An iteration breaks, or goes through and counts one more, or raises. *)
Lemma loop_body_cases i s w :
  (max_frames <= extracted s
   /\ loop_body pil_encode max_frames output_dir i s w = (Return (Break s), w))
  \/ (extracted s < max_frames
      /\ exists s' w',
           loop_body pil_encode max_frames output_dir i s w = (Return (Continue s'), w')
           /\ extracted s' = extracted s + 1)
  \/ (extracted s < max_frames
      /\ exists e w', loop_body pil_encode max_frames output_dir i s w = (Raise e, w')).
Proof.
  destruct (Z.le_gt_cases max_frames (extracted s)) as [Hge|Hlt].
  { left. split; [exact Hge | apply loop_body_break; exact Hge]. }
  right.
  destruct (frame_at (image (img s)) i) as [f|] eqn:Hf.
  2:{ right. split; [exact Hlt|]. eexists _, _. apply loop_body_seek_error; assumption. }
  destruct (pixels f) as [px|] eqn:Hpx.
  2:{ right. split; [exact Hlt|]. eexists _, _.
      apply (loop_body_convert_error _ _ _ i s w f); assumption. }
  destruct (can_save (fs w) (saved_path (image (img s)) output_dir (extracted s) i))
    eqn:Hsave.
  - left. split; [exact Hlt|]. eexists _, _. split.
    + apply (loop_body_frame _ _ _ i s w f px); assumption.
    + reflexivity.
  - right. split; [exact Hlt|]. eexists _, _.
    apply (loop_body_save_error _ _ _ i s w f px); assumption.
Qed.

Lemma loop_body_continue i s w s' w' :
  loop_body pil_encode max_frames output_dir i s w = (Return (Continue s'), w') ->
  extracted s < max_frames /\ extracted s' = extracted s + 1.
Proof.
  intros H.
  destruct (loop_body_cases i s w)
    as [[_ Hb]|[(Hlt & s1 & w1 & Hb & Hs)|(_ & e & w1 & Hb)]];
    rewrite Hb in H; try discriminate H.
  injection H as <- _. split; assumption.
Qed.

Lemma loop_reach_bounds c c' :
  loop_reach (loop_body pil_encode max_frames output_dir) c c' ->
  extracted c.1.2 <= max_frames ->
  extracted c.1.2 <= extracted c'.1.2 <= max_frames.
Proof.
  induction 1 as [c | i l s w s' w' c Hstep Hreach IH]; intros Hle.
  - lia.
  - simpl in *. apply loop_body_continue in Hstep as [Hlt Heq].
    rewrite Heq in IH. lia.
Qed.

(** What the loop returns is the state of a reachable loop head, where the
    candidates are exhausted or the body breaks. *)
Lemma for_each_reach l :
  forall s w s' w',
    for_each (loop_body pil_encode max_frames output_dir) l s w = (Return s', w') ->
    exists l',
      loop_reach (loop_body pil_encode max_frames output_dir) (l, s, w) (l', s', w')
      /\ (l' = [] \/ max_frames <= extracted s').
Proof.
  induction l as [|i l IH]; intros s w s' w' H; simpl in H.
  - injection H as <- <-. exists []. split; [apply reach_here | left; reflexivity].
  - unfold mbind, M_bind in H.
    destruct (loop_body pil_encode max_frames output_dir i s w) as [[[s1|s1]|code|e] w1] eqn:Hb;
      try discriminate.
    + destruct (IH _ _ _ _ H) as (l' & Hreach & Hend).
      exists l'. split; [eapply reach_next; eassumption | exact Hend].
    + injection H as <- <-.
      destruct (loop_body_cases i s w)
        as [[Hge Hb']|[(_ & s2 & w2 & Hb' & _)|(_ & e & w2 & Hb')]];
        rewrite Hb' in Hb; try discriminate Hb.
      injection Hb as <- <-.
      exists (i :: l). split; [apply reach_here | right; assumption].
Qed.

End Counter.

(** ** The argument scanner *)

Section Scanner.

Variable py_int : string -> option Z.

Lemma arg_at_app pre l i : arg_at (pre ++ l) (length pre + i) = arg_at l i.
Proof.
  unfold arg_at. rewrite lookup_app_r by lia.
  replace (length pre + i - length pre)%nat with i by lia. reflexivity.
Qed.

(** Past the end of the arguments the scanner stops. *)
Lemma scan_args_end args i o :
  (length args <= i)%nat -> scan_args py_int args i o = Return o.
Proof.
  intros H. rewrite scan_args_equation_1. unfold scan_args_unfold_clause_1.
  destruct (decide (i < length args)%nat); [lia | reflexivity].
Qed.

(** A token that is not a recognized flag followed by a value is passed over:
    the index moves by one and nothing is assigned. *)
Lemma scan_args_skip args i o :
  (i < length args)%nat ->
  recognized (arg_at args i) && (i + 1 <? length args)%nat = false ->
  scan_args py_int args i o = scan_args py_int args (i + 1) o.
Proof.
  intros Hlt Hun. rewrite scan_args_equation_1 at 1.
  unfold scan_args_unfold_clause_1.
  destruct (decide (i < length args)%nat); [|lia].
  unfold recognized in Hun.
  destruct (i + 1 <? length args)%nat.
  - rewrite andb_true_r in Hun.
    apply orb_false_iff in Hun as [Hun H3]. apply orb_false_iff in Hun as [H1 H2].
    rewrite H1, H2, H3. reflexivity.
  - rewrite !andb_false_r. reflexivity.
Qed.

(** The scanner only looks at the tokens from its index on. *)
Lemma scan_args_shift pre l :
  forall n i o,
    (length l - i = n)%nat ->
    scan_args py_int (pre ++ l) (length pre + i) o = scan_args py_int l i o.
Proof.
  induction n as [n IH] using lt_wf_ind. intros i o Hn.
  rewrite (scan_args_equation_1 py_int (pre ++ l)), (scan_args_equation_1 py_int l).
  unfold scan_args_unfold_clause_1.
  destruct (decide (i < length l)%nat) as [Hlt|Hge];
    destruct (decide (length pre + i < length (pre ++ l))%nat) as [Hlt'|Hge'];
    rewrite ?length_app in *; try lia; [|reflexivity].
  rewrite arg_at_app.
  replace (length pre + i + 1)%nat with (length pre + (i + 1))%nat by lia.
  replace (length pre + i + 2)%nat with (length pre + (i + 2))%nat by lia.
  rewrite arg_at_app.
  replace (length pre + (i + 1) <? length pre + length l)%nat
    with (i + 1 <? length l)%nat
    by (destruct (Nat.ltb_spec (i + 1) (length l));
        destruct (Nat.ltb_spec (length pre + (i + 1)) (length pre + length l));
        reflexivity || lia).
  repeat match goal with
         | |- context [if ?b then _ else _] => destruct b
         end;
    try destruct (py_int (arg_at l (i + 1)));
    try reflexivity;
    (eapply IH; [|reflexivity]; lia).
Qed.

Lemma scan_args_drop args i o :
  (i <= length args)%nat ->
  scan_args py_int args i o = scan_args py_int (drop i args) 0 o.
Proof.
  intros Hi.
  rewrite <- (take_drop i args) at 1.
  rewrite <- (scan_args_shift (take i args) (drop i args) _ 0 o eq_refl).
  rewrite length_take. f_equal. lia.
Qed.

(** The scanner goes by [scan_step]. *)
Lemma scan_args_step args i o :
  (i < length args)%nat ->
  scan_args py_int args i o =
  match scan_step py_int args i o with
  | Some (i', o') => scan_args py_int args i' o'
  | None => Raise ValueError
  end.
Proof.
  intros Hlt. rewrite scan_args_equation_1 at 1.
  unfold scan_args_unfold_clause_1, scan_step.
  destruct (decide (i < length args)%nat); [|lia].
  repeat match goal with
         | |- context [if ?b then _ else _] => destruct b
         end;
    try destruct (py_int (arg_at args (i + 1))); reflexivity.
Qed.

Lemma scan_reaches_scan args i o :
  scan_reaches py_int args i o ->
  scan_args py_int args 0 default_options = scan_args py_int args i o.
Proof.
  induction 1 as [|i o i' o' _ IH Hlt Hstep]; [reflexivity|].
  rewrite IH, (scan_args_step args i o Hlt), Hstep. reflexivity.
Qed.

Lemma scan_step_bounds args i o i' o' :
  scan_step py_int args i o = Some (i', o') ->
  (i' = i + 1 \/ i' = i + 2 /\ recognized (arg_at args i) = true
                             /\ i + 1 < length args)%nat.
Proof.
  unfold scan_step, recognized.
  destruct (String.eqb (arg_at args i) "--max-frames") eqn:H1;
    destruct (String.eqb (arg_at args i) "--skip") eqn:H2;
    destruct (String.eqb (arg_at args i) "--output-dir") eqn:H3;
    destruct (Nat.ltb_spec (i + 1) (length args)); simpl;
    try destruct (py_int (arg_at args (i + 1))); simpl;
    intros Hs; try discriminate Hs; injection Hs as <- _;
    first [left; reflexivity | right; repeat split; assumption].
Qed.

(** A step that stays within the first [i] tokens is the same in any list
    that has these tokens first. *)
Lemma scan_step_prefix args args' i j o j' o' :
  (forall k, (k < i)%nat -> arg_at args' k = arg_at args k) ->
  (i <= length args')%nat -> (length args' <= length args)%nat ->
  (j < i)%nat -> (j' <= i)%nat ->
  scan_step py_int args j o = Some (j', o') ->
  scan_step py_int args' j o = Some (j', o').
Proof.
  intros Hpre Hlen Hle Hj Hj' Hstep.
  destruct (scan_step_bounds _ _ _ _ _ Hstep) as [->|(-> & Hrec & Hnext)].
  - unfold scan_step in *. rewrite (Hpre j) by lia.
    destruct (String.eqb (arg_at args j) "--max-frames") eqn:H1;
      destruct (String.eqb (arg_at args j) "--skip") eqn:H2;
      destruct (String.eqb (arg_at args j) "--output-dir") eqn:H3;
      destruct (Nat.ltb_spec (j + 1) (length args));
      destruct (Nat.ltb_spec (j + 1) (length args')); simpl in *;
      try destruct (py_int (arg_at args (j + 1))); simpl in *;
      try discriminate Hstep;
      try (injection Hstep as Hidx _; lia);
      try exact Hstep.
    all: exfalso; lia.
  - unfold scan_step in *. rewrite (Hpre j), (Hpre (j + 1)%nat) by lia.
    rewrite (proj2 (Nat.ltb_lt (j + 1) (length args'))) by lia.
    rewrite (proj2 (Nat.ltb_lt (j + 1) (length args))) in Hstep by lia.
    exact Hstep.
Qed.

Lemma scan_reaches_prefix args args' i :
  (forall k, (k < i)%nat -> arg_at args' k = arg_at args k) ->
  (i <= length args')%nat -> (length args' <= length args)%nat ->
  forall j o, scan_reaches py_int args j o -> (j <= i)%nat ->
              scan_reaches py_int args' j o.
Proof.
  intros Hpre Hlen Hle j o Hreach.
  induction Hreach as [|j o j' o' _ IH Hlt Hstep]; intros Hj; [constructor|].
  assert (Hlt' : (j < j')%nat)
    by (destruct (scan_step_bounds _ _ _ _ _ Hstep) as [->|(-> & _)]; lia).
  eapply scan_next.
  - apply IH. lia.
  - lia.
  - eapply scan_step_prefix; try eassumption. lia.
Qed.

Lemma arg_at_delete_lt args i k :
  (k < i)%nat -> arg_at (delete i args) k = arg_at args k.
Proof. intros H. unfold arg_at. rewrite list_lookup_delete_lt by exact H. reflexivity. Qed.

Lemma drop_delete {A} (l : list A) : forall i, drop i (delete i l) = drop (S i) l.
Proof.
  induction l as [|x l IH]; intros i.
  - destruct i; reflexivity.
  - destruct i as [|i]; simpl; [reflexivity | apply IH].
Qed.

(** Taking out a token the scanner passes over leaves the scan as it is. *)
Lemma scan_args_delete args i o :
  scan_reaches py_int args i o ->
  (i < length args)%nat ->
  recognized (arg_at args i) && (i + 1 <? length args)%nat = false ->
  scan_args py_int args 0 default_options =
  scan_args py_int (delete i args) 0 default_options.
Proof.
  intros Hreach Hlt Hun.
  assert (Hlen : length (delete i args) = (length args - 1)%nat).
  { apply length_delete. apply lookup_lt_is_Some. exact Hlt. }
  rewrite (scan_reaches_scan args i o Hreach).
  rewrite (scan_args_skip args i o Hlt Hun).
  rewrite (scan_args_drop args (i + 1) o) by lia.
  assert (Hreach' : scan_reaches py_int (delete i args) i o).
  { apply (scan_reaches_prefix args (delete i args) i); [|lia|lia|exact Hreach|lia].
    intros k Hk. apply arg_at_delete_lt. exact Hk. }
  rewrite (scan_reaches_scan _ i o Hreach').
  rewrite (scan_args_drop (delete i args) i o) by lia.
  rewrite drop_delete. replace (i + 1)%nat with (S i) by lia. reflexivity.
Qed.

End Scanner.

(** ** Successful runs *)

Lemma saves_frame_calls pil_encode im od kis :
  saves (flat_map (frame_calls pil_encode im od) kis) =
  map (fun ki => (saved_path im od ki.1 ki.2, saved_data pil_encode im ki.2)) kis.
Proof.
  induction kis as [|ki kis IH]; [reflexivity|].
  simpl. unfold saves in *. simpl. rewrite IH. reflexivity.
Qed.

Lemma write_all_lookup_nodup ws (m : gmap string string) k v :
  NoDup ws.*1 -> (k, v) ∈ ws -> write_all ws m !! k = Some v.
Proof.
  intros Hnd Hin. rewrite write_all_union.
  apply lookup_union_Some_l, elem_of_list_to_map_1.
  - rewrite fmap_reverse, reverse_Permutation. exact Hnd.
  - apply elem_of_reverse. exact Hin.
Qed.

Lemma flat_map_fmap {A B C} (f : B -> list C) (g : A -> B) (l : list A) :
  flat_map f (g <$> l) = flat_map (fun a => f (g a)) l.
Proof.
  induction l as [|a l IH]; [reflexivity|].
  rewrite fmap_cons. cbn [flat_map]. rewrite IH. reflexivity.
Qed.

(** The sampled source indices lie inside the container. *)
Lemma sampled_index_in_range total s max_frames k :
  0 < s -> 0 < total ->
  0 <= k < Z.min max_frames (ceil_div total s) -> 0 <= k * s < total.
Proof.
  intros Hs Ht Hk. pose proof (ceil_div_spec total s Hs) as Hc. nia.
Qed.

Section Sampling.

Variable pil_open : string -> option Image.
Variable pil_encode : string -> Still -> string.

(** A run on a well-formed animated container with a positive stride:
    what it returns and everything it does. *)
Lemma extract_frames_sampling gif_path max_frames skip output_dir w data im total s :
  files (fs w) !! gif_path = Some data ->
  pil_open data = Some im ->
  n_frames_attr im = Some total ->
  (forall i, 0 <= i < total -> is_Some (raster im i)) ->
  2 <= total -> 0 <= max_frames ->
  resolve_skip total max_frames skip = Some s -> 1 <= s ->
  can_makedirs (fs w) (resolve_output_dir gif_path output_dir) = true ->
  frames_writable (fs w) (resolve_output_dir gif_path output_dir) ->
  extract_frames pil_open pil_encode gif_path max_frames skip output_dir w =
  (Return (resolve_output_dir gif_path output_dir, Z.min max_frames (ceil_div total s)),
   apply_effect
     (run_effect pil_encode im gif_path total s
        (resolve_output_dir gif_path output_dir)
        ((fun k => (k, k * s)) <$> seqZ 0 (Z.min max_frames (ceil_div total s)))) w).
Proof.
  intros Hfile Hopen Htotal Hdec Ht Hm Hskip Hs Hmk Hwr.
  assert (Hdef : default 1 (n_frames_attr im) = total) by (rewrite Htotal; reflexivity).
  pose proof (ceil_div_spec total s ltac:(lia)) as Hc.
  assert (Hn : 0 <= Z.min max_frames (ceil_div total s)) by nia.
  set (l := map (fun k => Z.of_nat k * s) (seq 0 (Z.to_nat (ceil_div total s)))).
  assert (Hl : sampled max_frames 0 l =
               (fun k => (k, k * s)) <$> seqZ 0 (Z.min max_frames (ceil_div total s)))
    by (apply sampled_candidates; lia).
  rewrite (extract_frames_returns pil_open pil_encode gif_path max_frames skip
             output_dir w data im s l Hfile Hopen); rewrite ?Hdef.
  - rewrite Hl, length_fmap, length_seqZ, Z2Nat.id by assumption. reflexivity.
  - lia.
  - exact Hskip.
  - apply range_up; lia.
  - exact Hmk.
  - rewrite Hl.
    apply Forall_fmap, Forall_forall. intros k Hk.
    apply elem_of_seqZ in Hk. split; simpl.
    + apply Hdec. apply (sampled_index_in_range total s max_frames); lia.
    + apply Hwr.
Qed.

End Sampling.

Lemma saved_paths_nodup pil_encode im od s n :
  NoDup (map (fun ki => (saved_path im od ki.1 ki.2, saved_data pil_encode im ki.2))
             ((fun k => (k, k * s)) <$> seqZ 0 n)).*1.
Proof.
  change (NoDup (fst <$> ((fun ki : Z * Z =>
            (saved_path im od ki.1 ki.2, saved_data pil_encode im ki.2)) <$>
            ((fun k => (k, k * s)) <$> seqZ 0 n)))).
  rewrite <- !list_fmap_compose.
  apply NoDup_fmap_2_strong; [|apply NoDup_seqZ].
  intros k k' Hk Hk' Heq. simpl in Heq.
  apply elem_of_seqZ in Hk, Hk'.
  apply (saved_path_inj im od k (k * s) k' (k' * s)); [lia | lia | exact Heq].
Qed.

(** Every frame of a file of the small decoder decodes. *)
Lemma toy_frames_decode data i :
  0 <= i < Z.of_nat (String.length data) -> is_Some (toy_frame data i ≫= pixels).
Proof.
  intros Hi. unfold toy_frame.
  rewrite (proj2 (Z.leb_le 0 i)), (proj2 (Z.ltb_lt i _)) by lia.
  simpl. eauto.
Qed.

(** In a world without directories and without refusals every frame file
    can be written. *)
Lemma frames_writable_free f od :
  dirs f = ∅ -> refused f = ∅ -> frames_writable f od.
Proof.
  intros Hd Hr k i d. unfold can_save. rewrite Hd, Hr.
  rewrite !bool_decide_eq_true_2 by apply not_elem_of_empty. reflexivity.
Qed.

(** The process runs [extract_frames] on the scanned options and exits
    with the status of its outcome. *)
Lemma run_script_extract pil_open pil_encode py_int prog gif_path args o w :
  scan_args py_int args 0 default_options = Return o ->
  run_script pil_open pil_encode py_int (prog :: gif_path :: args) w =
  (exit_status
     (extract_frames pil_open pil_encode gif_path (opt_max_frames o) (opt_skip o)
        (opt_output_dir o) w).1,
   (extract_frames pil_open pil_encode gif_path (opt_max_frames o) (opt_skip o)
      (opt_output_dir o) w).2).
Proof.
  intros Hscan. unfold run_script, main.
  change (length (prog :: gif_path :: args) <? 2)%nat with false. cbv iota.
  change (drop 2 (prog :: gif_path :: args)) with args.
  change (arg_at (prog :: gif_path :: args) 1) with gif_path.
  rewrite Hscan. unfold lift_outcome, mbind, M_bind, mret, M_ret.
  destruct (extract_frames pil_open pil_encode gif_path (opt_max_frames o)
              (opt_skip o) (opt_output_dir o) w) as [[a|code|e] w']; reflexivity.
Qed.

Lemma bind_inv_return {A B} (m : M A) (k : A -> M B) w b w' :
  (m ≫= k) w = (Return b, w') ->
  exists a w0, m w = (Return a, w0) /\ k a w0 = (Return b, w').
Proof.
  unfold mbind, M_bind. destruct (m w) as [[a|code|e] w0]; intros H;
    try discriminate.
  exists a, w0. split; [reflexivity | exact H].
Qed.

Lemma write_all_lookup_written ws (m : gmap string string) k v :
  (k, v) ∈ ws -> is_Some (write_all ws m !! k).
Proof.
  intros Hin. rewrite write_all_union.
  apply lookup_union_is_Some. left.
  destruct (list_to_map (reverse ws) !! k) as [x|] eqn:Hl; [eauto|].
  apply not_elem_of_list_to_map in Hl. exfalso. apply Hl.
  rewrite fmap_reverse, elem_of_reverse.
  apply (list_elem_of_fmap_2 fst) in Hin. exact Hin.
Qed.

Lemma write_all_lookup_other ws (m : gmap string string) k :
  k ∉ ws.*1 -> write_all ws m !! k = m !! k.
Proof.
  intros Hk. rewrite write_all_union.
  apply lookup_union_r, not_elem_of_list_to_map.
  rewrite fmap_reverse, elem_of_reverse. exact Hk.
Qed.

Lemma write_all_lookup_kept ws (m : gmap string string) k :
  is_Some (m !! k) -> is_Some (write_all ws m !! k).
Proof.
  intros Hk. rewrite write_all_union. apply lookup_union_is_Some. right. exact Hk.
Qed.

(** ** Every way a run goes *)

Lemma saves_last_calls f im od max_frames l :
  forall e, saves (last_calls (loop_trace f im od max_frames e l).2) = [].
Proof.
  induction l as [|i l IH]; intros e; simpl; [reflexivity|].
  destruct (e >=? max_frames); [reflexivity|].
  destruct (frame_at im i) as [fr|]; [|reflexivity].
  destruct (pixels fr); [|reflexivity].
  destruct (can_save f (saved_path im od e i)); [apply IH | reflexivity].
Qed.

Lemma can_makedirs_nonempty f od : can_makedirs f od = true -> od <> "".
Proof.
  unfold can_makedirs. intros H Hod. subst od. discriminate H.
Qed.

(** A directory that is there with its parents can be made again. *)
Lemma can_makedirs_present f od :
  od <> "" -> made_dirs od ⊆ dirs f -> can_makedirs f od = true.
Proof.
  unfold can_makedirs. intros Hne Hsub.
  rewrite (proj2 (String.eqb_neq od "") Hne). simpl.
  apply forallb_forall. intros d Hd.
  rewrite bool_decide_eq_true_2; [reflexivity|].
  apply Hsub. unfold made_dirs. apply elem_of_list_to_set, list_elem_of_In. exact Hd.
Qed.

Lemma fs_with_made f od :
  made_dirs od ⊆ dirs f ->
  {| dirs := made_dirs od ∪ dirs f; files := files f; refused := refused f |} = f.
Proof.
  intros H. destruct f as [d fl rf]. simpl in *. f_equal.
  apply subseteq_union_1_L. exact H.
Qed.

Section Cases.

Variable pil_open : string -> option Image.
Variable pil_encode : string -> Still -> string.
Variable gif_path : string.
Variable max_frames : Z.
Variable skip : option Z.
Variable output_dir : option string.

(** The input path is neither a file nor a directory. *)
Lemma run_missing w :
  gif_path ∉ dirs (fs w) -> files (fs w) !! gif_path = None ->
  extract_frames pil_open pil_encode gif_path max_frames skip output_dir w =
  (SysExit 1,
   {| fs := fs w;
      stdout := stdout w ++ ["Error: File not found: " +:+ gif_path];
      calls := calls w |}).
Proof.
  intros Hd Hf. unfold extract_frames.
  rewrite (bind_return _ _ _ _ _ (path_exists_absent _ _ Hd Hf)). reflexivity.
Qed.

(** The input path exists and is not an image the decoder opens. *)
Lemma run_unreadable w :
  gif_path ∈ dirs (fs w) \/ is_Some (files (fs w) !! gif_path) ->
  files (fs w) !! gif_path ≫= pil_open = None ->
  extract_frames pil_open pil_encode gif_path max_frames skip output_dir w =
  (Raise DecodeError, opened gif_path w).
Proof.
  intros Hex Hno. unfold extract_frames.
  assert (Hpe : path_exists gif_path w = (Return true, w)).
  { unfold path_exists. destruct Hex as [H|H].
    - rewrite (bool_decide_eq_true_2 _ H). reflexivity.
    - rewrite (bool_decide_eq_true_2 _ H), orb_true_r. reflexivity. }
  rewrite (bind_return _ _ _ _ _ Hpe). cbv beta. unfold negb. cbv iota.
  apply bind_raise. unfold image_open, opened.
  destruct (files (fs w) !! gif_path) as [data|]; [simpl in Hno; rewrite Hno|]; reflexivity.
Qed.

Lemma run_single w data im :
  files (fs w) !! gif_path = Some data ->
  pil_open data = Some im ->
  default 1 (n_frames_attr im) = 1 ->
  extract_frames pil_open pil_encode gif_path max_frames skip output_dir w =
  (SysExit 1,
   {| fs := fs w;
      stdout := stdout w ++ ["Error: Not an animated GIF (only 1 frame)"];
      calls := calls w ++ [EvOpen gif_path] |}).
Proof.
  intros Hfile Hopen Hone. unfold extract_frames.
  rewrite (bind_return _ _ _ _ _ (path_exists_file _ _ _ Hfile)). cbv beta.
  unfold negb. cbv iota.
  rewrite (bind_return _ _ _ _ _ (image_open_ok _ _ _ _ _ Hfile Hopen)). cbv beta.
  cbn [image]. rewrite Hone. reflexivity.
Qed.

Lemma run_no_stride w data im :
  files (fs w) !! gif_path = Some data ->
  pil_open data = Some im ->
  default 1 (n_frames_attr im) <> 1 ->
  resolve_skip (default 1 (n_frames_attr im)) max_frames skip = None ->
  extract_frames pil_open pil_encode gif_path max_frames skip output_dir w =
  (Raise ZeroDivisionError, opened gif_path w).
Proof.
  intros Hfile Hopen Hanim Hskip. unfold extract_frames.
  rewrite (bind_return _ _ _ _ _ (path_exists_file _ _ _ Hfile)). cbv beta.
  unfold negb. cbv iota.
  rewrite (bind_return _ _ _ _ _ (image_open_ok _ _ _ _ _ Hfile Hopen)). cbv beta.
  cbn [image]. rewrite (proj2 (Z.eqb_neq _ 1) Hanim).
  rewrite Hskip. reflexivity.
Qed.

(** [makedirs] raises: the run ends there. *)
Lemma run_makedirs_raises w data im s e w' :
  files (fs w) !! gif_path = Some data ->
  pil_open data = Some im ->
  default 1 (n_frames_attr im) <> 1 ->
  resolve_skip (default 1 (n_frames_attr im)) max_frames skip = Some s ->
  makedirs (resolve_output_dir gif_path output_dir) (opened gif_path w) = (Raise e, w') ->
  extract_frames pil_open pil_encode gif_path max_frames skip output_dir w = (Raise e, w').
Proof.
  intros Hfile Hopen Hanim Hskip Hmk. unfold extract_frames.
  rewrite (bind_return _ _ _ _ _ (path_exists_file _ _ _ Hfile)). cbv beta.
  unfold negb. cbv iota.
  rewrite (bind_return _ _ _ _ _ (image_open_ok _ _ _ _ _ Hfile Hopen)). cbv beta.
  cbn [image]. rewrite (proj2 (Z.eqb_neq _ 1) Hanim).
  rewrite Hskip. unfold or_raise at 1.
  erewrite bind_return by reflexivity. cbv beta.
  apply bind_raise. exact Hmk.
Qed.

(** Up to the loop: both checks passed, the stride resolved, the directory
    made. *)
Lemma extract_frames_prefix w data im s :
  files (fs w) !! gif_path = Some data ->
  pil_open data = Some im ->
  default 1 (n_frames_attr im) <> 1 ->
  resolve_skip (default 1 (n_frames_attr im)) max_frames skip = Some s ->
  can_makedirs (fs w) (resolve_output_dir gif_path output_dir) = true ->
  extract_frames pil_open pil_encode gif_path max_frames skip output_dir w =
  (candidates ← or_raise (Py.range 0 (default 1 (n_frames_attr im)) s) ValueError;
   st ← for_each (loop_body pil_encode max_frames (resolve_output_dir gif_path output_dir))
          candidates {| extracted := 0; img := {| image := im; active := first_frame im |} |};
   print (summary_line (extracted st) (resolve_output_dir gif_path output_dir));;
   mret (resolve_output_dir gif_path output_dir, extracted st))
    (before_loop gif_path (default 1 (n_frames_attr im)) s
       (resolve_output_dir gif_path output_dir) w).
Proof.
  intros Hfile Hopen Hanim Hskip Hmk.
  unfold extract_frames.
  rewrite (bind_return _ _ _ _ _ (path_exists_file _ _ _ Hfile)). cbv beta.
  unfold negb. cbv iota.
  rewrite (bind_return _ _ _ _ _ (image_open_ok _ _ _ _ _ Hfile Hopen)). cbv beta.
  cbn [image]. rewrite (proj2 (Z.eqb_neq _ 1) Hanim).
  rewrite Hskip. unfold or_raise at 1.
  erewrite bind_return by reflexivity. cbv beta.
  erewrite bind_return by (apply makedirs_ok; exact Hmk). cbv beta.
  repeat (erewrite bind_return by reflexivity; cbv beta).
  cbn [fs stdout calls dirs files refused]. unfold before_loop, banner, summary_line.
  rewrite <- !app_assoc. reflexivity.
Qed.

(** A stride of zero: [range] raises once the banner is printed. *)
Lemma run_zero_stride w data im s :
  files (fs w) !! gif_path = Some data ->
  pil_open data = Some im ->
  default 1 (n_frames_attr im) <> 1 ->
  resolve_skip (default 1 (n_frames_attr im)) max_frames skip = Some s ->
  can_makedirs (fs w) (resolve_output_dir gif_path output_dir) = true ->
  Py.range 0 (default 1 (n_frames_attr im)) s = None ->
  extract_frames pil_open pil_encode gif_path max_frames skip output_dir w =
  (Raise ValueError,
   before_loop gif_path (default 1 (n_frames_attr im)) s
     (resolve_output_dir gif_path output_dir) w).
Proof.
  intros Hfile Hopen Hanim Hskip Hmk Hrange.
  rewrite (extract_frames_prefix w data im s) by assumption.
  rewrite Hrange. reflexivity.
Qed.

(** The loop is entered: the run goes as [loop_trace] tells. *)
Lemma run_loop w data im s l :
  files (fs w) !! gif_path = Some data ->
  pil_open data = Some im ->
  default 1 (n_frames_attr im) <> 1 ->
  resolve_skip (default 1 (n_frames_attr im)) max_frames skip = Some s ->
  can_makedirs (fs w) (resolve_output_dir gif_path output_dir) = true ->
  Py.range 0 (default 1 (n_frames_attr im)) s = Some l ->
  let od := resolve_output_dir gif_path output_dir in
  let wb := before_loop gif_path (default 1 (n_frames_attr im)) s od w in
  let t := loop_trace (fs wb) im od max_frames 0 l in
  extract_frames pil_open pil_encode gif_path max_frames skip output_dir w =
  (match t.2 with
   | None => Return (od, Z.of_nat (length t.1))
   | Some (e, _) => Raise e
   end,
   after_loop pil_encode im od t wb).
Proof.
  intros Hfile Hopen Hanim Hskip Hmk Hrange od wb t.
  rewrite (extract_frames_prefix w data im s) by assumption.
  rewrite Hrange. unfold or_raise.
  erewrite bind_return by reflexivity. cbv beta.
  fold od. fold wb.
  destruct (for_each_trace pil_encode max_frames od im l
              {| extracted := 0; img := {| image := im; active := first_frame im |} |}
              wb eq_refl) as (st' & Hloop & Hext & _).
  cbn [extracted] in Hloop, Hext. fold t in Hloop, Hext.
  assert (Hw : apply_effect (trace_effect pil_encode im od t) wb =
               {| fs := fs (after_loop pil_encode im od t wb);
                  stdout := stdout wb;
                  calls := calls (after_loop pil_encode im od t wb) |}).
  { unfold apply_effect, trace_effect, then_effect, after_loop. simpl.
    rewrite !union_empty_l_L, !app_nil_r. reflexivity. }
  rewrite Hw in Hloop. clear Hw.
  unfold after_loop in *.
  destruct t.2 as [[e evs]|].
  - rewrite (bind_raise _ _ _ _ _ Hloop). simpl. rewrite app_nil_r. reflexivity.
  - rewrite (bind_return _ _ _ _ _ Hloop). cbv beta.
    unfold print, mbind, M_bind, mret, M_ret. simpl.
    rewrite Hext, Z.add_0_l. reflexivity.
Qed.

(** Running again in the world a run left, the input being what it was:
    the same end, the same lines, the same calls, nothing changed in the
    filesystem. *)
Lemma extract_frames_again w r w1 :
  extract_frames pil_open pil_encode gif_path max_frames skip output_dir w = (r, w1) ->
  same_input gif_path w w1 ->
  exists out new,
    stdout w1 = (stdout w ++ out)%list
    /\ calls w1 = (calls w ++ new)%list
    /\ extract_frames pil_open pil_encode gif_path max_frames skip output_dir w1 =
       (r, {| fs := fs w1; stdout := stdout w1 ++ out; calls := calls w1 ++ new |})
    /\ (forall path content,
          (path, content) ∈ saves new -> is_Some (files (fs w1) !! path)).
Proof.
  intros Hrun Hsame.
  set (od := resolve_output_dir gif_path output_dir).
  assert (Hnone : forall (m : gmap string string) path content,
            (path, content) ∈ @nil (string * string) -> is_Some (m !! path)).
  { intros m path content Hin. apply elem_of_nil in Hin. destruct Hin. }
  destruct (files (fs w) !! gif_path) as [data|] eqn:Hfile.
  2:{ destruct (decide (gif_path ∈ dirs (fs w))) as [Hd|Hd].
      - rewrite run_unreadable in Hrun by (first [left; exact Hd | rewrite Hfile; reflexivity]).
        injection Hrun as <- <-.
        exists [], [EvOpen gif_path]. simpl. rewrite app_nil_r.
        split; [reflexivity|]. split; [reflexivity|]. split; [|apply Hnone].
        rewrite run_unreadable by (first [left; exact Hd | simpl; rewrite Hfile; reflexivity]).
        reflexivity.
      - rewrite run_missing in Hrun by assumption.
        injection Hrun as <- <-.
        exists ["Error: File not found: " +:+ gif_path], []. simpl. rewrite app_nil_r.
        split; [reflexivity|]. split; [reflexivity|]. split; [|apply Hnone].
        rewrite run_missing by assumption. reflexivity. }
  destruct (pil_open data) as [im|] eqn:Hopen.
  2:{ rewrite run_unreadable in Hrun
        by (first [right; rewrite Hfile; eauto | rewrite Hfile; simpl; exact Hopen]).
      injection Hrun as <- <-.
      exists [], [EvOpen gif_path]. simpl. rewrite app_nil_r.
      split; [reflexivity|]. split; [reflexivity|]. split; [|apply Hnone].
      rewrite run_unreadable
        by (first [right; simpl; rewrite Hfile; eauto
                  | simpl; rewrite Hfile; simpl; exact Hopen]).
      reflexivity. }
  destruct (Z.eq_dec (default 1 (n_frames_attr im)) 1) as [Hone|Hanim].
  { rewrite (run_single w data im) in Hrun by assumption.
    injection Hrun as <- <-.
    exists ["Error: Not an animated GIF (only 1 frame)"], [EvOpen gif_path]. simpl.
    split; [reflexivity|]. split; [reflexivity|]. split; [|apply Hnone].
    rewrite (run_single _ data im) by assumption. reflexivity. }
  destruct (resolve_skip (default 1 (n_frames_attr im)) max_frames skip) as [s|] eqn:Hskip.
  2:{ rewrite (run_no_stride w data im) in Hrun by assumption.
      injection Hrun as <- <-.
      exists [], [EvOpen gif_path]. simpl. rewrite app_nil_r.
      split; [reflexivity|]. split; [reflexivity|]. split; [|apply Hnone].
      rewrite (run_no_stride _ data im) by assumption. reflexivity. }
  destruct (can_makedirs (fs w) od) eqn:Hcan.
  2:{ destruct (makedirs_raises od (opened gif_path w) Hcan)
        as (f & Hmk & Hf & Hrf & Hlo & Hhi).
      rewrite (run_makedirs_raises w data im s _ _ Hfile Hopen Hanim Hskip Hmk) in Hrun.
      injection Hrun as <- <-.
      exists [], [EvOpen gif_path; EvMakedirs od]. simpl. rewrite app_nil_r, <- app_assoc.
      split; [reflexivity|]. split; [reflexivity|]. split; [|apply Hnone].
      simpl in Hf, Hrf.
      eapply run_makedirs_raises; try eassumption.
      - simpl. rewrite Hf. exact Hfile.
      - erewrite (makedirs_again od (opened gif_path w) _ _ _ Hmk).
        + unfold opened. simpl. rewrite <- !app_assoc. reflexivity.
        + reflexivity.
        + simpl. exact Hrf.
        + intros d _. simpl. rewrite Hf. reflexivity. }
  assert (Hne : od <> "") by (eapply can_makedirs_nonempty; exact Hcan).
  assert (Hmade : forall x : gset string, made_dirs od ∪ (made_dirs od ∪ x) = made_dirs od ∪ x).
  { intros x. rewrite (assoc_L (∪)), (idemp_L (∪)). reflexivity. }
  destruct (Py.range 0 (default 1 (n_frames_attr im)) s) as [l|] eqn:Hrange.
  2:{ rewrite (run_zero_stride w data im s) in Hrun by assumption.
      injection Hrun as <- <-.
      exists (banner gif_path (default 1 (n_frames_attr im)) s od),
             [EvOpen gif_path; EvMakedirs od].
      split; [reflexivity|]. split; [reflexivity|]. split; [|apply Hnone].
      rewrite (run_zero_stride _ data im s); try assumption.
      - unfold before_loop. simpl. fold od. rewrite Hmade. reflexivity.
      - apply can_makedirs_present; [exact Hne|]. simpl. apply union_subseteq_l.  }
  pose proof (run_loop w data im s l Hfile Hopen Hanim Hskip Hcan Hrange) as Hrun1.
  cbv zeta in Hrun1. fold od in Hrun1.
  set (wb := before_loop gif_path (default 1 (n_frames_attr im)) s od w) in *.
  set (t := loop_trace (fs wb) im od max_frames 0 l) in *.
  rewrite Hrun1 in Hrun. injection Hrun as <- <-.
  destruct Hsame as [_ Hsame]. simpl in Hsame. rewrite Hfile in Hsame. symmetry in Hsame.
  exists (banner gif_path (default 1 (n_frames_attr im)) s od ++
          match t.2 with
          | None => [summary_line (Z.of_nat (length t.1)) od]
          | Some _ => []
          end),
         ([EvOpen gif_path; EvMakedirs od] ++
          e_calls (frames_effect pil_encode im od t.1) ++ last_calls t.2).
  split; [simpl; rewrite <- app_assoc; reflexivity|].
  split; [simpl; rewrite <- !app_assoc; reflexivity|].
  split.
  - set (w1 := after_loop pil_encode im od t wb) in *.
    assert (Hcan1 : can_makedirs (fs w1) od = true).
    { apply can_makedirs_present; [exact Hne|]. simpl. apply union_subseteq_l. }
    pose proof (run_loop w1 data im s l Hsame Hopen Hanim Hskip Hcan1 Hrange) as Hrun2.
    cbv zeta in Hrun2. fold od in Hrun2.
    assert (Ht : loop_trace
                   (fs (before_loop gif_path (default 1 (n_frames_attr im)) s od w1))
                   im od max_frames 0 l = t).
    { apply loop_trace_same; simpl; [apply Hmade | reflexivity]. }
    rewrite Ht in Hrun2. rewrite Hrun2. f_equal.
    unfold after_loop, before_loop, w1. simpl.
    rewrite Hmade, write_all_twice, <- !app_assoc. reflexivity.
  - intros path content Hin. simpl.
    unfold saves in Hin. rewrite !omap_app in Hin. simpl in Hin.
    fold (saves (last_calls t.2)) in Hin.
    unfold t in Hin at 2. rewrite saves_last_calls, app_nil_r in Hin.
    eapply write_all_lookup_written.
    unfold frames_effect in Hin |- *. simpl in Hin |- *.
    fold (saves (flat_map (frame_calls pil_encode im od) t.1)) in Hin.
    rewrite saves_frame_calls in Hin. exact Hin.
Qed.

(** A run that returns has passed both checks, resolved a non-zero stride,
    made the directory, and loaded and saved every frame it sampled. *)
Lemma extract_frames_return_inv w v w' :
  extract_frames pil_open pil_encode gif_path max_frames skip output_dir w =
    (Return v, w') ->
  exists data im s l,
    files (fs w) !! gif_path = Some data
    /\ pil_open data = Some im
    /\ default 1 (n_frames_attr im) <> 1
    /\ resolve_skip (default 1 (n_frames_attr im)) max_frames skip = Some s
    /\ Py.range 0 (default 1 (n_frames_attr im)) s = Some l
    /\ can_makedirs (fs w) (resolve_output_dir gif_path output_dir) = true
    /\ Forall (frame_ok (fs w) im (resolve_output_dir gif_path output_dir))
              (sampled max_frames 0 l).
Proof.
  intros H.
  destruct (files (fs w) !! gif_path) as [data|] eqn:Hfile.
  2:{ destruct (decide (gif_path ∈ dirs (fs w))) as [Hd|Hd].
      - rewrite run_unreadable in H by (first [left; exact Hd | rewrite Hfile; reflexivity]).
        discriminate H.
      - rewrite run_missing in H by assumption. discriminate H. }
  destruct (pil_open data) as [im|] eqn:Hopen.
  2:{ rewrite run_unreadable in H
        by (first [right; rewrite Hfile; eauto | rewrite Hfile; simpl; exact Hopen]).
      discriminate H. }
  destruct (Z.eq_dec (default 1 (n_frames_attr im)) 1) as [Hone|Hanim].
  { rewrite (run_single w data im) in H by assumption. discriminate H. }
  destruct (resolve_skip (default 1 (n_frames_attr im)) max_frames skip) as [s|] eqn:Hskip.
  2:{ rewrite (run_no_stride w data im) in H by assumption. discriminate H. }
  destruct (can_makedirs (fs w) (resolve_output_dir gif_path output_dir)) eqn:Hcan.
  2:{ destruct (makedirs_raises _ (opened gif_path w) Hcan) as (f & Hmk & _).
      rewrite (run_makedirs_raises w data im s _ _ Hfile Hopen Hanim Hskip Hmk) in H.
      discriminate H. }
  destruct (Py.range 0 (default 1 (n_frames_attr im)) s) as [l|] eqn:Hrange.
  2:{ rewrite (run_zero_stride w data im s) in H by assumption. discriminate H. }
  rewrite (run_loop w data im s l Hfile Hopen Hanim Hskip Hcan Hrange) in H.
  cbv zeta in H.
  exists data, im, s, l. repeat (split; [assumption || reflexivity|]).
  match type of H with
  | context [loop_trace ?f ?im ?od ?m 0 ?l] =>
      destruct (loop_trace_sampled m od f im l 0) as (Hok & rest & Hs & Hend);
      destruct (loop_trace f im od m 0 l) as [kis [[e evs]|]]
  end; cbn [fst snd] in *; [discriminate H|].
  subst rest. rewrite app_nil_r in Hs. rewrite Hs.
  eapply Forall_impl; [exact Hok|].
  intros ki [Hr Hsv]. split; [exact Hr|].
  unfold can_save in Hsv |- *. simpl in Hsv.
  apply andb_true_iff in Hsv as [Hd Hrf]. rewrite Hrf, andb_true_r.
  apply bool_decide_eq_true in Hd. apply bool_decide_eq_true.
  intros Hin. apply Hd. apply elem_of_union_r. exact Hin.
Qed.

End Cases.

(** ** The claims *)

(** C1: on a container with at least two frames, all of which load, with
    [max_frames >= 1] and a stride [s >= 1] (given, or computed when
    omitted), in a filesystem where the output directory can be made and its
    frame files written, [extract_frames] returns
    [min(max_frames, ceil(total / s))] as its count and writes exactly that
    many frame files: that many saves, under pairwise different paths, each
    present with its content when the run ends. *)
Theorem extract_frames_count pil_open pil_encode gif_path max_frames skip output_dir
    w data im total s :
  files (fs w) !! gif_path = Some data ->
  pil_open data = Some im ->
  n_frames_attr im = Some total ->
  (forall i, 0 <= i < total -> is_Some (raster im i)) ->
  2 <= total -> 1 <= max_frames ->
  resolve_skip total max_frames skip = Some s -> 1 <= s ->
  can_makedirs (fs w) (resolve_output_dir gif_path output_dir) = true ->
  frames_writable (fs w) (resolve_output_dir gif_path output_dir) ->
  exists w' new,
    extract_frames pil_open pil_encode gif_path max_frames skip output_dir w =
      (Return (resolve_output_dir gif_path output_dir,
               Z.min max_frames (ceil_div total s)), w')
    /\ calls w' = calls w ++ new
    /\ Z.of_nat (length (saves new)) = Z.min max_frames (ceil_div total s)
    /\ NoDup (saves new).*1
    /\ (forall path content,
          (path, content) ∈ saves new -> files (fs w') !! path = Some content)
    /\ (ceil_div total s - 1) * s < total <= ceil_div total s * s.
Proof.
  intros Hfile Hopen Htotal Hdec Ht Hm Hskip Hs Hmk Hwr.
  pose proof (ceil_div_spec total s ltac:(lia)) as Hc.
  assert (Hn : 0 <= Z.min max_frames (ceil_div total s)) by nia.
  eexists _, _. split.
  { apply (extract_frames_sampling pil_open pil_encode gif_path max_frames skip
             output_dir w data im total s); try assumption. lia. }
  split; [reflexivity|].
  change (saves (e_calls (run_effect pil_encode im gif_path total s
            (resolve_output_dir gif_path output_dir)
            ((fun k => (k, k * s)) <$> seqZ 0 (Z.min max_frames (ceil_div total s))))))
    with (saves (flat_map (frame_calls pil_encode im (resolve_output_dir gif_path output_dir))
            ((fun k => (k, k * s)) <$> seqZ 0 (Z.min max_frames (ceil_div total s))))).
  rewrite saves_frame_calls.
  split; [|split; [|split]].
  - rewrite length_map, length_fmap, length_seqZ. lia.
  - apply saved_paths_nodup.
  - intros path content Hin. cbn [apply_effect fs files].
    apply write_all_lookup_nodup; [apply saved_paths_nodup | exact Hin].
  - exact Hc.
Qed.

Lemma extract_frames_count_witness :
  exists w' new,
    extract_frames toy_open toy_encode "a/anim.gif" 30 (Some 5) None
      (toy_world "a/anim.gif" "abcdefghijkl") =
      (Return ("a/anim_frames", 3), w')
    /\ calls w' = new
    /\ Z.of_nat (length (saves new)) = 3
    /\ NoDup (saves new).*1
    /\ (forall path content,
          (path, content) ∈ saves new -> files (fs w') !! path = Some content)
    /\ (3 - 1) * 5 < 12 <= 3 * 5.
Proof.
  apply (extract_frames_count toy_open toy_encode "a/anim.gif" 30 (Some 5) None
           (toy_world "a/anim.gif" "abcdefghijkl") "abcdefghijkl"
           {| n_frames_attr := Some 12;
              first_frame := {| pixels := Some "a"; info_duration := None |};
              frame_at := toy_frame "abcdefghijkl" |} 12 5).
  - vm_compute. reflexivity.
  - reflexivity.
  - reflexivity.
  - intros i Hi. apply (toy_frames_decode "abcdefghijkl" i). exact Hi.
  - lia.
  - lia.
  - reflexivity.
  - lia.
  - vm_compute. reflexivity.
  - apply frames_writable_free; reflexivity.
Defined.

(** C2: on a container with at least two frames and [max_frames >= 1], an
    omitted stride is computed as [max(1, floor(total / max_frames))], and a
    run without stride is the run with that stride given; a stride that is
    given is used as it is. *)
Theorem stride_resolution pil_open pil_encode gif_path max_frames output_dir
    w data im total :
  files (fs w) !! gif_path = Some data ->
  pil_open data = Some im ->
  n_frames_attr im = Some total ->
  2 <= total -> 1 <= max_frames ->
  resolve_skip total max_frames None = Some (Z.max 1 (total / max_frames))
  /\ (total / max_frames) * max_frames <= total < (total / max_frames + 1) * max_frames
  /\ (forall s, resolve_skip total max_frames (Some s) = Some s)
  /\ extract_frames pil_open pil_encode gif_path max_frames None output_dir w =
     extract_frames pil_open pil_encode gif_path max_frames
       (Some (Z.max 1 (total / max_frames))) output_dir w.
Proof.
  intros Hfile Hopen Htotal Ht Hm.
  assert (Hres : resolve_skip total max_frames None = Some (Z.max 1 (total / max_frames))).
  { unfold resolve_skip, Py.floordiv.
    rewrite (proj2 (Z.eqb_neq max_frames 0)) by lia. reflexivity. }
  split; [exact Hres|]. split.
  { pose proof (Z.div_mod total max_frames ltac:(lia)) as Hdm.
    pose proof (Z.mod_pos_bound total max_frames ltac:(lia)) as Hb. nia. }
  split; [reflexivity|].
  unfold extract_frames.
  rewrite !(bind_return _ _ _ _ _ (path_exists_file _ _ _ Hfile)). cbv beta.
  unfold negb. cbv iota.
  rewrite !(bind_return _ _ _ _ _ (image_open_ok _ _ _ _ _ Hfile Hopen)). cbv beta.
  cbn [image]. rewrite Htotal.
  change (default 1 (Some total)) with total.
  rewrite Hres. reflexivity.
Qed.

Lemma stride_resolution_witness :
  resolve_skip 100 30 None = Some 3
  /\ 3 * 30 <= 100 < (3 + 1) * 30
  /\ (forall s, resolve_skip 100 30 (Some s) = Some s)
  /\ extract_frames toy_open toy_encode "a.gif" 30 None None
       (toy_world "a.gif" (Py.zeros 100)) =
     extract_frames toy_open toy_encode "a.gif" 30 (Some 3) None
       (toy_world "a.gif" (Py.zeros 100)).
Proof.
  apply (stride_resolution toy_open toy_encode "a.gif" 30 None
           (toy_world "a.gif" (Py.zeros 100)) (Py.zeros 100)
           {| n_frames_attr := Some 100;
              first_frame := {| pixels := Some "0"; info_duration := None |};
              frame_at := toy_frame (Py.zeros 100) |} 100).
  - vm_compute. reflexivity.
  - reflexivity.
  - reflexivity.
  - lia.
  - lia.
Defined.

(** C3: on a valid input the counter [extracted] never exceeds [max_frames]:
    at every loop head reached from [extracted = 0] it lies between 0 and
    [max_frames]; once it equals [max_frames] the body breaks at once, leaving
    the world as it is (nothing is sought, converted or saved) and the loop
    returns.  When the frames load, the output directory can be made and its
    frame files written, the run returns, with a count that is at most
    [max_frames]; and in any filesystem whatever, a run that returns returns
    such a count. *)
Theorem extracted_never_exceeds pil_open pil_encode gif_path max_frames skip output_dir
    w data im total s :
  files (fs w) !! gif_path = Some data ->
  pil_open data = Some im ->
  n_frames_attr im = Some total ->
  (forall i, 0 <= i < total -> is_Some (raster im i)) ->
  2 <= total -> 1 <= max_frames ->
  resolve_skip total max_frames skip = Some s -> 1 <= s ->
  can_makedirs (fs w) (resolve_output_dir gif_path output_dir) = true ->
  frames_writable (fs w) (resolve_output_dir gif_path output_dir) ->
  (exists n w',
     extract_frames pil_open pil_encode gif_path max_frames skip output_dir w =
       (Return (resolve_output_dir gif_path output_dir, n), w')
     /\ 0 <= n <= max_frames)
  /\ (forall w0 dir n w',
        extract_frames pil_open pil_encode gif_path max_frames skip output_dir w0 =
          (Return (dir, n), w') ->
        0 <= n <= max_frames)
  /\ (forall dir candidates h w0 l st wl,
        loop_reach (loop_body pil_encode max_frames dir)
          (candidates, {| extracted := 0; img := h |}, w0) (l, st, wl) ->
        0 <= extracted st <= max_frames
        /\ (extracted st = max_frames ->
            (forall i, loop_body pil_encode max_frames dir i st wl = (Return (Break st), wl))
            /\ for_each (loop_body pil_encode max_frames dir) l st wl = (Return st, wl))).
Proof.
  intros Hfile Hopen Htotal Hdec Ht Hm Hskip Hs Hmk Hwr. split; [|split].
  - pose proof (ceil_div_spec total s ltac:(lia)) as Hc.
    eexists _, _. split.
    + apply (extract_frames_sampling pil_open pil_encode gif_path max_frames skip
               output_dir w data im total s); try assumption. lia.
    + nia.
  - intros w0 dir n w' Hrun.
    destruct (extract_frames_return_inv _ _ _ _ _ _ _ _ _ Hrun)
      as (data0 & im0 & s0 & l0 & Hf0 & Ho0 & Ha0 & Hs0 & Hr0 & Hc0 & Hok0).
    rewrite (extract_frames_returns pil_open pil_encode gif_path max_frames skip output_dir
               w0 data0 im0 s0 l0 Hf0 Ho0 Ha0 Hs0 Hr0 Hc0 Hok0) in Hrun.
    injection Hrun as _ <- _.
    pose proof (sampled_bound max_frames l0 0). lia.
  - intros dir candidates h w0 l st wl Hreach.
    apply loop_reach_bounds in Hreach; [simpl in Hreach | simpl; lia].
    split; [lia|]. intros Heq.
    assert (Hbreak : forall i,
              loop_body pil_encode max_frames dir i st wl = (Return (Break st), wl))
      by (intros i; apply loop_body_break; lia).
    split; [exact Hbreak|].
    destruct l as [|i l]; [reflexivity|].
    simpl. rewrite (bind_return _ _ _ _ _ (Hbreak i)). reflexivity.
Qed.

Lemma extracted_never_exceeds_witness :
  (exists n w',
     extract_frames toy_open toy_encode "a/anim.gif" 2 (Some 5) None
       (toy_world "a/anim.gif" "abcdefghijkl") =
       (Return ("a/anim_frames", n), w')
     /\ 0 <= n <= 2)
  /\ (forall w0 dir n w',
        extract_frames toy_open toy_encode "a/anim.gif" 2 (Some 5) None w0 =
          (Return (dir, n), w') ->
        0 <= n <= 2)
  /\ (forall dir candidates h w0 l st wl,
        loop_reach (loop_body toy_encode 2 dir)
          (candidates, {| extracted := 0; img := h |}, w0) (l, st, wl) ->
        0 <= extracted st <= 2
        /\ (extracted st = 2 ->
            (forall i, loop_body toy_encode 2 dir i st wl = (Return (Break st), wl))
            /\ for_each (loop_body toy_encode 2 dir) l st wl = (Return st, wl))).
Proof.
  apply (extracted_never_exceeds toy_open toy_encode "a/anim.gif" 2 (Some 5) None
           (toy_world "a/anim.gif" "abcdefghijkl") "abcdefghijkl"
           {| n_frames_attr := Some 12;
              first_frame := {| pixels := Some "a"; info_duration := None |};
              frame_at := toy_frame "abcdefghijkl" |} 12 5).
  - vm_compute. reflexivity.
  - reflexivity.
  - reflexivity.
  - intros i Hi. apply (toy_frames_decode "abcdefghijkl" i). exact Hi.
  - lia.
  - lia.
  - reflexivity.
  - lia.
  - vm_compute. reflexivity.
  - apply frames_writable_free; reflexivity.
Defined.

(** C4: on a valid extraction, in a filesystem where the output directory
    can be made and its frame files written, the run opens the container,
    creates the directory and then, for [k = 0, 1, ..., count - 1] in this
    order, seeks
    source frame [k * s], converts it to RGBA and saves it as PNG.  The
    [k]-th file written is named
    [frame_{k:03d}_f{k * s}_d{duration}ms.png] in the output directory, where
    the duration is the one of the frame made active, or 0 when it has none;
    the sequence field has at least three characters, all digits, and reads
    back as [k]. *)
Theorem extract_frames_names pil_open pil_encode gif_path max_frames skip output_dir
    w data im total s :
  files (fs w) !! gif_path = Some data ->
  pil_open data = Some im ->
  n_frames_attr im = Some total ->
  (forall i, 0 <= i < total -> is_Some (raster im i)) ->
  2 <= total -> 1 <= max_frames ->
  resolve_skip total max_frames skip = Some s -> 1 <= s ->
  can_makedirs (fs w) (resolve_output_dir gif_path output_dir) = true ->
  frames_writable (fs w) (resolve_output_dir gif_path output_dir) ->
  exists w' new,
    extract_frames pil_open pil_encode gif_path max_frames skip output_dir w =
      (Return (resolve_output_dir gif_path output_dir,
               Z.min max_frames (ceil_div total s)), w')
    /\ calls w' = (calls w ++ new)%list
    /\ new = EvOpen gif_path :: EvMakedirs (resolve_output_dir gif_path output_dir) ::
             flat_map (fun k =>
                 [EvSeek (k * s); EvConvert "RGBA";
                  EvSave (saved_path im (resolve_output_dir gif_path output_dir) k (k * s))
                         "PNG" (saved_data pil_encode im (k * s))])
               (seqZ 0 (Z.min max_frames (ceil_div total s)))
    /\ forall k, 0 <= k < Z.min max_frames (ceil_div total s) ->
         exists f px,
           frame_at im (k * s) = Some f
           /\ pixels f = Some px
           /\ saves new !! Z.to_nat k =
              Some (OsPath.join (resolve_output_dir gif_path output_dir)
                      ("frame_" +:+ Py.format_03d k +:+ "_f" +:+ Py.str (k * s) +:+
                       "_d" +:+ Py.str (default 0 (info_duration f)) +:+ "ms.png"),
                    pil_encode "PNG" {| still_mode := "RGBA"; still_pixels := px |})
           /\ (3 <= String.length (Py.format_03d k))%nat
           /\ all_digits (Py.format_03d k) = true
           /\ parse_seq (Py.format_03d k) = Some k.
Proof.
  intros Hfile Hopen Htotal Hdec Ht Hm Hskip Hs Hmk Hwr.
  set (od := resolve_output_dir gif_path output_dir).
  set (n := Z.min max_frames (ceil_div total s)).
  pose proof (ceil_div_spec total s ltac:(lia)) as Hc.
  eexists _, _. split.
  { apply (extract_frames_sampling pil_open pil_encode gif_path max_frames skip
             output_dir w data im total s); try assumption. lia. }
  split; [reflexivity|].
  assert (Hnew :
    e_calls (run_effect pil_encode im gif_path total s od
               ((fun k => (k, k * s)) <$> seqZ 0 n)) =
    EvOpen gif_path :: EvMakedirs od ::
      flat_map (fun k =>
          [EvSeek (k * s); EvConvert "RGBA";
           EvSave (saved_path im od k (k * s)) "PNG" (saved_data pil_encode im (k * s))])
        (seqZ 0 n)).
  { cbn [run_effect frames_effect e_calls]. rewrite flat_map_fmap. reflexivity. }
  fold od n. rewrite Hnew. split; [reflexivity|].
  intros k Hk.
  destruct (Hdec (k * s)) as [px Hpx].
  { apply (sampled_index_in_range total s max_frames); lia. }
  unfold raster in Hpx.
  destruct (frame_at im (k * s)) as [f|] eqn:Hf; [|discriminate Hpx]. simpl in Hpx.
  exists f, px. split; [reflexivity|]. split; [exact Hpx|].
  assert (Hfo : frame_of im (k * s) = f) by (unfold frame_of; rewrite Hf; reflexivity).
  assert (Hra : raster im (k * s) = Some px) by (unfold raster; rewrite Hf; exact Hpx).
  split; [|split; [|split]].
  - rewrite <- Hnew.
    change (saves (e_calls (run_effect pil_encode im gif_path total s od
              ((fun k => (k, k * s)) <$> seqZ 0 n))))
      with (saves (flat_map (frame_calls pil_encode im od)
              ((fun k => (k, k * s)) <$> seqZ 0 n))).
    rewrite saves_frame_calls.
    change (map ?g ?l) with (g <$> l).
    rewrite !list_lookup_fmap, lookup_seqZ_lt by lia.
    rewrite Z2Nat.id, Z.add_0_l by lia. simpl.
    unfold saved_path, saved_data, duration_of, frame_name. rewrite Hfo, Hra. reflexivity.
  - apply length_format_03d.
  - apply all_digits_format_03d; lia.
  - apply parse_seq_format_03d; lia.
Qed.

Lemma extract_frames_names_witness :
  exists w' new,
    extract_frames toy_open toy_encode "a/anim.gif" 30 (Some 5) None
      (toy_world "a/anim.gif" "abcdefghijkl") =
      (Return ("a/anim_frames", 3), w')
    /\ calls w' = new
    /\ new = [EvOpen "a/anim.gif"; EvMakedirs "a/anim_frames";
              EvSeek 0; EvConvert "RGBA";
              EvSave "a/anim_frames/frame_000_f0_d0ms.png" "PNG" "PNG:RGBA:a";
              EvSeek 5; EvConvert "RGBA";
              EvSave "a/anim_frames/frame_001_f5_d60ms.png" "PNG" "PNG:RGBA:f";
              EvSeek 10; EvConvert "RGBA";
              EvSave "a/anim_frames/frame_002_f10_d110ms.png" "PNG" "PNG:RGBA:k"]
    /\ forall k, 0 <= k < 3 ->
         exists f px,
           toy_frame "abcdefghijkl" (k * 5) = Some f
           /\ pixels f = Some px
           /\ saves new !! Z.to_nat k =
              Some (OsPath.join "a/anim_frames"
                      ("frame_" +:+ Py.format_03d k +:+ "_f" +:+ Py.str (k * 5) +:+
                       "_d" +:+ Py.str (default 0 (info_duration f)) +:+ "ms.png"),
                    toy_encode "PNG" {| still_mode := "RGBA"; still_pixels := px |})
           /\ (3 <= String.length (Py.format_03d k))%nat
           /\ all_digits (Py.format_03d k) = true
           /\ parse_seq (Py.format_03d k) = Some k.
Proof.
  apply (extract_frames_names toy_open toy_encode "a/anim.gif" 30 (Some 5) None
           (toy_world "a/anim.gif" "abcdefghijkl") "abcdefghijkl"
           {| n_frames_attr := Some 12;
              first_frame := {| pixels := Some "a"; info_duration := None |};
              frame_at := toy_frame "abcdefghijkl" |} 12 5).
  - vm_compute. reflexivity.
  - reflexivity.
  - reflexivity.
  - intros i Hi. apply (toy_frames_decode "abcdefghijkl" i). exact Hi.
  - lia.
  - lia.
  - reflexivity.
  - lia.
  - vm_compute. reflexivity.
  - apply frames_writable_free; reflexivity.
Defined.

(** C5: when the container exists and has exactly one frame (or no frame
    count at all), [extract_frames] reports that the input is not animated
    and exits with status 1, right after opening it: the filesystem is left
    as it was, so no directory is created and no file written; the process
    started on such an input ends with status 1 in the same world. *)
Theorem single_frame_rejected pil_open pil_encode gif_path max_frames skip output_dir
    w data im :
  files (fs w) !! gif_path = Some data ->
  pil_open data = Some im ->
  default 1 (n_frames_attr im) = 1 ->
  extract_frames pil_open pil_encode gif_path max_frames skip output_dir w =
    (SysExit 1,
     {| fs := fs w;
        stdout := stdout w ++ ["Error: Not an animated GIF (only 1 frame)"];
        calls := calls w ++ [EvOpen gif_path] |})
  /\ exit_status (@SysExit (string * Z) 1) <> 0
  /\ forall py_int prog args o,
       scan_args py_int args 0 default_options = Return o ->
       run_script pil_open pil_encode py_int (prog :: gif_path :: args) w =
         (1, {| fs := fs w;
                stdout := stdout w ++ ["Error: Not an animated GIF (only 1 frame)"];
                calls := calls w ++ [EvOpen gif_path] |}).
Proof.
  intros Hfile Hopen Hone.
  assert (Hrun : forall max_frames skip output_dir,
    extract_frames pil_open pil_encode gif_path max_frames skip output_dir w =
    (SysExit 1,
     {| fs := fs w;
        stdout := stdout w ++ ["Error: Not an animated GIF (only 1 frame)"];
        calls := calls w ++ [EvOpen gif_path] |})).
  { intros m sk od. unfold extract_frames.
    rewrite (bind_return _ _ _ _ _ (path_exists_file _ _ _ Hfile)). cbv beta.
    unfold negb. cbv iota.
    rewrite (bind_return _ _ _ _ _ (image_open_ok _ _ _ _ _ Hfile Hopen)). cbv beta.
    cbn [image]. rewrite Hone. reflexivity. }
  split; [apply Hrun|]. split; [discriminate|].
  intros py_int prog args o Hscan.
  rewrite (run_script_extract _ _ _ _ _ _ _ _ Hscan), Hrun. reflexivity.
Qed.

Lemma single_frame_rejected_witness :
  extract_frames toy_open toy_encode "still.gif" 30 None None (toy_world "still.gif" "a") =
    (SysExit 1,
     {| fs := fs (toy_world "still.gif" "a");
        stdout := ["Error: Not an animated GIF (only 1 frame)"];
        calls := [EvOpen "still.gif"] |})
  /\ exit_status (@SysExit (string * Z) 1) <> 0
  /\ forall py_int prog args o,
       scan_args py_int args 0 default_options = Return o ->
       run_script toy_open toy_encode py_int (prog :: "still.gif" :: args)
         (toy_world "still.gif" "a") =
         (1, {| fs := fs (toy_world "still.gif" "a");
                stdout := ["Error: Not an animated GIF (only 1 frame)"];
                calls := [EvOpen "still.gif"] |}).
Proof.
  apply (single_frame_rejected toy_open toy_encode "still.gif" 30 None None
           (toy_world "still.gif" "a") "a"
           {| n_frames_attr := Some 1;
              first_frame := {| pixels := Some "a"; info_duration := None |};
              frame_at := toy_frame "a" |}).
  - vm_compute. reflexivity.
  - reflexivity.
  - reflexivity.
Defined.

(** C6: when the path names nothing in the filesystem, [extract_frames]
    reports that the file is not found and ends by [sys.exit(1)], not by an
    exception; nothing is opened, no directory is created, the filesystem is
    left as it was, and the process ends with status 1. *)
Theorem missing_file_rejected pil_open pil_encode gif_path max_frames skip output_dir w :
  gif_path ∉ dirs (fs w) ->
  files (fs w) !! gif_path = None ->
  extract_frames pil_open pil_encode gif_path max_frames skip output_dir w =
    (SysExit 1,
     {| fs := fs w;
        stdout := stdout w ++ ["Error: File not found: " +:+ gif_path];
        calls := calls w |})
  /\ exit_status (@SysExit (string * Z) 1) <> 0
  /\ forall py_int prog args o,
       scan_args py_int args 0 default_options = Return o ->
       run_script pil_open pil_encode py_int (prog :: gif_path :: args) w =
         (1, {| fs := fs w;
                stdout := stdout w ++ ["Error: File not found: " +:+ gif_path];
                calls := calls w |}).
Proof.
  intros Hdir Hfile.
  assert (Hrun : forall max_frames skip output_dir,
    extract_frames pil_open pil_encode gif_path max_frames skip output_dir w =
    (SysExit 1,
     {| fs := fs w;
        stdout := stdout w ++ ["Error: File not found: " +:+ gif_path];
        calls := calls w |})).
  { intros m sk od. unfold extract_frames.
    rewrite (bind_return _ _ _ _ _ (path_exists_absent _ _ Hdir Hfile)).
    reflexivity. }
  split; [apply Hrun|]. split; [discriminate|].
  intros py_int prog args o Hscan.
  rewrite (run_script_extract _ _ _ _ _ _ _ _ Hscan), Hrun. reflexivity.
Qed.

Lemma missing_file_rejected_witness :
  extract_frames toy_open toy_encode "nowhere.gif" 30 None None
    (toy_world "a/anim.gif" "abcdefghijkl") =
    (SysExit 1,
     {| fs := fs (toy_world "a/anim.gif" "abcdefghijkl");
        stdout := ["Error: File not found: nowhere.gif"];
        calls := [] |})
  /\ exit_status (@SysExit (string * Z) 1) <> 0
  /\ forall py_int prog args o,
       scan_args py_int args 0 default_options = Return o ->
       run_script toy_open toy_encode py_int (prog :: "nowhere.gif" :: args)
         (toy_world "a/anim.gif" "abcdefghijkl") =
         (1, {| fs := fs (toy_world "a/anim.gif" "abcdefghijkl");
                stdout := ["Error: File not found: nowhere.gif"];
                calls := [] |}).
Proof.
  apply (missing_file_rejected toy_open toy_encode "nowhere.gif" 30 None None
           (toy_world "a/anim.gif" "abcdefghijkl")).
  - vm_compute. intros H. discriminate H.
  - vm_compute. reflexivity.
Defined.

(** C9: on an existing container with at least two frames, a negative stride
    given by the caller makes the range of candidates empty: the body of the
    loop never runs.  Where the output directory can be made, it is created
    all the same, with its missing parents, no frame is sought or saved,
    [(output_dir, 0)] is returned and the process ends with status 0. *)
Theorem negative_stride_extracts_nothing pil_open pil_encode gif_path max_frames
    output_dir w data im total s :
  files (fs w) !! gif_path = Some data ->
  pil_open data = Some im ->
  n_frames_attr im = Some total ->
  2 <= total -> s < 0 ->
  can_makedirs (fs w) (resolve_output_dir gif_path output_dir) = true ->
  Py.range 0 total s = Some []
  /\ extract_frames pil_open pil_encode gif_path max_frames (Some s) output_dir w =
     (Return (resolve_output_dir gif_path output_dir, 0),
      {| fs := {| dirs := made_dirs (resolve_output_dir gif_path output_dir) ∪ dirs (fs w);
                  files := files (fs w);
                  refused := refused (fs w) |};
         stdout := stdout w ++
                   banner gif_path total s (resolve_output_dir gif_path output_dir) ++
                   ["Extracted 0 frames to " +:+ resolve_output_dir gif_path output_dir];
         calls := calls w ++
                  [EvOpen gif_path; EvMakedirs (resolve_output_dir gif_path output_dir)] |})
  /\ resolve_output_dir gif_path output_dir
       ∈ made_dirs (resolve_output_dir gif_path output_dir)
  /\ exit_status (Return (resolve_output_dir gif_path output_dir, 0)) = 0
  /\ forall py_int prog args o,
       scan_args py_int args 0 default_options = Return o ->
       opt_skip o = Some s ->
       can_makedirs (fs w) (resolve_output_dir gif_path (opt_output_dir o)) = true ->
       (run_script pil_open pil_encode py_int (prog :: gif_path :: args) w).1 = 0.
Proof.
  intros Hfile Hopen Htotal Ht Hs Hmk.
  assert (Hdef : default 1 (n_frames_attr im) = total) by (rewrite Htotal; reflexivity).
  assert (Hrange : Py.range 0 total s = Some []) by (apply range_down; lia).
  assert (Hrun : forall max_frames output_dir,
    can_makedirs (fs w) (resolve_output_dir gif_path output_dir) = true ->
    extract_frames pil_open pil_encode gif_path max_frames (Some s) output_dir w =
     (Return (resolve_output_dir gif_path output_dir, 0),
      {| fs := {| dirs := made_dirs (resolve_output_dir gif_path output_dir) ∪ dirs (fs w);
                  files := files (fs w);
                  refused := refused (fs w) |};
         stdout := stdout w ++
                   banner gif_path total s (resolve_output_dir gif_path output_dir) ++
                   ["Extracted 0 frames to " +:+ resolve_output_dir gif_path output_dir];
         calls := calls w ++
                  [EvOpen gif_path; EvMakedirs (resolve_output_dir gif_path output_dir)] |})).
  { intros m od Hod.
    rewrite (extract_frames_returns pil_open pil_encode gif_path m (Some s) od
               w data im s [] Hfile Hopen); rewrite ?Hdef.
    - reflexivity.
    - lia.
    - reflexivity.
    - exact Hrange.
    - exact Hod.
    - constructor. }
  split; [exact Hrange|]. split; [apply Hrun, Hmk|].
  split; [apply output_dir_made|]. split; [reflexivity|].
  intros py_int prog args o Hscan Hskip Hod.
  rewrite (run_script_extract _ _ _ _ _ _ _ _ Hscan), Hskip, Hrun by exact Hod.
  reflexivity.
Qed.

Lemma negative_stride_extracts_nothing_witness :
  Py.range 0 12 (-2) = Some []
  /\ extract_frames toy_open toy_encode "a/anim.gif" 30 (Some (-2)) (Some "out/frames")
       (toy_world "a/anim.gif" "abcdefghijkl") =
     (Return ("out/frames", 0),
      {| fs := {| dirs := made_dirs "out/frames" ∪ ∅;
                  files := {[ "a/anim.gif" := "abcdefghijkl" ]};
                  refused := ∅ |};
         stdout := ["GIF: a/anim.gif"; "Total frames: 12"; "Skip: every -2 frame(s)";
                    "Output: out/frames"; "---"; "Extracted 0 frames to out/frames"];
         calls := [EvOpen "a/anim.gif"; EvMakedirs "out/frames"] |})
  /\ "out/frames" ∈ made_dirs "out/frames"
  /\ exit_status (Return ("out/frames", 0)) = 0
  /\ forall py_int prog args o,
       scan_args py_int args 0 default_options = Return o ->
       opt_skip o = Some (-2) ->
       can_makedirs (fs (toy_world "a/anim.gif" "abcdefghijkl"))
         (resolve_output_dir "a/anim.gif" (opt_output_dir o)) = true ->
       (run_script toy_open toy_encode py_int (prog :: "a/anim.gif" :: args)
          (toy_world "a/anim.gif" "abcdefghijkl")).1 = 0.
Proof.
  apply (negative_stride_extracts_nothing toy_open toy_encode "a/anim.gif" 30
           (Some "out/frames")
           (toy_world "a/anim.gif" "abcdefghijkl") "abcdefghijkl"
           {| n_frames_attr := Some 12;
              first_frame := {| pixels := Some "a"; info_duration := None |};
              frame_at := toy_frame "abcdefghijkl" |} 12 (-2)).
  - vm_compute. reflexivity.
  - reflexivity.
  - reflexivity.
  - lia.
  - lia.
  - vm_compute. reflexivity.
Defined.

(** C10: on an existing container with at least two frames, [max_frames = 0]
    with the stride omitted makes the stride computation divide by zero.  The
    run ends with [ZeroDivisionError], which nothing catches, after the
    existence check and the animation check have passed: the container has
    been opened, no error line has been printed, and the filesystem is as it
    was.  The outcome is neither of the two reported exits nor a decoder
    error. *)
Theorem zero_max_frames_divides_by_zero pil_open pil_encode gif_path output_dir
    w data im total :
  files (fs w) !! gif_path = Some data ->
  pil_open data = Some im ->
  n_frames_attr im = Some total ->
  2 <= total ->
  path_exists gif_path w = (Return true, w)
  /\ (total =? 1) = false
  /\ Py.floordiv total 0 = None
  /\ extract_frames pil_open pil_encode gif_path 0 None output_dir w =
     (Raise ZeroDivisionError,
      {| fs := fs w; stdout := stdout w; calls := calls w ++ [EvOpen gif_path] |})
  /\ @Raise (string * Z) ZeroDivisionError <> Raise DecodeError
  /\ (forall code, @Raise (string * Z) ZeroDivisionError <> SysExit code).
Proof.
  intros Hfile Hopen Htotal Ht.
  split; [apply (path_exists_file _ data); exact Hfile|].
  split; [apply Z.eqb_neq; lia|].
  split; [reflexivity|].
  split; [|split; [discriminate | intros code; discriminate]].
  unfold extract_frames.
  rewrite (bind_return _ _ _ _ _ (path_exists_file _ _ _ Hfile)). cbv beta.
  unfold negb. cbv iota.
  rewrite (bind_return _ _ _ _ _ (image_open_ok _ _ _ _ _ Hfile Hopen)). cbv beta.
  cbn [image]. rewrite Htotal.
  change (default 1 (Some total)) with total.
  rewrite (proj2 (Z.eqb_neq total 1)) by lia.
  reflexivity.
Qed.

Lemma zero_max_frames_divides_by_zero_witness :
  path_exists "a/anim.gif" (toy_world "a/anim.gif" "abcdefghijkl") =
    (Return true, toy_world "a/anim.gif" "abcdefghijkl")
  /\ (12 =? 1) = false
  /\ Py.floordiv 12 0 = None
  /\ extract_frames toy_open toy_encode "a/anim.gif" 0 None None
       (toy_world "a/anim.gif" "abcdefghijkl") =
     (Raise ZeroDivisionError,
      {| fs := fs (toy_world "a/anim.gif" "abcdefghijkl"); stdout := [];
         calls := [EvOpen "a/anim.gif"] |})
  /\ @Raise (string * Z) ZeroDivisionError <> Raise DecodeError
  /\ (forall code, @Raise (string * Z) ZeroDivisionError <> SysExit code).
Proof.
  apply (zero_max_frames_divides_by_zero toy_open toy_encode "a/anim.gif" None
           (toy_world "a/anim.gif" "abcdefghijkl") "abcdefghijkl"
           {| n_frames_attr := Some 12;
              first_frame := {| pixels := Some "a"; info_duration := None |};
              frame_at := toy_frame "abcdefghijkl" |} 12).
  - vm_compute. reflexivity.
  - reflexivity.
  - reflexivity.
  - lia.
Defined.

(** C7: run [extract_frames] once, and again with the same arguments in the
    world the first run left, the input path denoting the same thing as
    before.  The second run ends as the first one did, prints the same lines
    and makes the same calls: the same files are saved in the same order
    with the same content, each of them replacing a file the first run left,
    and the filesystem after the second run is the one after the first.  A
    directory that exists is no error for [makedirs], and the directory a
    first run returned exists when the second starts. *)
Theorem rerun_overwrites_identically pil_open pil_encode gif_path max_frames skip
    output_dir w r w1 :
  extract_frames pil_open pil_encode gif_path max_frames skip output_dir w = (r, w1) ->
  same_input gif_path w w1 ->
  exists w2 out new,
    extract_frames pil_open pil_encode gif_path max_frames skip output_dir w1 = (r, w2)
    /\ stdout w1 = (stdout w ++ out)%list /\ stdout w2 = (stdout w1 ++ out)%list
    /\ calls w1 = (calls w ++ new)%list /\ calls w2 = (calls w1 ++ new)%list
    /\ fs w2 = fs w1
    /\ (forall path content,
          (path, content) ∈ saves new -> is_Some (files (fs w1) !! path))
    /\ (forall od n,
          r = Return (od, n) ->
          od ∈ dirs (fs w1)
          /\ exists w1', makedirs od w1 = (Return tt, w1') /\ fs w1' = fs w1).
Proof.
  intros Hrun Hsame.
  destruct (extract_frames_again _ _ _ _ _ _ _ _ _ Hrun Hsame)
    as (out & new & Hout & Hnew & Hagain & Hsaves).
  eexists _, out, new. split; [exact Hagain|].
  split; [exact Hout|]. split; [reflexivity|].
  split; [exact Hnew|]. split; [reflexivity|].
  split; [reflexivity|]. split; [exact Hsaves|].
  intros od n ->.
  destruct (extract_frames_return_inv _ _ _ _ _ _ _ _ _ Hrun)
    as (data & im & s & l & Hfile & Hopen & Hanim & Hskip & Hrange & Hcan & Hok).
  rewrite (extract_frames_returns pil_open pil_encode gif_path max_frames skip output_dir
             w data im s l Hfile Hopen Hanim Hskip Hrange Hcan Hok) in Hrun.
  injection Hrun as <- _ <-.
  set (od := resolve_output_dir gif_path output_dir) in *.
  assert (Hsub : made_dirs od ⊆
                 dirs (fs (apply_effect
                             (run_effect pil_encode im gif_path
                                (default 1 (n_frames_attr im)) s od
                                (sampled max_frames 0 l)) w)))
    by (simpl; apply union_subseteq_l).
  split; [apply Hsub, output_dir_made|].
  eexists. split.
  - apply makedirs_ok, can_makedirs_present; [|exact Hsub].
    eapply can_makedirs_nonempty. exact Hcan.
  - cbn [fs]. apply fs_with_made. exact Hsub.
Qed.

Lemma rerun_overwrites_identically_witness :
  exists w2 out new,
    extract_frames toy_open toy_encode "a/anim.gif" 30 (Some 5) None
      (extract_frames toy_open toy_encode "a/anim.gif" 30 (Some 5) None
         (toy_world "a/anim.gif" "abcdefghijkl")).2 =
      (Return ("a/anim_frames", 3), w2)
    /\ stdout
         (extract_frames toy_open toy_encode "a/anim.gif" 30 (Some 5) None
            (toy_world "a/anim.gif" "abcdefghijkl")).2 = ([] ++ out)%list
    /\ stdout w2 =
       (stdout
          (extract_frames toy_open toy_encode "a/anim.gif" 30 (Some 5) None
             (toy_world "a/anim.gif" "abcdefghijkl")).2 ++ out)%list
    /\ calls
         (extract_frames toy_open toy_encode "a/anim.gif" 30 (Some 5) None
            (toy_world "a/anim.gif" "abcdefghijkl")).2 = ([] ++ new)%list
    /\ calls w2 =
       (calls
          (extract_frames toy_open toy_encode "a/anim.gif" 30 (Some 5) None
             (toy_world "a/anim.gif" "abcdefghijkl")).2 ++ new)%list
    /\ fs w2 =
       fs (extract_frames toy_open toy_encode "a/anim.gif" 30 (Some 5) None
             (toy_world "a/anim.gif" "abcdefghijkl")).2
    /\ (forall path content,
          (path, content) ∈ saves new ->
          is_Some
            (files
               (fs (extract_frames toy_open toy_encode "a/anim.gif" 30 (Some 5) None
                      (toy_world "a/anim.gif" "abcdefghijkl")).2) !! path))
    /\ (forall od n,
          Return ("a/anim_frames", 3) = Return (od, n) ->
          od ∈ dirs
                 (fs (extract_frames toy_open toy_encode "a/anim.gif" 30 (Some 5) None
                        (toy_world "a/anim.gif" "abcdefghijkl")).2)
          /\ exists w1',
               makedirs od
                 (extract_frames toy_open toy_encode "a/anim.gif" 30 (Some 5) None
                    (toy_world "a/anim.gif" "abcdefghijkl")).2 = (Return tt, w1')
               /\ fs w1' =
                  fs (extract_frames toy_open toy_encode "a/anim.gif" 30 (Some 5) None
                        (toy_world "a/anim.gif" "abcdefghijkl")).2).
Proof.
  apply (rerun_overwrites_identically toy_open toy_encode "a/anim.gif" 30 (Some 5) None
           (toy_world "a/anim.gif" "abcdefghijkl")).
  - vm_compute. reflexivity.
  - split.
    + vm_compute. split; intros H; discriminate H.
    + vm_compute. reflexivity.
Defined.

(** C8, as the scanner has it: a token after the container path that the
    scanner comes to (it is not stepped across as the value of a recognized
    flag before it) and that is not one of [--max-frames], [--skip],
    [--output-dir] followed by a value is passed over: the scanner moves on by
    exactly one token, assigns nothing and raises nothing there, and the
    tokens after it are scanned as if they stood alone.  The command line
    without the token is scanned to the same options, and the whole run of
    the script is the same. *)
Theorem unknown_token_skipped pil_open pil_encode py_int args i o :
  scan_reaches py_int args i o ->
  (i < length args)%nat ->
  recognized (arg_at args i) && (i + 1 <? length args)%nat = false ->
  scan_step py_int args i o = Some ((i + 1)%nat, o)
  /\ scan_reaches py_int args (i + 1) o
  /\ scan_args py_int args i o = scan_args py_int (drop (i + 1) args) 0 o
  /\ scan_args py_int args 0 default_options =
     scan_args py_int (delete i args) 0 default_options
  /\ forall prog gif_path w,
       run_script pil_open pil_encode py_int (prog :: gif_path :: args) w =
       run_script pil_open pil_encode py_int (prog :: gif_path :: delete i args) w.
Proof.
  intros Hreach Hlt Hun.
  assert (Hstep : scan_step py_int args i o = Some ((i + 1)%nat, o)).
  { unfold scan_step. unfold recognized in Hun.
    destruct (i + 1 <? length args)%nat.
    - rewrite andb_true_r in Hun.
      apply orb_false_iff in Hun as [Hun H3]. apply orb_false_iff in Hun as [H1 H2].
      rewrite H1, H2, H3. reflexivity.
    - rewrite !andb_false_r. reflexivity. }
  split; [exact Hstep|].
  split; [eapply scan_next; eassumption|].
  split.
  { rewrite scan_args_skip by assumption. apply scan_args_drop. lia. }
  pose proof (scan_args_delete py_int args i o Hreach Hlt Hun) as Hdel.
  split; [exact Hdel|].
  intros prog gif_path w. unfold run_script, main.
  change (length (prog :: gif_path :: args) <? 2)%nat with false.
  change (length (prog :: gif_path :: delete i args) <? 2)%nat with false.
  cbv iota.
  change (drop 2 (prog :: gif_path :: args)) with args.
  change (drop 2 (prog :: gif_path :: delete i args)) with (delete i args).
  change (arg_at (prog :: gif_path :: args) 1) with gif_path.
  change (arg_at (prog :: gif_path :: delete i args) 1) with gif_path.
  rewrite Hdel. reflexivity.
Qed.

Lemma unknown_token_skipped_witness :
  scan_step dec_int ["--max-frames"; "5"; "--verbose"; "--skip"; "4"] 2
    {| opt_max_frames := 5; opt_skip := None; opt_output_dir := None |} =
    Some (3%nat, {| opt_max_frames := 5; opt_skip := None; opt_output_dir := None |})
  /\ scan_reaches dec_int ["--max-frames"; "5"; "--verbose"; "--skip"; "4"] 3
       {| opt_max_frames := 5; opt_skip := None; opt_output_dir := None |}
  /\ scan_args dec_int ["--max-frames"; "5"; "--verbose"; "--skip"; "4"] 2
       {| opt_max_frames := 5; opt_skip := None; opt_output_dir := None |} =
     scan_args dec_int ["--skip"; "4"] 0
       {| opt_max_frames := 5; opt_skip := None; opt_output_dir := None |}
  /\ scan_args dec_int ["--max-frames"; "5"; "--verbose"; "--skip"; "4"] 0
       default_options =
     scan_args dec_int ["--max-frames"; "5"; "--skip"; "4"] 0 default_options
  /\ forall prog gif_path w,
       run_script toy_open toy_encode dec_int
         (prog :: gif_path :: ["--max-frames"; "5"; "--verbose"; "--skip"; "4"]) w =
       run_script toy_open toy_encode dec_int
         (prog :: gif_path :: ["--max-frames"; "5"; "--skip"; "4"]) w.
Proof.
  apply (unknown_token_skipped toy_open toy_encode dec_int
           ["--max-frames"; "5"; "--verbose"; "--skip"; "4"] 2
           {| opt_max_frames := 5; opt_skip := None; opt_output_dir := None |}).
  - apply (scan_next dec_int _ 0 default_options 2); [constructor | simpl; lia | reflexivity].
  - simpl. lia.
  - reflexivity.
Defined.

(** C8 as the specification words it does not hold: a token that is none of
    the three flags, standing right after one of them, is not passed over but
    taken as the value of that flag.  After [--skip] it is given to [int],
    which raises; after [--output-dir] it becomes the directory, and the
    command line without it is read differently. *)
Lemma unknown_token_taken_as_value :
  recognized "--verbose" = false
  /\ scan_args dec_int ["--skip"; "--verbose"] 0 default_options = Raise ValueError
  /\ scan_args dec_int (delete 1%nat ["--skip"; "--verbose"]) 0 default_options =
     Return default_options
  /\ scan_args dec_int ["--output-dir"; "--verbose"; "--skip"; "4"] 0 default_options =
     Return {| opt_max_frames := 30; opt_skip := Some 4;
               opt_output_dir := Some "--verbose" |}
  /\ scan_args dec_int (delete 1%nat ["--output-dir"; "--verbose"; "--skip"; "4"]) 0
       default_options =
     Return {| opt_max_frames := 30; opt_skip := None; opt_output_dir := Some "--skip" |}
  /\ ~ (forall args i,
          (i < length args)%nat ->
          recognized (arg_at args i) = false ->
          scan_args dec_int args 0 default_options =
          scan_args dec_int (delete i args) 0 default_options).
Proof.
  repeat (split; [reflexivity|]).
  intros H. specialize (H ["--skip"; "--verbose"] 1%nat ltac:(simpl; lia) eq_refl).
  discriminate H.
Qed.

(** The scanner on the command line of the witness: the unknown flag and the
    flag without a value at the end are passed over, [--skip 4] is read. *)
Example scan_args_example :
  scan_args dec_int ["--verbose"; "--skip"; "4"; "--max-frames"] 0 default_options =
  Return {| opt_max_frames := 30; opt_skip := Some 4; opt_output_dir := None |}.
Proof. reflexivity. Qed.

(** ** The scenarios of the specification, run on the small decoder *)

(** A 100-frame animation with the default arguments: stride 3, 30 files,
    source indices 0, 3, ..., 87. *)
Example scenario_hundred_frames :
  let run := run_script toy_open toy_encode dec_int ["prog"; "a.gif"]
               (toy_world "a.gif" (Py.zeros 100)) in
  run.1 = 0
  /\ seeks (calls run.2) = (fun k => 3 * k) <$> seqZ 0 30
  /\ length (saves (calls run.2)) = 30%nat
  /\ last (stdout run.2) = Some "Extracted 30 frames to a_frames".
Proof. vm_compute. repeat split; reflexivity. Qed.

(** A 10-frame animation with [--max-frames 30]: stride 1, 10 files. *)
Example scenario_ten_frames :
  let run := run_script toy_open toy_encode dec_int ["prog"; "a.gif"; "--max-frames"; "30"]
               (toy_world "a.gif" (Py.zeros 10)) in
  run.1 = 0
  /\ seeks (calls run.2) = seqZ 0 10
  /\ stdout run.2 !! 2%nat = Some "Skip: every 1 frame(s)".
Proof. vm_compute. repeat split; reflexivity. Qed.

(** [--skip 5] on a 12-frame animation: source indices 0, 5, 10. *)
Example scenario_skip_five :
  let run := run_script toy_open toy_encode dec_int ["prog"; "a.gif"; "--skip"; "5"]
               (toy_world "a.gif" (Py.zeros 12)) in
  run.1 = 0
  /\ seeks (calls run.2) = [0; 5; 10]
  /\ (saves (calls run.2)).*1 =
     ["a_frames/frame_000_f0_d0ms.png"; "a_frames/frame_001_f5_d60ms.png";
      "a_frames/frame_002_f10_d110ms.png"].
Proof. vm_compute. repeat split; reflexivity. Qed.

(** No argument at all: the usage text and status 1. *)
Example scenario_usage :
  run_script toy_open toy_encode dec_int ["prog"] (toy_world "a.gif" "ab") =
  (1, {| fs := fs (toy_world "a.gif" "ab"); stdout := [module_doc]; calls := [] |}).
Proof. reflexivity. Qed.

(** A value that is no integer: [int] raises, nothing has been done yet. *)
Example scenario_bad_integer :
  run_script toy_open toy_encode dec_int ["prog"; "a.gif"; "--skip"; "x4"]
    (toy_world "a.gif" "ab") =
  (1, toy_world "a.gif" "ab").
Proof. reflexivity. Qed.

(** A zero stride: [range] raises after the directory is created. *)
Example scenario_zero_stride :
  (extract_frames toy_open toy_encode "a.gif" 30 (Some 0) None (toy_world "a.gif" "ab")).1 =
  Raise ValueError.
Proof. reflexivity. Qed.

(** ** Further properties of a run *)

Lemma seeks_frame_calls pil_encode im od kis :
  seeks (flat_map (frame_calls pil_encode im od) kis) = map snd kis.
Proof.
  induction kis as [|ki kis IH]; [reflexivity|].
  simpl. unfold seeks in *. simpl. rewrite IH. reflexivity.
Qed.

Lemma auto_stride_min total max_frames :
  1 <= total -> 1 <= max_frames ->
  Z.min max_frames (ceil_div total (Z.max 1 (total / max_frames))) =
  Z.min max_frames total.
Proof.
  intros Ht Hm.
  pose proof (Z.div_mod total max_frames ltac:(lia)) as Hdm.
  pose proof (Z.mod_pos_bound total max_frames ltac:(lia)) as Hb.
  assert (Hq : 0 <= total / max_frames) by (apply Z.div_pos; lia).
  pose proof (ceil_div_spec total (Z.max 1 (total / max_frames)) ltac:(lia)) as Hc.
  destruct (Z.le_gt_cases 1 (total / max_frames)) as [Hq1|Hq0].
  - rewrite Z.max_r in * by lia.
    assert (max_frames <= total) by nia.
    assert (max_frames <= ceil_div total (total / max_frames)) by nia.
    lia.
  - rewrite Z.max_l in * by lia.
    assert (total / max_frames = 0) by lia.
    assert (total < max_frames) by nia.
    lia.
Qed.

(** X1: with the stride omitted, on a container with at least two frames
    that all load and [max_frames >= 1], where the output directory can be
    made and its frame files written, the run returns
    [min(max_frames, total)] and saves that many files: the computed stride
    always leaves room for [max_frames] frames when the container has them. *)
Theorem auto_stride_count pil_open pil_encode gif_path max_frames output_dir
    w data im total :
  files (fs w) !! gif_path = Some data ->
  pil_open data = Some im ->
  n_frames_attr im = Some total ->
  (forall i, 0 <= i < total -> is_Some (raster im i)) ->
  2 <= total -> 1 <= max_frames ->
  can_makedirs (fs w) (resolve_output_dir gif_path output_dir) = true ->
  frames_writable (fs w) (resolve_output_dir gif_path output_dir) ->
  exists w' new,
    extract_frames pil_open pil_encode gif_path max_frames None output_dir w =
      (Return (resolve_output_dir gif_path output_dir, Z.min max_frames total), w')
    /\ calls w' = (calls w ++ new)%list
    /\ Z.of_nat (length (saves new)) = Z.min max_frames total
    /\ seeks new =
       (fun k => k * Z.max 1 (total / max_frames)) <$> seqZ 0 (Z.min max_frames total).
Proof.
  intros Hfile Hopen Htotal Hdec Ht Hm Hmk Hwr.
  assert (Hres : resolve_skip total max_frames None = Some (Z.max 1 (total / max_frames))).
  { unfold resolve_skip, Py.floordiv.
    rewrite (proj2 (Z.eqb_neq max_frames 0)) by lia. reflexivity. }
  pose proof (auto_stride_min total max_frames ltac:(lia) Hm) as Hmin.
  eexists _, _. split.
  { rewrite (extract_frames_sampling pil_open pil_encode gif_path max_frames None
               output_dir w data im total _ Hfile Hopen Htotal Hdec Ht ltac:(lia) Hres)
      by (assumption || lia).
    rewrite Hmin. reflexivity. }
  split; [reflexivity|].
  cbn [run_effect frames_effect e_calls].
  change (saves (EvOpen gif_path :: EvMakedirs ?d :: ?x)) with (saves x).
  change (seeks (EvOpen gif_path :: EvMakedirs ?d :: ?x)) with (seeks x).
  rewrite saves_frame_calls, seeks_frame_calls. split.
  - rewrite length_map, length_fmap, length_seqZ. lia.
  - change (map ?g ?l) with (g <$> l). rewrite <- list_fmap_compose. reflexivity.
Qed.

Lemma auto_stride_count_witness :
  exists w' new,
    extract_frames toy_open toy_encode "a.gif" 30 None None
      (toy_world "a.gif" (Py.zeros 59)) =
      (Return ("a_frames", 30), w')
    /\ calls w' = new
    /\ Z.of_nat (length (saves new)) = 30
    /\ seeks new = (fun k => k * 1) <$> seqZ 0 30.
Proof.
  apply (auto_stride_count toy_open toy_encode "a.gif" 30 None
           (toy_world "a.gif" (Py.zeros 59)) (Py.zeros 59)
           {| n_frames_attr := Some 59;
              first_frame := {| pixels := Some "0"; info_duration := None |};
              frame_at := toy_frame (Py.zeros 59) |} 59).
  - vm_compute. reflexivity.
  - reflexivity.
  - reflexivity.
  - intros i Hi. apply (toy_frames_decode (Py.zeros 59) i). exact Hi.
  - lia.
  - lia.
  - vm_compute. reflexivity.
  - apply frames_writable_free; reflexivity.
Defined.

(** ** Any run, whether it returns or not *)

(** X2: whatever the arguments, a run that returns [(dir, n)] tells the
    truth: [dir] is the resolved output directory and exists, [n] is the
    number of files saved and of frames sought, it is not negative and not
    above [max_frames] when that is positive (0 frames otherwise), and the
    lines printed are the five of the banner followed by the summary with
    [n] and [dir]. *)
Theorem returned_count_truthful pil_open pil_encode gif_path max_frames skip output_dir
    w dir n w' :
  extract_frames pil_open pil_encode gif_path max_frames skip output_dir w =
    (Return (dir, n), w') ->
  dir = resolve_output_dir gif_path output_dir
  /\ dir ∈ dirs (fs w')
  /\ 0 <= n <= Z.max 0 max_frames
  /\ exists new total s,
       calls w' = (calls w ++ new)%list
       /\ Z.of_nat (length (saves new)) = n
       /\ Z.of_nat (length (seeks new)) = n
       /\ stdout w' = (stdout w ++ banner gif_path total s dir ++ [summary_line n dir])%list.
Proof.
  intros H.
  destruct (extract_frames_return_inv _ _ _ _ _ _ _ _ _ H)
    as (data & im & s & l & Hfile & Hopen & Hanim & Hskip & Hrange & Hcan & Hdec).
  rewrite (extract_frames_returns pil_open pil_encode gif_path max_frames skip
             output_dir w data im s l Hfile Hopen Hanim Hskip Hrange Hcan Hdec) in H.
  injection H as <- <- <-.
  pose proof (sampled_bound max_frames l 0) as Hb.
  split; [reflexivity|]. split.
  { cbn [apply_effect fs dirs run_effect e_dirs].
    apply elem_of_union_l, output_dir_made. }
  split; [lia|].
  eexists _, (default 1 (n_frames_attr im)), s.
  split; [reflexivity|].
  cbn [run_effect frames_effect e_calls].
  change (saves (EvOpen gif_path :: EvMakedirs ?d :: ?x)) with (saves x).
  change (seeks (EvOpen gif_path :: EvMakedirs ?d :: ?x)) with (seeks x).
  rewrite saves_frame_calls, seeks_frame_calls, !length_map.
  repeat split; reflexivity.
Qed.

Lemma returned_count_truthful_witness :
  "a/anim_frames" = resolve_output_dir "a/anim.gif" None
  /\ "a/anim_frames" ∈
       dirs (fs (extract_frames toy_open toy_encode "a/anim.gif" 30 (Some 5) None
                   (toy_world "a/anim.gif" "abcdefghijkl")).2)
  /\ 0 <= 3 <= Z.max 0 30
  /\ exists new total s,
       calls (extract_frames toy_open toy_encode "a/anim.gif" 30 (Some 5) None
                (toy_world "a/anim.gif" "abcdefghijkl")).2 = ([] ++ new)%list
       /\ Z.of_nat (length (saves new)) = 3
       /\ Z.of_nat (length (seeks new)) = 3
       /\ stdout (extract_frames toy_open toy_encode "a/anim.gif" 30 (Some 5) None
                    (toy_world "a/anim.gif" "abcdefghijkl")).2 =
          ([] ++ banner "a/anim.gif" total s "a/anim_frames" ++
           [summary_line 3 "a/anim_frames"])%list.
Proof.
  apply (returned_count_truthful toy_open toy_encode "a/anim.gif" 30 (Some 5) None
           (toy_world "a/anim.gif" "abcdefghijkl")).
  vm_compute. reflexivity.
Defined.

Lemma sampled_nonpos max_frames e l :
  max_frames <= e -> sampled max_frames e l = [].
Proof.
  intros H. destruct l as [|i l]; [reflexivity|]. simpl.
  rewrite (proj2 (Z.geb_le _ _) H). reflexivity.
Qed.

Lemma range_nonzero lo hi step :
  step <> 0 -> exists l, Py.range lo hi step = Some l.
Proof.
  intros H. unfold Py.range. rewrite (proj2 (Z.eqb_neq step 0) H). eauto.
Qed.

(** X3: when the frame at the [j]-th sampled index does not load while the
    ones before it do and are saved, the run ends with the decoder's
    exception where the decoder raises it: in [seek] when the frame cannot be
    reached, in [convert], after [seek] returned, when its raster is damaged.
    The directory, the banner and the [j] files already saved stay, with
    their content, and no summary line is printed. *)
Theorem decode_failure_keeps_partial_output pil_open pil_encode gif_path max_frames skip
    output_dir w data im total s j :
  files (fs w) !! gif_path = Some data ->
  pil_open data = Some im ->
  n_frames_attr im = Some total ->
  2 <= total ->
  resolve_skip total max_frames skip = Some s -> 1 <= s ->
  0 <= j < Z.min max_frames (ceil_div total s) ->
  (forall k, 0 <= k < j -> is_Some (raster im (k * s))) ->
  raster im (j * s) = None ->
  can_makedirs (fs w) (resolve_output_dir gif_path output_dir) = true ->
  frames_writable (fs w) (resolve_output_dir gif_path output_dir) ->
  exists w' new,
    extract_frames pil_open pil_encode gif_path max_frames skip output_dir w =
      (Raise DecodeError, w')
    /\ calls w' = (calls w ++ new)%list
    /\ new = (EvOpen gif_path :: EvMakedirs (resolve_output_dir gif_path output_dir) ::
              flat_map (fun k =>
                  [EvSeek (k * s); EvConvert "RGBA";
                   EvSave (saved_path im (resolve_output_dir gif_path output_dir) k (k * s))
                          "PNG" (saved_data pil_encode im (k * s))])
                (seqZ 0 j) ++
              EvSeek (j * s) :: match frame_at im (j * s) with
                                | Some _ => [EvConvert "RGBA"]
                                | None => []
                                end)%list
    /\ Z.of_nat (length (saves new)) = j
    /\ (forall path content,
          (path, content) ∈ saves new -> files (fs w') !! path = Some content)
    /\ resolve_output_dir gif_path output_dir ∈ dirs (fs w')
    /\ stdout w' =
       (stdout w ++ banner gif_path total s (resolve_output_dir gif_path output_dir))%list.
Proof.
  intros Hfile Hopen Htotal Ht Hskip Hs Hj Hdec Hnone Hmk Hwr.
  set (od := resolve_output_dir gif_path output_dir) in *.
  set (n := Z.min max_frames (ceil_div total s)) in *.
  assert (Hdef : default 1 (n_frames_attr im) = total) by (rewrite Htotal; reflexivity).
  set (l := map (fun k => Z.of_nat k * s) (seq 0 (Z.to_nat (ceil_div total s)))).
  assert (Hl : sampled max_frames 0 l =
               ((fun k => (k, k * s)) <$> seqZ 0 j) ++
               (j, j * s) :: ((fun k => (k, k * s)) <$> seqZ (j + 1) (n - j - 1))).
  { unfold l. rewrite sampled_candidates by lia. fold n.
    replace n with (j + (n - j)) at 1 by lia.
    rewrite seqZ_app, fmap_app by lia. f_equal.
    rewrite seqZ_cons by lia. rewrite fmap_cons.
    replace (Z.succ (0 + j)) with (j + 1) by lia.
    replace (Z.pred (n - j)) with (n - j - 1) by lia.
    rewrite Z.add_0_l. reflexivity. }
  set (tail := EvSeek (j * s) :: match frame_at im (j * s) with
                                 | Some _ => [EvConvert "RGBA"]
                                 | None => []
                                 end).
  assert (Htail : saves tail = []) by (unfold tail; destruct (frame_at im (j * s)); reflexivity).
  pose proof (run_loop pil_open pil_encode gif_path max_frames skip output_dir
                w data im s l Hfile Hopen) as Hrun.
  rewrite Hdef in Hrun. cbv zeta in Hrun. fold od in Hrun.
  specialize (Hrun ltac:(lia) Hskip Hmk ltac:(apply range_up; lia)).
  rewrite (loop_trace_decode_error max_frames od _ im l 0
             ((fun k => (k, k * s)) <$> seqZ 0 j) j (j * s)
             ((fun k => (k, k * s)) <$> seqZ (j + 1) (n - j - 1)) Hl) in Hrun;
    [|apply Forall_fmap, Forall_forall; intros k Hk; apply elem_of_seqZ in Hk;
      apply frame_ok_made; split; simpl; [apply Hdec; lia | apply Hwr]
     |exact Hnone].
  cbn [fst snd] in Hrun. fold tail in Hrun.
  eexists _,
    (EvOpen gif_path :: EvMakedirs od ::
     flat_map (fun k =>
         [EvSeek (k * s); EvConvert "RGBA";
          EvSave (saved_path im od k (k * s)) "PNG" (saved_data pil_encode im (k * s))])
       (seqZ 0 j) ++ tail)%list.
  split; [exact Hrun|].
  assert (Hsaves :
    saves (EvOpen gif_path :: EvMakedirs od ::
           flat_map (fun k =>
               [EvSeek (k * s); EvConvert "RGBA";
                EvSave (saved_path im od k (k * s)) "PNG" (saved_data pil_encode im (k * s))])
             (seqZ 0 j) ++ tail)%list =
    map (fun ki => (saved_path im od ki.1 ki.2, saved_data pil_encode im ki.2))
        ((fun k => (k, k * s)) <$> seqZ 0 j)).
  { rewrite <- saves_frame_calls, flat_map_fmap.
    change (saves (EvOpen gif_path :: EvMakedirs od :: ?x)) with (saves x).
    unfold saves in Htail |- *. rewrite omap_app, Htail, app_nil_r. reflexivity. }
  split.
  { cbn [after_loop calls before_loop fst snd last_calls frames_effect e_calls].
    rewrite flat_map_fmap, <- app_assoc. reflexivity. }
  split; [reflexivity|]. rewrite Hsaves.
  split; [rewrite length_map, length_fmap, length_seqZ; lia|].
  split.
  { intros path content Hin.
    cbn [after_loop fs files before_loop fst frames_effect e_writes].
    apply write_all_lookup_nodup; [apply saved_paths_nodup | exact Hin]. }
  split.
  { cbn [after_loop fs dirs before_loop]. apply elem_of_union_l, output_dir_made. }
  cbn [after_loop stdout before_loop snd]. rewrite app_nil_r. reflexivity.
Qed.

Lemma decode_failure_keeps_partial_output_witness :
  exists w' new,
    extract_frames flawed_open toy_encode "a.gif" 30 (Some 3) (Some "out")
      (toy_world "a.gif" "abcdef!hijkl") =
      (Raise DecodeError, w')
    /\ calls w' = new
    /\ new = [EvOpen "a.gif"; EvMakedirs "out";
              EvSeek 0; EvConvert "RGBA";
              EvSave "out/frame_000_f0_d0ms.png" "PNG" "PNG:RGBA:a";
              EvSeek 3; EvConvert "RGBA";
              EvSave "out/frame_001_f3_d40ms.png" "PNG" "PNG:RGBA:d";
              EvSeek 6; EvConvert "RGBA"]
    /\ Z.of_nat (length (saves new)) = 2
    /\ (forall path content,
          (path, content) ∈ saves new -> files (fs w') !! path = Some content)
    /\ "out" ∈ dirs (fs w')
    /\ stdout w' =
       ["GIF: a.gif"; "Total frames: 12"; "Skip: every 3 frame(s)"; "Output: out"; "---"].
Proof.
  apply (decode_failure_keeps_partial_output flawed_open toy_encode "a.gif" 30 (Some 3)
           (Some "out") (toy_world "a.gif" "abcdef!hijkl") "abcdef!hijkl"
           {| n_frames_attr := Some 12;
              first_frame := {| pixels := Some "a"; info_duration := None |};
              frame_at := flawed_frame "abcdef!hijkl" |} 12 3 2).
  - vm_compute. reflexivity.
  - reflexivity.
  - reflexivity.
  - lia.
  - reflexivity.
  - lia.
  - vm_compute. split; [intros H; discriminate H | reflexivity].
  - intros k Hk. assert (k = 0 \/ k = 1) as [->| ->] by lia; vm_compute; eauto.
  - reflexivity.
  - vm_compute. reflexivity.
  - apply frames_writable_free; reflexivity.
Defined.

(** The same file with a frame that cannot be reached: the decoder raises in
    [seek], and nothing is converted for that frame. *)
Example scenario_seek_raises :
  (extract_frames flawed_open toy_encode "a.gif" 30 (Some 3) (Some "out")
     (toy_world "a.gif" "abc?efghijkl")).1 = Raise DecodeError
  /\ calls (extract_frames flawed_open toy_encode "a.gif" 30 (Some 3) (Some "out")
             (toy_world "a.gif" "abc?efghijkl")).2 =
     [EvOpen "a.gif"; EvMakedirs "out";
      EvSeek 0; EvConvert "RGBA";
      EvSave "out/frame_000_f0_d0ms.png" "PNG" "PNG:RGBA:a";
      EvSeek 3].
Proof. split; reflexivity. Qed.

(** X4: a stride of zero given by the caller passes both checks and is only
    refused by [range]: where the output directory can be made, the run ends
    with [ValueError] after the directory has been created, with its missing
    parents, and the five lines printed (among them
    "Skip: every 0 frame(s)"); no frame is sought or saved. *)
Theorem zero_stride_raises_after_makedirs pil_open pil_encode gif_path max_frames
    output_dir w data im :
  files (fs w) !! gif_path = Some data ->
  pil_open data = Some im ->
  default 1 (n_frames_attr im) <> 1 ->
  can_makedirs (fs w) (resolve_output_dir gif_path output_dir) = true ->
  extract_frames pil_open pil_encode gif_path max_frames (Some 0) output_dir w =
    (Raise ValueError,
     {| fs := {| dirs := made_dirs (resolve_output_dir gif_path output_dir) ∪ dirs (fs w);
                 files := files (fs w);
                 refused := refused (fs w) |};
        stdout := stdout w ++
                  banner gif_path (default 1 (n_frames_attr im)) 0
                    (resolve_output_dir gif_path output_dir);
        calls := calls w ++
                 [EvOpen gif_path; EvMakedirs (resolve_output_dir gif_path output_dir)] |}).
Proof.
  intros Hfile Hopen Hanim Hmk.
  apply (run_zero_stride pil_open pil_encode gif_path max_frames (Some 0) output_dir
           w data im 0 Hfile Hopen Hanim eq_refl Hmk).
  reflexivity.
Qed.

Lemma zero_stride_raises_after_makedirs_witness :
  extract_frames toy_open toy_encode "a.gif" 30 (Some 0) (Some "out/frames")
    (toy_world "a.gif" "abc") =
    (Raise ValueError,
     {| fs := {| dirs := made_dirs "out/frames" ∪ ∅; files := {[ "a.gif" := "abc" ]};
                 refused := ∅ |};
        stdout := ["GIF: a.gif"; "Total frames: 3"; "Skip: every 0 frame(s)";
                   "Output: out/frames"; "---"];
        calls := [EvOpen "a.gif"; EvMakedirs "out/frames"] |}).
Proof.
  apply (zero_stride_raises_after_makedirs toy_open toy_encode "a.gif" 30
           (Some "out/frames") (toy_world "a.gif" "abc") "abc"
           {| n_frames_attr := Some 3;
              first_frame := {| pixels := Some "a"; info_duration := None |};
              frame_at := toy_frame "abc" |}).
  - vm_compute. reflexivity.
  - reflexivity.
  - vm_compute. intros H. discriminate H.
  - vm_compute. reflexivity.
Defined.

(** X5: [max_frames <= 0] is not refused.  With a non-zero stride (given, or
    computed, which needs [max_frames <> 0]), where the output directory can
    be made, the run passes the checks, creates the directory with its
    missing parents, breaks out of the loop before the first frame and
    returns [(output_dir, 0)] with the summary "Extracted 0 frames": a
    success that writes nothing. *)
Theorem nonpositive_max_frames_extracts_nothing pil_open pil_encode gif_path max_frames
    skip output_dir w data im s :
  files (fs w) !! gif_path = Some data ->
  pil_open data = Some im ->
  default 1 (n_frames_attr im) <> 1 ->
  max_frames <= 0 ->
  resolve_skip (default 1 (n_frames_attr im)) max_frames skip = Some s ->
  s <> 0 ->
  can_makedirs (fs w) (resolve_output_dir gif_path output_dir) = true ->
  extract_frames pil_open pil_encode gif_path max_frames skip output_dir w =
    (Return (resolve_output_dir gif_path output_dir, 0),
     {| fs := {| dirs := made_dirs (resolve_output_dir gif_path output_dir) ∪ dirs (fs w);
                 files := files (fs w);
                 refused := refused (fs w) |};
        stdout := stdout w ++
                  banner gif_path (default 1 (n_frames_attr im)) s
                    (resolve_output_dir gif_path output_dir) ++
                  [summary_line 0 (resolve_output_dir gif_path output_dir)];
        calls := calls w ++
                 [EvOpen gif_path; EvMakedirs (resolve_output_dir gif_path output_dir)] |}).
Proof.
  intros Hfile Hopen Hanim Hm Hskip Hs Hmk.
  destruct (range_nonzero 0 (default 1 (n_frames_attr im)) s Hs) as [l Hrange].
  rewrite (extract_frames_returns pil_open pil_encode gif_path max_frames skip
             output_dir w data im s l Hfile Hopen Hanim Hskip Hrange Hmk);
    rewrite (sampled_nonpos max_frames 0 l Hm); [reflexivity | constructor].
Qed.

Lemma nonpositive_max_frames_extracts_nothing_witness :
  extract_frames toy_open toy_encode "a.gif" (-3) None None (toy_world "a.gif" "abcde") =
    (Return ("a_frames", 0),
     {| fs := {| dirs := made_dirs "a_frames" ∪ ∅; files := {[ "a.gif" := "abcde" ]};
                 refused := ∅ |};
        stdout := ["GIF: a.gif"; "Total frames: 5"; "Skip: every 1 frame(s)";
                   "Output: a_frames"; "---"; "Extracted 0 frames to a_frames"];
        calls := [EvOpen "a.gif"; EvMakedirs "a_frames"] |}).
Proof.
  apply (nonpositive_max_frames_extracts_nothing toy_open toy_encode "a.gif" (-3) None None
           (toy_world "a.gif" "abcde") "abcde"
           {| n_frames_attr := Some 5;
              first_frame := {| pixels := Some "a"; info_duration := None |};
              frame_at := toy_frame "abcde" |} 1).
  - vm_compute. reflexivity.
  - reflexivity.
  - vm_compute. intros H. discriminate H.
  - lia.
  - reflexivity.
  - lia.
  - vm_compute. reflexivity.
Defined.

(** X6: when the decoder refuses the file, its exception leaves
    [extract_frames] right after the call: nothing is printed, no directory is
    created, no file written, and the process ends with status 1. *)
Theorem undecodable_file_raises pil_open pil_encode gif_path max_frames skip output_dir
    w data :
  files (fs w) !! gif_path = Some data ->
  pil_open data = None ->
  extract_frames pil_open pil_encode gif_path max_frames skip output_dir w =
    (Raise DecodeError,
     {| fs := fs w; stdout := stdout w; calls := calls w ++ [EvOpen gif_path] |})
  /\ forall py_int prog args o,
       scan_args py_int args 0 default_options = Return o ->
       run_script pil_open pil_encode py_int (prog :: gif_path :: args) w =
         (1, {| fs := fs w; stdout := stdout w; calls := calls w ++ [EvOpen gif_path] |}).
Proof.
  intros Hfile Hopen.
  assert (Hrun : forall max_frames skip output_dir,
    extract_frames pil_open pil_encode gif_path max_frames skip output_dir w =
    (Raise DecodeError,
     {| fs := fs w; stdout := stdout w; calls := calls w ++ [EvOpen gif_path] |})).
  { intros m sk od. unfold extract_frames.
    rewrite (bind_return _ _ _ _ _ (path_exists_file _ _ _ Hfile)). cbv beta.
    unfold negb. cbv iota.
    apply bind_raise. unfold image_open. rewrite Hfile, Hopen. reflexivity. }
  split; [apply Hrun|].
  intros py_int prog args o Hscan.
  rewrite (run_script_extract _ _ _ _ _ _ _ _ Hscan), Hrun. reflexivity.
Qed.

Lemma undecodable_file_raises_witness :
  extract_frames toy_open toy_encode "empty.gif" 30 None None (toy_world "empty.gif" "") =
    (Raise DecodeError,
     {| fs := fs (toy_world "empty.gif" ""); stdout := []; calls := [EvOpen "empty.gif"] |})
  /\ forall py_int prog args o,
       scan_args py_int args 0 default_options = Return o ->
       run_script toy_open toy_encode py_int (prog :: "empty.gif" :: args)
         (toy_world "empty.gif" "") =
         (1, {| fs := fs (toy_world "empty.gif" ""); stdout := [];
                calls := [EvOpen "empty.gif"] |}).
Proof.
  apply (undecodable_file_raises toy_open toy_encode "empty.gif" 30 None None
           (toy_world "empty.gif" "") "").
  - vm_compute. reflexivity.
  - reflexivity.
Defined.

(** ** What a run never does *)

Lemma exits_one_bind {A B} (m : M A) (k : A -> M B) :
  exits_one m -> (forall a, exits_one (k a)) -> exits_one (m ≫= k).
Proof.
  intros Hm Hk w code w' H. unfold mbind, M_bind in H.
  destruct (m w) as [[a|c|e] w0] eqn:E.
  - exact (Hk a _ _ _ H).
  - injection H as <- _. exact (Hm _ _ _ E).
  - discriminate H.
Qed.

Lemma exits_one_ret {A} (a : A) : exits_one (mret a).
Proof. intros w code w' H. discriminate H. Qed.

Lemma exits_one_raise {A} e : exits_one (@raise A e).
Proof. intros w code w' H. discriminate H. Qed.

Lemma exits_one_or_raise {A} (o : option A) e : exits_one (or_raise o e).
Proof. destruct o; [apply exits_one_ret | apply exits_one_raise]. Qed.

Lemma exits_one_exit {A} : exits_one (@sys_exit A 1).
Proof. intros w code w' H. injection H as <- _. reflexivity. Qed.

Lemma exits_one_print line : exits_one (print line).
Proof. intros w code w' H. discriminate H. Qed.

Lemma exits_one_log e : exits_one (log e).
Proof. intros w code w' H. discriminate H. Qed.

Lemma exits_one_makedirs dir : exits_one (makedirs dir).
Proof.
  intros w code w' H. destruct (makedirs_cases dir w) as (r & f & Hr & [[-> _]|[-> _]] & _);
    rewrite Hr in H; discriminate H.
Qed.

Lemma exits_one_save pil_encode frame out format :
  exits_one (save pil_encode frame out format).
Proof.
  intros w code w' H. unfold save in H.
  destruct (can_save (fs w) out); discriminate H.
Qed.

Lemma exits_one_path_exists path : exits_one (path_exists path).
Proof. intros w code w' H. discriminate H. Qed.

Lemma exits_one_image_open pil_open path : exits_one (image_open pil_open path).
Proof.
  intros w code w' H. unfold image_open in H.
  destruct (files (fs w) !! path) as [data|]; [|discriminate H].
  destruct (pil_open data); discriminate H.
Qed.

Lemma exits_one_for_each {S} (body : Z -> S -> M (flow S)) l :
  (forall i s, exits_one (body i s)) -> forall s, exits_one (for_each body l s).
Proof.
  intros Hbody. induction l as [|i l IH]; intros s; simpl.
  - apply exits_one_ret.
  - apply exits_one_bind; [apply Hbody|].
    intros [s'|s']; [apply IH | apply exits_one_ret].
Qed.

Ltac exits_one_steps :=
  repeat first
    [ apply exits_one_ret | apply exits_one_exit | apply exits_one_print
    | apply exits_one_log | apply exits_one_save | apply exits_one_makedirs
    | apply exits_one_or_raise | apply exits_one_path_exists
    | apply exits_one_image_open
    | apply exits_one_bind; [|intros ?] ].

Lemma exits_one_loop_body pil_encode max_frames output_dir i st :
  exits_one (loop_body pil_encode max_frames output_dir i st).
Proof.
  unfold loop_body. destruct (extracted st >=? max_frames).
  - apply exits_one_ret.
  - unfold seek, convert. exits_one_steps.
Qed.

Lemma exits_one_extract_frames pil_open pil_encode gif_path max_frames skip output_dir :
  exits_one (extract_frames pil_open pil_encode gif_path max_frames skip output_dir).
Proof.
  unfold extract_frames.
  apply exits_one_bind; [apply exits_one_path_exists|]. intros found.
  destruct found; unfold negb; [|exits_one_steps].
  apply exits_one_bind; [apply exits_one_image_open|]. intros img0.
  destruct (default 1 (n_frames_attr (image img0)) =? 1); [exits_one_steps|].
  repeat first
    [ apply exits_one_for_each; intros; apply exits_one_loop_body
    | apply exits_one_ret | apply exits_one_print | apply exits_one_makedirs
    | apply exits_one_or_raise
    | apply exits_one_bind; [|intros ?] ].
Qed.

(** The scanner returns or raises [ValueError]; it never exits. *)
Lemma scan_args_outcome py_int args :
  forall n i o,
    (length args - i = n)%nat ->
    (exists o', scan_args py_int args i o = Return o')
    \/ scan_args py_int args i o = Raise ValueError.
Proof.
  induction n as [n IH] using lt_wf_ind. intros i o Hn.
  rewrite scan_args_equation_1. unfold scan_args_unfold_clause_1.
  destruct (decide (i < length args)%nat) as [Hlt|Hge]; [|left; eauto].
  repeat match goal with
         | |- context [if ?b then _ else _] => destruct b
         end;
    try destruct (py_int (arg_at args (i + 1)));
    try (right; reflexivity);
    (eapply IH; [|reflexivity]; lia).
Qed.

Lemma exits_one_main pil_open pil_encode py_int argv :
  exits_one (main pil_open pil_encode py_int argv).
Proof.
  unfold main. destruct (length argv <? 2)%nat; [exits_one_steps|].
  apply exits_one_bind.
  - intros w code w' H. unfold lift_outcome in H.
    destruct (scan_args_outcome py_int (drop 2 argv) _ 0 default_options eq_refl)
      as [[o' Ho]|Ho]; rewrite Ho in H; discriminate H.
  - intros o. apply exits_one_bind; [apply exits_one_extract_frames|].
    intros ?. apply exits_one_ret.
Qed.

(** The world a returning run leaves. *)
Lemma extract_frames_return_world pil_open pil_encode gif_path max_frames skip output_dir
    w v w' :
  extract_frames pil_open pil_encode gif_path max_frames skip output_dir w =
    (Return v, w') ->
  exists im s kis,
    v = (resolve_output_dir gif_path output_dir, Z.of_nat (length kis))
    /\ w' = apply_effect
              (run_effect pil_encode im gif_path (default 1 (n_frames_attr im)) s
                 (resolve_output_dir gif_path output_dir) kis) w.
Proof.
  intros H.
  destruct (extract_frames_return_inv _ _ _ _ _ _ _ _ _ H)
    as (data & im & s & l & Hfile & Hopen & Hanim & Hskip & Hrange & Hcan & Hdec).
  rewrite (extract_frames_returns pil_open pil_encode gif_path max_frames skip
             output_dir w data im s l Hfile Hopen Hanim Hskip Hrange Hcan Hdec) in H.
  injection H as <- <-. exists im, s, (sampled max_frames 0 l). split; reflexivity.
Qed.

(** X7: whatever the command line and the world, the process ends with
    status 0 or 1.  Status 0 means that a container path was given, that the
    output directory exists when the process ends and that the last line
    printed is the summary "Extracted n frames to dir". *)
Theorem exit_status_zero_or_one pil_open pil_encode py_int argv w :
  ((run_script pil_open pil_encode py_int argv w).1 = 0
   \/ (run_script pil_open pil_encode py_int argv w).1 = 1)
  /\ ((run_script pil_open pil_encode py_int argv w).1 = 0 ->
      (2 <= length argv)%nat
      /\ exists dir n,
           dir ∈ dirs (fs (run_script pil_open pil_encode py_int argv w).2)
           /\ last (stdout (run_script pil_open pil_encode py_int argv w).2) =
              Some (summary_line n dir)).
Proof.
  unfold run_script.
  destruct (main pil_open pil_encode py_int argv w) as [r w'] eqn:E.
  cbn [fst snd]. split.
  - destruct r as [u|code|e]; simpl; [left; reflexivity | right | right; reflexivity].
    exact (exits_one_main _ _ _ _ _ _ _ E).
  - intros Hzero.
    destruct r as [u|code|e]; simpl in Hzero; [| |discriminate Hzero].
    2:{ pose proof (exits_one_main _ _ _ _ _ _ _ E). lia. }
    unfold main in E.
    destruct (Nat.ltb_spec (length argv) 2) as [Hshort|Hlong].
    { apply bind_inv_return in E as (? & ? & _ & E). discriminate E. }
    split; [exact Hlong|].
    apply bind_inv_return in E as (o & w0 & Hscan & E).
    unfold lift_outcome in Hscan. injection Hscan as _ <-.
    apply bind_inv_return in E as (v & w1 & Hrun & E).
    unfold mret, M_ret in E. injection E as _ <-.
    apply extract_frames_return_world in Hrun as (im & s & kis & -> & ->).
    eexists _, _. split.
    + cbn [apply_effect fs dirs run_effect e_dirs].
      apply elem_of_union_l, output_dir_made.
    + cbn [apply_effect stdout run_effect e_out].
      rewrite !app_assoc. apply last_snoc.
Qed.

(** X8: started without a container path (nothing on the command line beyond
    the program name, or not even that), the script prints its docstring as
    the usage text and exits with status 1; it scans no argument, opens
    nothing and leaves the filesystem alone. *)
Theorem no_argument_prints_usage pil_open pil_encode py_int argv w :
  (length argv < 2)%nat ->
  run_script pil_open pil_encode py_int argv w =
    (1, {| fs := fs w; stdout := stdout w ++ [module_doc]; calls := calls w |}).
Proof.
  intros H. unfold run_script, main.
  rewrite (proj2 (Nat.ltb_lt _ _) H). reflexivity.
Qed.

Lemma no_argument_prints_usage_witness :
  run_script toy_open toy_encode dec_int ["extract-gif-frames.py"]
    (toy_world "a.gif" "abc") =
    (1, {| fs := fs (toy_world "a.gif" "abc"); stdout := [module_doc]; calls := [] |}).
Proof.
  apply (no_argument_prints_usage toy_open toy_encode dec_int ["extract-gif-frames.py"]
           (toy_world "a.gif" "abc")).
  simpl. lia.
Defined.

Lemma confined_bind od {A B} (m : M A) (k : A -> M B) :
  confined od m -> (forall a, confined od (k a)) -> confined od (m ≫= k).
Proof.
  intros Hm Hk w r w' H. unfold mbind, M_bind in H.
  destruct (m w) as [[a|code|e] w0] eqn:E.
  - destruct (Hm _ _ _ E) as (d1 & -> & Hd1 & Hw1 & Hc1).
    destruct (Hk a _ _ _ H) as (d2 & -> & Hd2 & Hw2 & Hc2).
    exists (then_effect d1 d2). split; [symmetry; apply apply_then_effect|].
    split; [|split].
    + simpl. apply union_least; assumption.
    + unfold then_effect, saves. simpl. rewrite omap_app. f_equal; assumption.
    + simpl. apply Forall_app. split; assumption.
  - injection H as <- <-. exact (Hm _ _ _ E).
  - injection H as <- <-. exact (Hm _ _ _ E).
Qed.

Lemma confined_effect od {A} (c : M A) d :
  e_dirs d ⊆ made_dirs od ->
  e_writes d = saves (e_calls d) ->
  Forall (under_output_dir od) (e_calls d) ->
  (forall w, exists r, c w = (r, apply_effect d w)) -> confined od c.
Proof.
  intros Hd Hw Hcalls Hc w r w' H. destruct (Hc w) as [r0 Hr]. rewrite Hr in H.
  injection H as _ <-. exists d. repeat split; assumption.
Qed.

Lemma confined_pure od {A} (c : M A) :
  (forall w, exists r, c w = (r, w)) -> confined od c.
Proof.
  intros Hc. apply (confined_effect od c no_effect);
    [apply empty_subseteq | reflexivity | constructor|].
  intros w. rewrite apply_no_effect. apply Hc.
Qed.

Lemma confined_ret od {A} (a : A) : confined od (mret a).
Proof. apply confined_pure. intros w. eexists. reflexivity. Qed.

Lemma confined_raise od {A} e : confined od (@raise A e).
Proof. apply confined_pure. intros w. eexists. reflexivity. Qed.

Lemma confined_exit od {A} code : confined od (@sys_exit A code).
Proof. apply confined_pure. intros w. eexists. reflexivity. Qed.

Lemma confined_or_raise od {A} (o : option A) e : confined od (or_raise o e).
Proof. destruct o; [apply confined_ret | apply confined_raise]. Qed.

Lemma confined_path_exists od path : confined od (path_exists path).
Proof. apply confined_pure. intros w. eexists. reflexivity. Qed.

Lemma apply_calls_effect evs w :
  apply_effect {| e_dirs := ∅; e_writes := []; e_out := []; e_calls := evs |} w =
  {| fs := fs w; stdout := stdout w; calls := calls w ++ evs |}.
Proof.
  destruct w as [[d f rf] o c]. unfold apply_effect, write_all. simpl.
  rewrite union_empty_l_L, app_nil_r. reflexivity.
Qed.

Lemma confined_print od line : confined od (print line).
Proof.
  apply (confined_effect od _
           {| e_dirs := ∅; e_writes := []; e_out := [line]; e_calls := [] |});
    [apply empty_subseteq | reflexivity | constructor|].
  intros [[d f rf] o c]. exists (Return tt). unfold print, apply_effect, write_all. simpl.
  rewrite union_empty_l_L, app_nil_r. reflexivity.
Qed.

Lemma confined_log od e :
  under_output_dir od e -> saves [e] = [] -> confined od (log e).
Proof.
  intros He Hs.
  apply (confined_effect od _
           {| e_dirs := ∅; e_writes := []; e_out := []; e_calls := [e] |});
    [apply empty_subseteq | symmetry; exact Hs | constructor; [exact He | constructor]|].
  intros w. exists (Return tt). rewrite apply_calls_effect. reflexivity.
Qed.

Lemma confined_makedirs od : confined od (makedirs od).
Proof.
  intros w r w' H.
  destruct (makedirs_cases od w) as (r0 & f & Hr & _ & Hf & Hrf & Hlo & Hhi).
  rewrite Hr in H. injection H as _ <-.
  exists {| e_dirs := dirs f ∩ made_dirs od; e_writes := []; e_out := [];
            e_calls := [EvMakedirs od] |}.
  split; [|split; [|split]].
  - unfold apply_effect, write_all. simpl. rewrite app_nil_r. f_equal.
    destruct f as [fd ff fr]. simpl in *. subst ff fr. f_equal.
    apply set_eq. intros x. rewrite elem_of_union, elem_of_intersection.
    split.
    + intros Hx. pose proof (Hhi x Hx) as Hx'.
      apply elem_of_union in Hx' as [Hm|Hin]; [left; split|right]; assumption.
    + intros [[Hx _]|Hx]; [exact Hx | apply Hlo, Hx].
  - simpl. apply intersection_subseteq_r.
  - reflexivity.
  - constructor; [reflexivity | constructor].
Qed.

Lemma confined_save od pil_encode frame k i d format :
  confined od (save pil_encode frame (OsPath.join od (frame_name k i d)) format).
Proof.
  intros w r w' H. unfold save in H.
  destruct (can_save (fs w) (OsPath.join od (frame_name k i d))); injection H as _ <-.
  - exists {| e_dirs := ∅;
              e_writes := [(OsPath.join od (frame_name k i d), pil_encode format frame)];
              e_out := [];
              e_calls := [EvSave (OsPath.join od (frame_name k i d)) format
                                 (pil_encode format frame)] |}.
    split; [|split; [|split]].
    + unfold apply_effect, write_all. simpl. rewrite union_empty_l_L, app_nil_r.
      reflexivity.
    + apply empty_subseteq.
    + reflexivity.
    + constructor; [simpl; eauto | constructor].
  - exists {| e_dirs := ∅; e_writes := []; e_out := [];
              e_calls := [EvSaveFailed (OsPath.join od (frame_name k i d)) format] |}.
    split; [|split; [|split]].
    + rewrite apply_calls_effect. reflexivity.
    + apply empty_subseteq.
    + reflexivity.
    + constructor; [simpl; eauto | constructor].
Qed.

Lemma confined_image_open od pil_open path : confined od (image_open pil_open path).
Proof.
  apply (confined_effect od _
           {| e_dirs := ∅; e_writes := []; e_out := []; e_calls := [EvOpen path] |});
    [apply empty_subseteq | reflexivity | constructor; [exact I | constructor]|].
  intros w. rewrite apply_calls_effect. unfold image_open.
  destruct (files (fs w) !! path) as [data|]; [destruct (pil_open data)|];
    eexists; reflexivity.
Qed.

Lemma confined_for_each od {S} (body : Z -> S -> M (flow S)) l :
  (forall i s, confined od (body i s)) -> forall s, confined od (for_each body l s).
Proof.
  intros Hbody. induction l as [|i l IH]; intros s; simpl.
  - apply confined_ret.
  - apply confined_bind; [apply Hbody|].
    intros [s'|s']; [apply IH | apply confined_ret].
Qed.

Lemma confined_loop_body pil_encode max_frames od i st :
  confined od (loop_body pil_encode max_frames od i st).
Proof.
  unfold loop_body. destruct (extracted st >=? max_frames).
  - apply confined_ret.
  - unfold seek, convert.
    repeat first
      [ apply confined_ret | apply confined_log; [exact I | reflexivity]
      | apply confined_save
      | apply confined_or_raise
      | apply confined_bind; [|intros ?] ].
Qed.

Lemma confined_extract_frames pil_open pil_encode gif_path max_frames skip output_dir :
  confined (resolve_output_dir gif_path output_dir)
    (extract_frames pil_open pil_encode gif_path max_frames skip output_dir).
Proof.
  unfold extract_frames.
  apply confined_bind; [apply confined_path_exists|]. intros found.
  destruct found; unfold negb.
  - apply confined_bind; [apply confined_image_open|]. intros img0.
    destruct (default 1 (n_frames_attr (image img0)) =? 1).
    + apply confined_bind; [apply confined_print | intros _; apply confined_exit].
    + repeat first
        [ apply confined_for_each; intros; apply confined_loop_body
        | apply confined_ret | apply confined_print | apply confined_makedirs
        | apply confined_or_raise
        | apply confined_bind; [|intros ?] ].
  - apply confined_bind; [apply confined_print | intros _; apply confined_exit].
Qed.

Lemma parents_from_prefix seen rest d :
  d ∈ OsPath.parents_from seen rest -> exists r, seen +:+ rest = d +:+ r.
Proof.
  revert seen. induction rest as [|c rest IH]; intros seen Hin; simpl in Hin.
  - apply elem_of_nil in Hin. destruct Hin.
  - assert (Hmore : d ∈ OsPath.parents_from (seen +:+ String c "") rest ->
                    exists r, seen +:+ String c rest = d +:+ r).
    { intros H. apply IH in H as [r Hr]. exists r. rewrite <- Hr.
      rewrite string_app_assoc. reflexivity. }
    destruct (Ascii.eqb c "/" && negb (String.eqb seen "") && negb (Py.endswith_sep seen)).
    + apply elem_of_cons in Hin as [->|Hin]; [eexists; reflexivity | auto].
    + auto.
Qed.

(** What [makedirs] makes is the directory or a leading part of its path. *)
Lemma made_dirs_prefix od d : d ∈ made_dirs od -> exists rest, od = d +:+ rest.
Proof.
  unfold made_dirs. rewrite elem_of_list_to_set, elem_of_app, (list_elem_of_singleton d od).
  intros [H| ->].
  - apply parents_from_prefix in H. exact H.
  - exists "". clear. induction od as [|c od IH]; [reflexivity|].
    change (String c od +:+ "") with (String c (od +:+ "")). rewrite <- IH. reflexivity.
Qed.

(** X9: however a run ends, it only adds to the world.  The lines printed
    and the calls made extend the ones before; the only directories it may
    add are the resolved output directory and its parents, each a leading
    part of its path; every file it
    saves, and every file it fails to save, is named
    [frame_..._f..._d...ms.png] inside that directory; a path it does not
    save keeps its content, and no file disappears. *)
Theorem run_stays_in_output_dir pil_open pil_encode gif_path max_frames skip output_dir
    w r w' :
  extract_frames pil_open pil_encode gif_path max_frames skip output_dir w = (r, w') ->
  exists out new,
    stdout w' = (stdout w ++ out)%list
    /\ calls w' = (calls w ++ new)%list
    /\ dirs (fs w) ⊆ dirs (fs w')
    /\ dirs (fs w') ⊆ made_dirs (resolve_output_dir gif_path output_dir) ∪ dirs (fs w)
    /\ (forall d, d ∈ made_dirs (resolve_output_dir gif_path output_dir) ->
          exists rest, resolve_output_dir gif_path output_dir = d +:+ rest)
    /\ Forall (under_output_dir (resolve_output_dir gif_path output_dir)) new
    /\ (forall path content,
          (path, content) ∈ saves new ->
          exists k i d,
            path = OsPath.join (resolve_output_dir gif_path output_dir) (frame_name k i d))
    /\ (forall path, path ∉ (saves new).*1 ->
          files (fs w') !! path = files (fs w) !! path)
    /\ (forall path, is_Some (files (fs w) !! path) -> is_Some (files (fs w') !! path)).
Proof.
  intros H.
  destruct (confined_extract_frames _ _ _ _ _ _ _ _ _ H) as (d & -> & Hdirs & Hd & Hall).
  exists (e_out d), (e_calls d).
  split; [reflexivity|]. split; [reflexivity|].
  split; [apply union_subseteq_r|].
  split; [simpl; apply union_mono_r; exact Hdirs|].
  split; [apply made_dirs_prefix|]. split; [exact Hall|].
  split; [|split].
  - intros path content Hin. unfold saves in Hin.
    apply list_elem_of_omap in Hin as (e & He & Hsome).
    rewrite Forall_forall in Hall. specialize (Hall e He).
    destruct e; try discriminate Hsome. injection Hsome as <- _. exact Hall.
  - intros path Hp. cbn [apply_effect fs files]. rewrite Hd.
    apply write_all_lookup_other. exact Hp.
  - intros path Hp. cbn [apply_effect fs files]. apply write_all_lookup_kept. exact Hp.
Qed.

Lemma run_stays_in_output_dir_witness :
  exists out new,
    stdout example_run.2 = ([] ++ out)%list
    /\ calls example_run.2 = ([] ++ new)%list
    /\ dirs (fs (toy_world "a/anim.gif" "abcdefghijkl")) ⊆ dirs (fs example_run.2)
    /\ dirs (fs example_run.2) ⊆
       made_dirs (resolve_output_dir "a/anim.gif" None) ∪
       dirs (fs (toy_world "a/anim.gif" "abcdefghijkl"))
    /\ (forall d, d ∈ made_dirs (resolve_output_dir "a/anim.gif" None) ->
          exists rest, resolve_output_dir "a/anim.gif" None = d +:+ rest)
    /\ Forall (under_output_dir (resolve_output_dir "a/anim.gif" None)) new
    /\ (forall path content,
          (path, content) ∈ saves new ->
          exists k i d,
            path = OsPath.join (resolve_output_dir "a/anim.gif" None) (frame_name k i d))
    /\ (forall path, path ∉ (saves new).*1 ->
          files (fs example_run.2) !! path =
          files (fs (toy_world "a/anim.gif" "abcdefghijkl")) !! path)
    /\ (forall path,
          is_Some (files (fs (toy_world "a/anim.gif" "abcdefghijkl")) !! path) ->
          is_Some (files (fs example_run.2) !! path)).
Proof.
  apply (run_stays_in_output_dir toy_open toy_encode "a/anim.gif" 30 (Some 5) None
           (toy_world "a/anim.gif" "abcdefghijkl") example_run.1).
  vm_compute. reflexivity.
Defined.

(** A frame file can be written once the directory is made exactly when it
    could before. *)
Lemma can_save_made f od k i d :
  can_save {| dirs := made_dirs od ∪ dirs f; files := files f; refused := refused f |}
           (OsPath.join od (frame_name k i d)) =
  can_save f (OsPath.join od (frame_name k i d)).
Proof.
  unfold can_save. simpl. f_equal. apply bool_decide_ext.
  rewrite elem_of_union. pose proof (frame_path_not_made od k i d). tauto.
Qed.

(** Where only the output directory and its parents are directories and
    nothing is refused, every frame file can be written. *)
Lemma frames_writable_made f od :
  dirs f ⊆ made_dirs od -> refused f = ∅ -> frames_writable f od.
Proof.
  intros Hd Hr k i d. unfold can_save. rewrite Hr.
  rewrite (bool_decide_eq_true_2 (_ ∉ ∅)) by apply not_elem_of_empty.
  rewrite andb_true_r. apply bool_decide_eq_true.
  intros Hin. apply (frame_path_not_made od k i d), Hd, Hin.
Qed.

(** X10: the run reads the world through the input path and through what the
    filesystem allows at the output directory, and through nothing else.  In
    two worlds where the input path denotes the same thing, and where the
    output directory can be made and each of its frame files written in one
    exactly when in the other, whatever else they hold (files already in the
    output directory, earlier output, earlier calls), the two runs end in the
    same way, print the same lines and make the same calls. *)
Theorem run_reads_input_and_output_dir pil_open pil_encode gif_path max_frames skip
    output_dir w1 w2 :
  same_input gif_path w1 w2 ->
  same_output (resolve_output_dir gif_path output_dir) w1 w2 ->
  exists r out new w1' w2',
    extract_frames pil_open pil_encode gif_path max_frames skip output_dir w1 = (r, w1')
    /\ extract_frames pil_open pil_encode gif_path max_frames skip output_dir w2 = (r, w2')
    /\ stdout w1' = (stdout w1 ++ out)%list /\ stdout w2' = (stdout w2 ++ out)%list
    /\ calls w1' = (calls w1 ++ new)%list /\ calls w2' = (calls w2 ++ new)%list.
Proof.
  intros [Hdir Hfiles] [Hmk Hsave].
  set (od := resolve_output_dir gif_path output_dir) in *.
  destruct (files (fs w1) !! gif_path) as [data|] eqn:Hfile; symmetry in Hfiles.
  2:{ destruct (decide (gif_path ∈ dirs (fs w1))) as [Hd|Hd].
      - exists (Raise DecodeError), [], [EvOpen gif_path]. eexists _, _.
        split; [apply run_unreadable; [left; exact Hd | rewrite Hfile; reflexivity]|].
        split; [apply run_unreadable;
                [left; apply Hdir; exact Hd | rewrite Hfiles; reflexivity]|].
        simpl. rewrite !app_nil_r. repeat split; reflexivity.
      - exists (SysExit 1), ["Error: File not found: " +:+ gif_path], []. eexists _, _.
        split; [apply run_missing; assumption|].
        split; [apply run_missing; [rewrite <- Hdir; exact Hd | exact Hfiles]|].
        simpl. rewrite !app_nil_r. repeat split; reflexivity. }
  destruct (pil_open data) as [im|] eqn:Hopen.
  2:{ exists (Raise DecodeError), [], [EvOpen gif_path]. eexists _, _.
      split; [apply run_unreadable;
              [right; rewrite Hfile; eauto | rewrite Hfile; simpl; exact Hopen]|].
      split; [apply run_unreadable;
              [right; rewrite Hfiles; eauto | rewrite Hfiles; simpl; exact Hopen]|].
      simpl. rewrite !app_nil_r. repeat split; reflexivity. }
  destruct (Z.eq_dec (default 1 (n_frames_attr im)) 1) as [Hone|Hanim].
  { exists (SysExit 1), ["Error: Not an animated GIF (only 1 frame)"], [EvOpen gif_path].
    eexists _, _.
    split; [apply (run_single _ _ _ _ _ _ w1 data im); assumption|].
    split; [apply (run_single _ _ _ _ _ _ w2 data im); assumption|].
    repeat split; reflexivity. }
  destruct (resolve_skip (default 1 (n_frames_attr im)) max_frames skip) as [s|] eqn:Hskip.
  2:{ exists (Raise ZeroDivisionError), [], [EvOpen gif_path]. eexists _, _.
      split; [apply (run_no_stride _ _ _ _ _ _ w1 data im); assumption|].
      split; [apply (run_no_stride _ _ _ _ _ _ w2 data im); assumption|].
      simpl. rewrite !app_nil_r. repeat split; reflexivity. }
  destruct (can_makedirs (fs w1) od) eqn:Hcan; symmetry in Hmk.
  2:{ destruct (makedirs_raises od (opened gif_path w1) Hcan) as (f1 & Hmk1 & _).
      destruct (makedirs_raises od (opened gif_path w2) Hmk) as (f2 & Hmk2 & _).
      exists (Raise OSError), [], [EvOpen gif_path; EvMakedirs od]. eexists _, _.
      split; [apply (run_makedirs_raises _ _ _ _ _ _ w1 data im s); eassumption|].
      split; [apply (run_makedirs_raises _ _ _ _ _ _ w2 data im s); eassumption|].
      simpl. rewrite !app_nil_r, <- !app_assoc. repeat split; reflexivity. }
  destruct (Py.range 0 (default 1 (n_frames_attr im)) s) as [l|] eqn:Hrange.
  2:{ exists (Raise ValueError), (banner gif_path (default 1 (n_frames_attr im)) s od),
             [EvOpen gif_path; EvMakedirs od]. eexists _, _.
      split; [apply (run_zero_stride _ _ _ _ _ _ w1 data im s); assumption|].
      split; [apply (run_zero_stride _ _ _ _ _ _ w2 data im s); assumption|].
      repeat split; reflexivity. }
  pose proof (run_loop pil_open pil_encode gif_path max_frames skip output_dir
                w1 data im s l Hfile Hopen Hanim Hskip Hcan Hrange) as Hrun1.
  pose proof (run_loop pil_open pil_encode gif_path max_frames skip output_dir
                w2 data im s l Hfiles Hopen Hanim Hskip Hmk Hrange) as Hrun2.
  cbv zeta in Hrun1, Hrun2. fold od in Hrun1, Hrun2.
  assert (Ht : loop_trace
                 (fs (before_loop gif_path (default 1 (n_frames_attr im)) s od w2))
                 im od max_frames 0 l =
               loop_trace
                 (fs (before_loop gif_path (default 1 (n_frames_attr im)) s od w1))
                 im od max_frames 0 l).
  { apply loop_trace_agree. intros k i d. cbn [before_loop fs].
    rewrite !can_save_made. symmetry. apply Hsave. }
  rewrite Ht in Hrun2.
  set (t := loop_trace
              (fs (before_loop gif_path (default 1 (n_frames_attr im)) s od w1))
              im od max_frames 0 l) in *.
  eexists _,
    (banner gif_path (default 1 (n_frames_attr im)) s od ++
     match t.2 with
     | None => [summary_line (Z.of_nat (length t.1)) od]
     | Some _ => []
     end),
    ([EvOpen gif_path; EvMakedirs od] ++
     e_calls (frames_effect pil_encode im od t.1) ++ last_calls t.2), _, _.
  split; [exact Hrun1|]. split; [exact Hrun2|].
  cbn [after_loop before_loop stdout calls]. rewrite <- !app_assoc.
  repeat split; reflexivity.
Qed.

Lemma run_reads_input_and_output_dir_witness :
  exists r out new w1' w2',
    extract_frames toy_open toy_encode "a/anim.gif" 30 (Some 5) None
      (toy_world "a/anim.gif" "abcdefghijkl") = (r, w1')
    /\ extract_frames toy_open toy_encode "a/anim.gif" 30 (Some 5) None
         crowded_world = (r, w2')
    /\ stdout w1' = ([] ++ out)%list /\ stdout w2' = (["earlier"] ++ out)%list
    /\ calls w1' = ([] ++ new)%list /\ calls w2' = ([] ++ new)%list.
Proof.
  apply (run_reads_input_and_output_dir toy_open toy_encode "a/anim.gif" 30 (Some 5) None
           (toy_world "a/anim.gif" "abcdefghijkl") crowded_world).
  - split.
    + vm_compute. split; intros H; discriminate H.
    + vm_compute. reflexivity.
  - split.
    + vm_compute. reflexivity.
    + intros k i d.
      rewrite (frames_writable_free (fs (toy_world "a/anim.gif" "abcdefghijkl")))
        by reflexivity.
      rewrite (frames_writable_made (fs crowded_world)); [reflexivity| |reflexivity].
      simpl. apply singleton_subseteq_l, output_dir_made.
Defined.

(** ** More on the argument scanner *)

Section ScannerFlags.

Variable py_int : string -> option Z.

Lemma scan_args_at pre l o :
  scan_args py_int (pre ++ l) (length pre) o = scan_args py_int l 0 o.
Proof.
  rewrite <- (scan_args_shift py_int pre l _ 0 o eq_refl). f_equal. lia.
Qed.

Lemma scan_args_after_pair a b rest o :
  scan_args py_int (a :: b :: rest) 2 o = scan_args py_int rest 0 o.
Proof. apply (scan_args_at [a; b] rest o). Qed.

Lemma scan_args_max_frames_value v rest o :
  scan_args py_int ("--max-frames" :: v :: rest) 0 o =
  match py_int v with
  | Some n =>
      scan_args py_int rest 0
        {| opt_max_frames := n; opt_skip := opt_skip o;
           opt_output_dir := opt_output_dir o |}
  | None => Raise ValueError
  end.
Proof.
  rewrite scan_args_equation_1. unfold scan_args_unfold_clause_1.
  destruct (decide (0 < length ("--max-frames" :: v :: rest))%nat) as [_|Hn];
    [|simpl in Hn; lia].
  change (arg_at ("--max-frames" :: v :: rest) 0) with "--max-frames".
  change (arg_at ("--max-frames" :: v :: rest) (0 + 1)) with v.
  change (String.eqb "--max-frames" "--max-frames") with true.
  change (0 + 1 <? length ("--max-frames" :: v :: rest))%nat with true.
  cbv iota beta. change (true && true) with true. cbv iota.
  destruct (py_int v); [apply scan_args_after_pair | reflexivity].
Qed.

Lemma scan_args_skip_value v rest o :
  scan_args py_int ("--skip" :: v :: rest) 0 o =
  match py_int v with
  | Some n =>
      scan_args py_int rest 0
        {| opt_max_frames := opt_max_frames o; opt_skip := Some n;
           opt_output_dir := opt_output_dir o |}
  | None => Raise ValueError
  end.
Proof.
  rewrite scan_args_equation_1. unfold scan_args_unfold_clause_1.
  destruct (decide (0 < length ("--skip" :: v :: rest))%nat) as [_|Hn];
    [|simpl in Hn; lia].
  change (arg_at ("--skip" :: v :: rest) 0) with "--skip".
  change (arg_at ("--skip" :: v :: rest) (0 + 1)) with v.
  change (String.eqb "--skip" "--max-frames") with false.
  change (String.eqb "--skip" "--skip") with true.
  change (0 + 1 <? length ("--skip" :: v :: rest))%nat with true.
  cbv iota beta. change (false && true) with false. change (true && true) with true.
  cbv iota.
  destruct (py_int v); [apply scan_args_after_pair | reflexivity].
Qed.

Lemma scan_args_output_dir_value v rest o :
  scan_args py_int ("--output-dir" :: v :: rest) 0 o =
  scan_args py_int rest 0
    {| opt_max_frames := opt_max_frames o; opt_skip := opt_skip o;
       opt_output_dir := Some v |}.
Proof.
  rewrite scan_args_equation_1. unfold scan_args_unfold_clause_1.
  destruct (decide (0 < length ("--output-dir" :: v :: rest))%nat) as [_|Hn];
    [|simpl in Hn; lia].
  change (arg_at ("--output-dir" :: v :: rest) 0) with "--output-dir".
  change (arg_at ("--output-dir" :: v :: rest) (0 + 1)) with v.
  change (String.eqb "--output-dir" "--max-frames") with false.
  change (String.eqb "--output-dir" "--skip") with false.
  change (String.eqb "--output-dir" "--output-dir") with true.
  change (0 + 1 <? length ("--output-dir" :: v :: rest))%nat with true.
  cbv iota beta. change (false && true) with false. change (true && true) with true.
  cbv iota.
  apply scan_args_after_pair.
Qed.

Lemma arg_at_elem args i : (i < length args)%nat -> arg_at args i ∈ args.
Proof.
  intros Hlt. unfold arg_at.
  destruct (lookup_lt_is_Some_2 args i Hlt) as [t Ht].
  rewrite Ht. simpl. eapply list_elem_of_lookup_2. exact Ht.
Qed.

(** The fields of the options whose flag does not occur are not assigned. *)
Lemma scan_args_fields args :
  forall n i o o',
    (length args - i = n)%nat ->
    scan_args py_int args i o = Return o' ->
    ("--max-frames" ∉ args -> opt_max_frames o' = opt_max_frames o)
    /\ ("--skip" ∉ args -> opt_skip o' = opt_skip o)
    /\ ("--output-dir" ∉ args -> opt_output_dir o' = opt_output_dir o).
Proof.
  induction n as [n IH] using lt_wf_ind. intros i o o' Hn H.
  rewrite scan_args_equation_1 in H. unfold scan_args_unfold_clause_1 in H.
  destruct (decide (i < length args)%nat) as [Hlt|Hge].
  2:{ injection H as <-. repeat split; reflexivity. }
  pose proof (arg_at_elem args i Hlt) as Hin.
  assert (Hnext : forall k o1, (i < k)%nat ->
            scan_args py_int args k o1 = Return o' ->
            ("--max-frames" ∉ args -> opt_max_frames o' = opt_max_frames o1)
            /\ ("--skip" ∉ args -> opt_skip o' = opt_skip o1)
            /\ ("--output-dir" ∉ args -> opt_output_dir o' = opt_output_dir o1)).
  { intros k o1 Hk Hr. apply (IH (length args - k)%nat ltac:(lia) k o1 o' eq_refl Hr). }
  destruct (String.eqb_spec (arg_at args i) "--max-frames") as [E1|_];
    [destruct (i + 1 <? length args)%nat|]; cbn [andb] in H.
  - destruct (py_int (arg_at args (i + 1))) as [v|]; [|discriminate H].
    destruct (Hnext (i + 2)%nat _ ltac:(lia) H) as (H1 & H2 & H3).
    rewrite E1 in Hin. repeat split; [intros Hno; contradiction | exact H2 | exact H3].
  - destruct (String.eqb (arg_at args i) "--skip"), (String.eqb (arg_at args i) "--output-dir");
      cbn [andb] in H; apply (Hnext (i + 1)%nat _ ltac:(lia) H).
  - destruct (String.eqb_spec (arg_at args i) "--skip") as [E2|_];
      [destruct (i + 1 <? length args)%nat|]; cbn [andb] in H.
    + destruct (py_int (arg_at args (i + 1))) as [v|]; [|discriminate H].
      destruct (Hnext (i + 2)%nat _ ltac:(lia) H) as (H1 & H2 & H3).
      rewrite E2 in Hin. repeat split; [exact H1 | intros Hno; contradiction | exact H3].
    + destruct (String.eqb (arg_at args i) "--output-dir");
        cbn [andb] in H; apply (Hnext (i + 1)%nat _ ltac:(lia) H).
    + destruct (String.eqb_spec (arg_at args i) "--output-dir") as [E3|_];
        [destruct (i + 1 <? length args)%nat|]; cbn [andb] in H.
      * destruct (Hnext (i + 2)%nat _ ltac:(lia) H) as (H1 & H2 & H3).
        rewrite E3 in Hin. repeat split; [exact H1 | exact H2 | intros Hno; contradiction].
      * apply (Hnext (i + 1)%nat _ ltac:(lia) H).
      * apply (Hnext (i + 1)%nat _ ltac:(lia) H).
Qed.

(** The scanner raises only where [int] refuses the value of [--max-frames]
    or of [--skip]. *)
Lemma scan_args_raise_inv args :
  forall n i o e,
    (length args - i = n)%nat ->
    scan_args py_int args i o = Raise e ->
    e = ValueError
    /\ exists j, (i <= j)%nat /\ (j + 1 < length args)%nat
                 /\ (arg_at args j = "--max-frames" \/ arg_at args j = "--skip")
                 /\ py_int (arg_at args (j + 1)) = None.
Proof.
  induction n as [n IH] using lt_wf_ind. intros i o e Hn H.
  rewrite scan_args_equation_1 in H. unfold scan_args_unfold_clause_1 in H.
  destruct (decide (i < length args)%nat) as [Hlt|Hge]; [|discriminate H].
  assert (Hnext : forall k o1, (i < k)%nat ->
            scan_args py_int args k o1 = Raise e ->
            e = ValueError
            /\ exists j, (i <= j)%nat /\ (j + 1 < length args)%nat
                 /\ (arg_at args j = "--max-frames" \/ arg_at args j = "--skip")
                 /\ py_int (arg_at args (j + 1)) = None).
  { intros k o1 Hk Hr.
    destruct (IH (length args - k)%nat ltac:(lia) k o1 e eq_refl Hr)
      as (He & j & Hj & Hrest).
    split; [exact He|]. exists j. split; [lia | exact Hrest]. }
  destruct (String.eqb_spec (arg_at args i) "--max-frames") as [E1|_];
    [destruct (Nat.ltb_spec (i + 1) (length args))|]; cbn [andb] in H.
  - destruct (py_int (arg_at args (i + 1))) as [v|] eqn:Hv.
    + apply (Hnext (i + 2)%nat _ ltac:(lia) H).
    + injection H as <-. split; [reflexivity|]. exists i. repeat split; auto; lia.
  - destruct (String.eqb (arg_at args i) "--skip"), (String.eqb (arg_at args i) "--output-dir");
      cbn [andb] in H; apply (Hnext (i + 1)%nat _ ltac:(lia) H).
  - destruct (String.eqb_spec (arg_at args i) "--skip") as [E2|_];
      [destruct (Nat.ltb_spec (i + 1) (length args))|]; cbn [andb] in H.
    + destruct (py_int (arg_at args (i + 1))) as [v|] eqn:Hv.
      * apply (Hnext (i + 2)%nat _ ltac:(lia) H).
      * injection H as <-. split; [reflexivity|]. exists i. repeat split; auto; lia.
    + destruct (String.eqb (arg_at args i) "--output-dir");
        cbn [andb] in H; apply (Hnext (i + 1)%nat _ ltac:(lia) H).
    + destruct (String.eqb (arg_at args i) "--output-dir" && (i + 1 <? length args)%nat);
        [apply (Hnext (i + 2)%nat _ ltac:(lia) H) | apply (Hnext (i + 1)%nat _ ltac:(lia) H)].
Qed.

End ScannerFlags.


(** X11: at the scanner's index, a recognized flag followed by a token takes
    that token as its value, whatever it looks like, and the scan goes on
    after the pair with only that option assigned.  For [--max-frames] and
    [--skip] the value goes through [int], whose [ValueError] ends the scan;
    for [--output-dir] it is kept as it is. *)
Theorem recognized_flag_takes_value py_int pre v rest o :
  scan_args py_int (pre ++ "--max-frames" :: v :: rest) (length pre) o =
    match py_int v with
    | Some n =>
        scan_args py_int rest 0
          {| opt_max_frames := n; opt_skip := opt_skip o;
             opt_output_dir := opt_output_dir o |}
    | None => Raise ValueError
    end
  /\ scan_args py_int (pre ++ "--skip" :: v :: rest) (length pre) o =
       match py_int v with
       | Some n =>
           scan_args py_int rest 0
             {| opt_max_frames := opt_max_frames o; opt_skip := Some n;
                opt_output_dir := opt_output_dir o |}
       | None => Raise ValueError
       end
  /\ scan_args py_int (pre ++ "--output-dir" :: v :: rest) (length pre) o =
       scan_args py_int rest 0
         {| opt_max_frames := opt_max_frames o; opt_skip := opt_skip o;
            opt_output_dir := Some v |}.
Proof.
  rewrite !scan_args_at.
  split; [apply scan_args_max_frames_value|].
  split; [apply scan_args_skip_value | apply scan_args_output_dir_value].
Qed.

(** The options read off a command line where a flag stands in the place of
    a value and where [--skip] comes twice. *)
Example scan_args_values_example :
  scan_args dec_int ["--output-dir"; "--skip"; "7"; "--skip"; "2"; "--skip"; "3"]
    0 default_options =
  Return {| opt_max_frames := 30; opt_skip := Some 3; opt_output_dir := Some "--skip" |}.
Proof. reflexivity. Qed.

(** X12: a recognized flag with its value overrides whatever the option was
    before: the scan from that flag on does not depend on the earlier value
    of the option it assigns. *)
Theorem later_flag_overrides py_int pre v rest o earlier_max earlier_skip earlier_dir :
  scan_args py_int (pre ++ "--max-frames" :: v :: rest) (length pre) o =
    scan_args py_int (pre ++ "--max-frames" :: v :: rest) (length pre)
      {| opt_max_frames := earlier_max; opt_skip := opt_skip o;
         opt_output_dir := opt_output_dir o |}
  /\ scan_args py_int (pre ++ "--skip" :: v :: rest) (length pre) o =
       scan_args py_int (pre ++ "--skip" :: v :: rest) (length pre)
         {| opt_max_frames := opt_max_frames o; opt_skip := earlier_skip;
            opt_output_dir := opt_output_dir o |}
  /\ scan_args py_int (pre ++ "--output-dir" :: v :: rest) (length pre) o =
       scan_args py_int (pre ++ "--output-dir" :: v :: rest) (length pre)
         {| opt_max_frames := opt_max_frames o; opt_skip := opt_skip o;
            opt_output_dir := earlier_dir |}.
Proof.
  rewrite !scan_args_at.
  rewrite !scan_args_max_frames_value, !scan_args_skip_value,
    !scan_args_output_dir_value.
  repeat split; reflexivity.
Qed.

(** X13: an option whose flag does not occur among the arguments keeps the
    value it had when the scan started; from the defaults, that is 30 frames,
    no stride and no output directory. *)
Theorem absent_flag_keeps_option py_int args i o o' :
  scan_args py_int args i o = Return o' ->
  ("--max-frames" ∉ args -> opt_max_frames o' = opt_max_frames o)
  /\ ("--skip" ∉ args -> opt_skip o' = opt_skip o)
  /\ ("--output-dir" ∉ args -> opt_output_dir o' = opt_output_dir o).
Proof. intros H. exact (scan_args_fields py_int args _ i o o' eq_refl H). Qed.

Lemma absent_flag_keeps_option_witness :
  ("--max-frames" ∉ ["--quiet"; "--skip"; "4"] -> 30 = opt_max_frames default_options)
  /\ ("--skip" ∉ ["--quiet"; "--skip"; "4"] -> Some 4 = opt_skip default_options)
  /\ ("--output-dir" ∉ ["--quiet"; "--skip"; "4"] ->
      None = opt_output_dir default_options).
Proof.
  apply (absent_flag_keeps_option dec_int ["--quiet"; "--skip"; "4"] 0 default_options
           {| opt_max_frames := 30; opt_skip := Some 4; opt_output_dir := None |}).
  reflexivity.
Defined.

(** X14: the scanner fails in one way only.  When it raises, the exception
    is [ValueError] and some [--max-frames] or [--skip] at or after the
    starting index is followed by a token that [int] refuses; so a command
    line without these two flags, or one on which [int] accepts every token,
    always scans to a result. *)
Theorem scanner_fails_only_on_bad_integer py_int args i o :
  (forall e,
     scan_args py_int args i o = Raise e ->
     e = ValueError
     /\ exists j, (i <= j)%nat /\ (j + 1 < length args)%nat
                  /\ (arg_at args j = "--max-frames" \/ arg_at args j = "--skip")
                  /\ py_int (arg_at args (j + 1)) = None)
  /\ ("--max-frames" ∉ args -> "--skip" ∉ args ->
      exists o', scan_args py_int args i o = Return o')
  /\ ((forall t, t ∈ args -> is_Some (py_int t)) ->
      exists o', scan_args py_int args i o = Return o').
Proof.
  assert (Hinv := fun e => scan_args_raise_inv py_int args _ i o e eq_refl).
  split; [exact Hinv|].
  destruct (scan_args_outcome py_int args _ i o eq_refl) as [Hret|Hraise].
  { split; intros; exact Hret. }
  destruct (Hinv _ Hraise) as (_ & j & Hij & Hj & Hflag & Hnone).
  split.
  - intros Hm Hs. exfalso.
    pose proof (arg_at_elem args j ltac:(lia)) as Hin.
    destruct Hflag as [E|E]; rewrite E in Hin; contradiction.
  - intros Hall. exfalso.
    destruct (Hall _ (arg_at_elem args (j + 1) Hj)) as [n Hn]. congruence.
Qed.

Lemma scanner_fails_only_on_bad_integer_witness :
  (forall e,
     scan_args dec_int ["--skip"; "4"; "--max-frames"; "many"] 0 default_options = Raise e ->
     e = ValueError
     /\ exists j, (0 <= j)%nat
                  /\ (j + 1 < length ["--skip"; "4"; "--max-frames"; "many"])%nat
                  /\ (arg_at ["--skip"; "4"; "--max-frames"; "many"] j = "--max-frames"
                      \/ arg_at ["--skip"; "4"; "--max-frames"; "many"] j = "--skip")
                  /\ dec_int (arg_at ["--skip"; "4"; "--max-frames"; "many"] (j + 1)) = None)
  /\ ("--max-frames" ∉ ["--skip"; "4"; "--max-frames"; "many"] ->
      "--skip" ∉ ["--skip"; "4"; "--max-frames"; "many"] ->
      exists o',
        scan_args dec_int ["--skip"; "4"; "--max-frames"; "many"] 0 default_options =
        Return o')
  /\ ((forall t, t ∈ ["--skip"; "4"; "--max-frames"; "many"] -> is_Some (dec_int t)) ->
      exists o',
        scan_args dec_int ["--skip"; "4"; "--max-frames"; "many"] 0 default_options =
        Return o').
Proof.
  exact (scanner_fails_only_on_bad_integer dec_int
           ["--skip"; "4"; "--max-frames"; "many"] 0 default_options).
Defined.

(** The command line of the witness does raise. *)
Example scan_args_bad_integer_example :
  scan_args dec_int ["--skip"; "4"; "--max-frames"; "many"] 0 default_options =
  Raise ValueError.
Proof. reflexivity. Qed.

(** ** The fields of a file name, read back *)

Lemma str_negative z : z < 0 -> Py.str z = String "-" (Py.str (- z)).
Proof. intros Hz. destruct z as [|q|q]; [lia | lia | reflexivity]. Qed.

Lemma str_nonneg_inj a b : 0 <= a -> 0 <= b -> Py.str a = Py.str b -> a = b.
Proof.
  intros Ha Hb Heq.
  destruct (str_nonneg_uint a Ha) as (u & Hu & Hua & _).
  destruct (str_nonneg_uint b Hb) as (u' & Hu' & Hub & _).
  rewrite Heq, Hu' in Hu. injection Hu as ->. congruence.
Qed.

Lemma str_first_digit k :
  0 <= k -> exists c r, Py.str k = String c r /\ is_digit c = true.
Proof.
  intros Hk. pose proof (all_digits_str k Hk) as Hd.
  pose proof (str_nonempty k Hk) as Hne.
  destruct (Py.str k) as [|c r]; [congruence|].
  simpl in Hd. apply andb_true_iff in Hd as [Hc _]. eauto.
Qed.

(** A decimal field, signed or not, ends at the first character that is
    neither a digit nor its leading sign. *)
Lemma signed_field_unique a b c r c' r' :
  is_digit c = false -> is_digit c' = false ->
  Py.str a +:+ String c r = Py.str b +:+ String c' r' ->
  a = b /\ String c r = String c' r'.
Proof.
  intros Hc Hc' Heq.
  assert (Hab : Py.str a = Py.str b -> a = b /\ String c r = String c' r').
  { intros E. rewrite E in Heq. apply append_cancel_l in Heq. split; [|exact Heq].
    destruct (Z.lt_ge_cases a 0) as [Ha|Ha], (Z.lt_ge_cases b 0) as [Hb|Hb].
    - rewrite (str_negative a Ha), (str_negative b Hb) in E. injection E as E.
      apply str_nonneg_inj in E; lia.
    - rewrite (str_negative a Ha) in E.
      destruct (str_first_digit b Hb) as (x & y & Hx & Hdx).
      rewrite Hx in E. injection E as <- _. discriminate Hdx.
    - rewrite (str_negative b Hb) in E.
      destruct (str_first_digit a Ha) as (x & y & Hx & Hdx).
      rewrite Hx in E. injection E as -> _. discriminate Hdx.
    - apply str_nonneg_inj; assumption. }
  apply Hab.
  destruct (Z.lt_ge_cases a 0) as [Ha|Ha], (Z.lt_ge_cases b 0) as [Hb|Hb].
  - rewrite (str_negative a Ha), (str_negative b Hb) in Heq |- *.
    injection Heq as Heq. f_equal.
    apply (digits_field_unique _ _ c r c' r');
      [apply all_digits_str; lia | apply all_digits_str; lia
      | assumption | assumption | exact Heq].
  - exfalso. rewrite (str_negative a Ha) in Heq.
    destruct (str_first_digit b Hb) as (x & y & Hx & Hdx).
    rewrite Hx in Heq. injection Heq as <- _. discriminate Hdx.
  - exfalso. rewrite (str_negative b Hb) in Heq.
    destruct (str_first_digit a Ha) as (x & y & Hx & Hdx).
    rewrite Hx in Heq. injection Heq as -> _. discriminate Hdx.
  - apply (digits_field_unique _ _ c r c' r');
      [apply all_digits_str; lia | apply all_digits_str; lia
      | assumption | assumption | exact Heq].
Qed.

(** X15: a frame file name determines what it was built from: two names are
    equal only for the same sequence index, the same source index and the
    same duration, so the output can be traced back to the source frames. *)
Theorem frame_name_determines_fields k i d k' i' d' :
  0 <= k -> 0 <= k' ->
  frame_name k i d = frame_name k' i' d' ->
  k = k' /\ i = i' /\ d = d'.
Proof.
  intros Hk Hk' Heq. unfold frame_name in Heq.
  apply (append_cancel_l "frame_") in Heq.
  assert (Hfmt : Py.format_03d k = Py.format_03d k').
  { eapply (digits_field_unique _ _ "_" _ "_" _);
      [apply all_digits_format_03d; assumption
      |apply all_digits_format_03d; assumption
      |reflexivity|reflexivity|exact Heq]. }
  rewrite Hfmt in Heq. apply append_cancel_l in Heq.
  apply (append_cancel_l "_f") in Heq.
  apply (signed_field_unique i i' "_" _ "_" _ eq_refl eq_refl) in Heq as [Hi Heq].
  apply (append_cancel_l "_d") in Heq.
  apply (signed_field_unique d d' "m" _ "m" _ eq_refl eq_refl) in Heq as [Hd _].
  split; [apply format_03d_inj; assumption|]. split; assumption.
Qed.

Lemma frame_name_determines_fields_witness :
  2 = 2 /\ 10 = 10 /\ 110 = 110.
Proof.
  apply (frame_name_determines_fields 2 10 110 2 10 110).
  - lia.
  - lia.
  - reflexivity.
Defined.

(** Names that share all digits but split them differently are different. *)
Example frame_names_differ :
  frame_name 1 23 4 <> frame_name 12 3 4 /\ frame_name 0 1 (-1) <> frame_name 0 (-1) 1.
Proof. split; intros H; discriminate H. Qed.

(** The indices sought by the loop, whether it comes to its end or raises,
    are the first of the sampled ones. *)
Lemma loop_trace_seeks pil_encode f im od max_frames l :
  forall e, exists m,
    seeks (e_calls (frames_effect pil_encode im od (loop_trace f im od max_frames e l).1) ++
           last_calls (loop_trace f im od max_frames e l).2) =
    take m (map snd (sampled max_frames e l)).
Proof.
  induction l as [|i l IH]; intros e.
  - exists 0%nat. reflexivity.
  - cbn [loop_trace sampled].
    destruct (e >=? max_frames); [exists 0%nat; reflexivity|].
    destruct (frame_at im i) as [fr|]; [|exists 1%nat; reflexivity].
    destruct (pixels fr); [|exists 1%nat; reflexivity].
    destruct (can_save f (saved_path im od e i)); [|exists 1%nat; reflexivity].
    destruct (IH (e + 1)) as [m Hm]. exists (S m).
    set (t := loop_trace f im od max_frames (e + 1) l) in *.
    cbn [fst snd].
    change (e_calls (frames_effect pil_encode im od ((e, i) :: t.1)))
      with (frame_calls pil_encode im od (e, i) ++
            e_calls (frames_effect pil_encode im od t.1))%list.
    rewrite <- app_assoc.
    change (seeks (frame_calls pil_encode im od (e, i) ++ ?x)%list) with (i :: seeks x).
    rewrite Hm. reflexivity.
Qed.

(** X16: however the run ends, the loop never seeks outside the container
    and never seeks a frame twice: with a stride [s >= 1] the [a]-th index
    sought is [a * s], it lies in [0, total), there are at most [max_frames]
    of them, and the indices sought increase strictly. *)
Theorem seeks_in_range_and_increasing pil_open pil_encode gif_path max_frames skip
    output_dir w data im total s r w' :
  files (fs w) !! gif_path = Some data ->
  pil_open data = Some im ->
  n_frames_attr im = Some total ->
  2 <= total ->
  resolve_skip total max_frames skip = Some s -> 1 <= s ->
  extract_frames pil_open pil_encode gif_path max_frames skip output_dir w = (r, w') ->
  exists new,
    calls w' = (calls w ++ new)%list
    /\ Z.of_nat (length (seeks new)) <= Z.max 0 max_frames
    /\ (forall a i, seeks new !! a = Some i -> i = Z.of_nat a * s /\ 0 <= i < total)
    /\ (forall a b i j,
          seeks new !! a = Some i -> seeks new !! b = Some j -> (a < b)%nat -> i < j).
Proof.
  intros Hfile Hopen Htotal Ht Hskip Hs Hrun.
  set (od := resolve_output_dir gif_path output_dir).
  assert (Hdef : default 1 (n_frames_attr im) = total) by (rewrite Htotal; reflexivity).
  set (l := map (fun k => Z.of_nat k * s) (seq 0 (Z.to_nat (ceil_div total s)))).
  assert (Hrange : Py.range 0 (default 1 (n_frames_attr im)) s = Some l)
    by (rewrite Hdef; apply range_up; lia).
  assert (Hanim : default 1 (n_frames_attr im) <> 1) by lia.
  rewrite <- Hdef in Hskip.
  assert (Hsampled : forall (a : nat) i,
            map snd (sampled max_frames 0 l) !! a = Some i ->
            i = Z.of_nat a * s /\ 0 <= i < total).
  { intros a i Ha.
    destruct (Z.le_gt_cases max_frames 0) as [Hle|Hpos].
    { rewrite sampled_nonpos in Ha by exact Hle. discriminate Ha. }
    unfold l in Ha. rewrite sampled_candidates in Ha by lia.
    change (map snd ?x) with (snd <$> x) in Ha.
    rewrite <- list_fmap_compose in Ha.
    apply list_lookup_fmap_Some in Ha as (k & -> & Hk).
    apply lookup_seqZ in Hk as [-> Hlt]. simpl.
    split; [f_equal; lia|].
    apply (sampled_index_in_range total s max_frames); lia. }
  assert (Hgoal : forall new m,
            seeks new = take m (map snd (sampled max_frames 0 l)) ->
            Z.of_nat (length (seeks new)) <= Z.max 0 max_frames
            /\ (forall a i, seeks new !! a = Some i ->
                            i = Z.of_nat a * s /\ 0 <= i < total)
            /\ (forall a b i j,
                  seeks new !! a = Some i -> seeks new !! b = Some j ->
                  (a < b)%nat -> i < j)).
  { intros new m Hnew. rewrite Hnew.
    assert (Hin : forall (a : nat) i,
              take m (map snd (sampled max_frames 0 l)) !! a = Some i ->
              i = Z.of_nat a * s /\ 0 <= i < total).
    { intros a i Ha. apply lookup_take_Some in Ha as [Ha _]. apply Hsampled, Ha. }
    split; [|split].
    - rewrite length_take, length_map.
      pose proof (sampled_bound max_frames l 0). lia.
    - exact Hin.
    - intros a b i j Ha Hb Hab.
      destruct (Hin a i Ha) as [-> _]. destruct (Hin b j Hb) as [-> _]. nia. }
  destruct (can_makedirs (fs w) od) eqn:Hcan.
  2:{ destruct (makedirs_raises od (opened gif_path w) Hcan) as (f & Hmk & _).
      rewrite (run_makedirs_raises pil_open pil_encode gif_path max_frames skip output_dir
                 w data im s _ _ Hfile Hopen Hanim Hskip Hmk) in Hrun.
      injection Hrun as _ <-.
      exists [EvOpen gif_path; EvMakedirs od].
      split; [simpl; rewrite <- app_assoc; reflexivity|].
      apply (Hgoal _ 0%nat). reflexivity. }
  rewrite (run_loop pil_open pil_encode gif_path max_frames skip output_dir
             w data im s l Hfile Hopen Hanim Hskip Hcan Hrange) in Hrun.
  cbv zeta in Hrun. fold od in Hrun. injection Hrun as _ <-.
  match goal with
  | |- context [after_loop _ _ _ ?t ?wb] =>
      exists ([EvOpen gif_path; EvMakedirs od] ++
              e_calls (frames_effect pil_encode im od t.1) ++ last_calls t.2)
  end.
  split; [cbn [after_loop before_loop calls]; rewrite <- !app_assoc; reflexivity|].
  match goal with
  | |- context [loop_trace ?f im od max_frames 0 l] =>
      destruct (loop_trace_seeks pil_encode f im od max_frames l 0) as [m Hm]
  end.
  apply (Hgoal _ m). exact Hm.
Qed.

Lemma seeks_in_range_and_increasing_witness :
  exists new,
    calls (extract_frames flawed_open toy_encode "a.gif" 30 (Some 3) (Some "out")
             (toy_world "a.gif" "abcdef!hijkl")).2 = ([] ++ new)%list
    /\ Z.of_nat (length (seeks new)) <= Z.max 0 30
    /\ (forall a i, seeks new !! a = Some i -> i = Z.of_nat a * 3 /\ 0 <= i < 12)
    /\ (forall a b i j,
          seeks new !! a = Some i -> seeks new !! b = Some j -> (a < b)%nat -> i < j).
Proof.
  apply (seeks_in_range_and_increasing flawed_open toy_encode "a.gif" 30 (Some 3)
           (Some "out") (toy_world "a.gif" "abcdef!hijkl") "abcdef!hijkl"
           {| n_frames_attr := Some 12;
              first_frame := {| pixels := Some "a"; info_duration := None |};
              frame_at := flawed_frame "abcdef!hijkl" |} 12 3
           (extract_frames flawed_open toy_encode "a.gif" 30 (Some 3) (Some "out")
              (toy_world "a.gif" "abcdef!hijkl")).1).
  - vm_compute. reflexivity.
  - reflexivity.
  - reflexivity.
  - lia.
  - reflexivity.
  - lia.
  - vm_compute. reflexivity.
Defined.

(** ** The default output directory *)

Lemma rfind_from_absent c s :
  forall pos found, has_char c s = false -> Py.rfind_from c s pos found = found.
Proof.
  induction s as [|x s IH]; intros pos found H; [reflexivity|].
  simpl in H. apply orb_false_iff in H as [Hx Hs].
  simpl. rewrite Hx. apply IH. exact Hs.
Qed.

Lemma rfind_from_last c a b :
  forall pos found,
    has_char c b = false ->
    Py.rfind_from c (a +:+ String c b) pos found = pos + Z.of_nat (String.length a).
Proof.
  induction a as [|x a IH]; intros pos found Hb.
  - change ("" +:+ String c b) with (String c b). simpl.
    rewrite Ascii.eqb_refl, rfind_from_absent by assumption. lia.
  - change (String x a +:+ String c b) with (String x (a +:+ String c b)).
    cbn [Py.rfind_from String.length]. rewrite IH by assumption. lia.
Qed.

Lemma rfind_from_app_absent c s t :
  forall pos found,
    has_char c t = false ->
    Py.rfind_from c (s +:+ t) pos found = Py.rfind_from c s pos found.
Proof.
  induction s as [|x s IH]; intros pos found Ht.
  - change ("" +:+ t) with t. rewrite rfind_from_absent by assumption. reflexivity.
  - change (String x s +:+ t) with (String x (s +:+ t)).
    cbn [Py.rfind_from]. apply IH. exact Ht.
Qed.

Lemma rfind_from_bounds c s :
  forall pos found,
    Py.rfind_from c s pos found = found
    \/ pos <= Py.rfind_from c s pos found < pos + Z.of_nat (String.length s).
Proof.
  induction s as [|x s IH]; intros pos found; [left; reflexivity|].
  cbn [Py.rfind_from String.length].
  destruct (IH (pos + 1) (if Ascii.eqb x c then pos else found)) as [E|E].
  - rewrite E. destruct (Ascii.eqb x c); [right; lia | left; reflexivity].
  - right. lia.
Qed.

(** The scan finds a decomposition at the last occurrence, if there is one. *)
Lemma rfind_from_split c s :
  forall pos found,
    (Py.rfind_from c s pos found = found /\ has_char c s = false)
    \/ exists a b, s = a +:+ String c b /\ has_char c b = false
                   /\ Py.rfind_from c s pos found = pos + Z.of_nat (String.length a).
Proof.
  induction s as [|x s IH]; intros pos found; [left; split; reflexivity|].
  cbn [Py.rfind_from has_char].
  destruct (IH (pos + 1) (if Ascii.eqb x c then pos else found))
    as [[E Hs]|(a & b & -> & Hb & E)].
  - destruct (Ascii.eqb_spec x c) as [->|Hx].
    + right. exists "", s. rewrite E. repeat split; [exact Hs | simpl; lia].
    + left. rewrite E, Hs. split; reflexivity.
  - right. exists (String x a), b. rewrite E.
    repeat split; [exact Hb | cbn [String.length]; lia].
Qed.

Lemma substring_prefix a x : String.substring 0 (String.length a) (a +:+ x) = a.
Proof.
  induction a as [|c a IH]; [destruct x; reflexivity|].
  change (String c a +:+ x) with (String c (a +:+ x)).
  cbn [String.length String.substring]. rewrite IH. reflexivity.
Qed.

Lemma get_after_prefix a c r : String.get (String.length a) (a +:+ String c r) = Some c.
Proof.
  induction a as [|x a IH]; [reflexivity|].
  change (String x a +:+ String c r) with (String x (a +:+ String c r)).
  exact IH.
Qed.

Lemma has_non_dot_found p c :
  forall n from j,
    (from <= j < from + n)%nat ->
    String.get j p = Some c -> c <> "."%char ->
    OsPath.has_non_dot p from n = true.
Proof.
  induction n as [|n IH]; intros from j Hj Hget Hc; [lia|].
  cbn [OsPath.has_non_dot].
  destruct (String.get from p) as [x|] eqn:Hx; [|reflexivity].
  destruct (Ascii.eqb_spec x ".") as [->|_]; [|reflexivity].
  destruct (Nat.eq_dec j from) as [->|Hne]; [congruence|].
  apply (IH (S from) j); [lia | exact Hget | exact Hc].
Qed.

Lemma string_app_nil_r s : s +:+ "" = s.
Proof.
  induction s as [|c s IH]; [reflexivity|].
  change (String c s +:+ "") with (String c (s +:+ "")). f_equal. exact IH.
Qed.

(** Python's contract for [splitext]: root and extension make up the path,
    and the extension is empty or begins with a period. *)
Lemma splitext_root_split p :
  exists ext, p = OsPath.splitext_root p +:+ ext
              /\ (ext = "" \/ exists e, ext = String "." e).
Proof.
  unfold OsPath.splitext_root.
  destruct ((Py.rfind "/" p <? Py.rfind "." p) &&
            OsPath.has_non_dot p (Z.to_nat (Py.rfind "/" p + 1))
              (Z.to_nat (Py.rfind "." p - (Py.rfind "/" p + 1)))) eqn:Hc.
  - apply andb_true_iff in Hc as [Hlt _]. apply Z.ltb_lt in Hlt.
    unfold Py.rfind in *.
    destruct (rfind_from_split "." p 0 (-1)) as [[E _]|(a & b & -> & _ & E)].
    + exfalso. destruct (rfind_from_bounds "/" p 0 (-1)) as [F|F]; lia.
    + rewrite E. replace (Z.to_nat (0 + Z.of_nat (String.length a)))
        with (String.length a) by lia.
      rewrite substring_prefix. exists (String "." b). split; [reflexivity | eauto].
  - exists "". split; [|left; reflexivity].
    symmetry. apply string_app_nil_r.
Qed.

Lemma splitext_root_stem a c b ext :
  c <> "."%char ->
  has_char "/" (String c b) = false ->
  has_char "." ext = false ->
  has_char "/" ext = false ->
  OsPath.splitext_root ((a +:+ String c b) +:+ String "." ext) = a +:+ String c b.
Proof.
  intros Hc Hsep Hdot Hsep'.
  set (stem := a +:+ String c b).
  unfold OsPath.splitext_root, Py.rfind.
  rewrite (rfind_from_last "." stem ext 0 (-1) Hdot).
  rewrite (rfind_from_app_absent "/" stem (String "." ext) 0 (-1))
    by (cbn [has_char]; rewrite Hsep'; reflexivity).
  assert (Hidx : Py.rfind_from "/" stem 0 (-1) = Py.rfind_from "/" a 0 (-1))
    by (unfold stem; apply rfind_from_app_absent; exact Hsep).
  rewrite Hidx.
  assert (Hlen : String.length stem = (String.length a + S (String.length b))%nat)
    by (unfold stem; rewrite string_length_app; reflexivity).
  assert (Hb : -1 <= Py.rfind_from "/" a 0 (-1) < Z.of_nat (String.length a))
    by (destruct (rfind_from_bounds "/" a 0 (-1)) as [F|F]; lia).
  rewrite (proj2 (Z.ltb_lt _ _)) by lia.
  rewrite (has_non_dot_found _ c _ _ (String.length a)).
  - replace (Z.to_nat (0 + Z.of_nat (String.length stem))) with (String.length stem) by lia.
    apply substring_prefix.
  - lia.
  - unfold stem. rewrite string_app_assoc. apply get_after_prefix.
  - exact Hc.
Qed.

(** X17: when no output directory is given, the frames go next to the input:
    for an input [stem.ext] (the extension free of periods and separators,
    the last component of the stem holding a character that is no period)
    the directory is [stem_frames].  It is the path without its extension
    followed by [_frames], it never is the input path itself, and a directory
    that is given is used as it is. *)
Theorem default_output_dir_beside_input gif_path a c b ext :
  c <> "."%char ->
  has_char "/" (String c b) = false ->
  has_char "." ext = false ->
  has_char "/" ext = false ->
  resolve_output_dir ((a +:+ String c b) +:+ String "." ext) None =
    (a +:+ String c b) +:+ "_frames"
  /\ (exists root e,
        gif_path = root +:+ e /\ (e = "" \/ exists e', e = String "." e')
        /\ resolve_output_dir gif_path None = root +:+ "_frames")
  /\ resolve_output_dir gif_path None <> gif_path
  /\ (forall dir, resolve_output_dir gif_path (Some dir) = dir).
Proof.
  intros Hc Hsep Hdot Hsep'.
  split.
  { unfold resolve_output_dir. rewrite splitext_root_stem by assumption. reflexivity. }
  destruct (splitext_root_split gif_path) as (e & Hsplit & He).
  split; [|split; [|reflexivity]].
  - exists (OsPath.splitext_root gif_path), e. repeat split; assumption.
  - unfold resolve_output_dir. intros Habs.
    rewrite Hsplit in Habs at 2. apply append_cancel_l in Habs.
    destruct He as [->|[e' ->]]; discriminate Habs.
Qed.

Lemma default_output_dir_beside_input_witness :
  resolve_output_dir (("shots.v2/" +:+ String "a" "nim") +:+ String "." "gif") None =
    ("shots.v2/" +:+ String "a" "nim") +:+ "_frames"
  /\ (exists root e,
        ".hidden" = root +:+ e /\ (e = "" \/ exists e', e = String "." e')
        /\ resolve_output_dir ".hidden" None = root +:+ "_frames")
  /\ resolve_output_dir ".hidden" None <> ".hidden"
  /\ (forall dir, resolve_output_dir ".hidden" (Some dir) = dir).
Proof.
  apply (default_output_dir_beside_input ".hidden" "shots.v2/" "a" "nim" "gif").
  - intros H. discriminate H.
  - reflexivity.
  - reflexivity.
  - reflexivity.
Defined.

(** The two paths of the witness. *)
Example default_output_dir_examples :
  resolve_output_dir "shots.v2/anim.gif" None = "shots.v2/anim_frames"
  /\ resolve_output_dir ".hidden" None = ".hidden_frames".
Proof. split; reflexivity. Qed.

(** ** When a run returns, and how the script gets there *)

(** X18: [extract_frames] returns exactly when the path holds a file the
    decoder opens, its frame count is not 1, the stride resolves (no division
    by zero) to a non-zero value, the output directory can be made, and, for
    every pair the loop samples, [seek] reaches the frame, [convert] loads
    its raster and its file can be written.  In every other case it exits or
    raises. *)
Theorem extract_frames_returns_iff pil_open pil_encode gif_path max_frames skip
    output_dir w :
  (exists v w',
     extract_frames pil_open pil_encode gif_path max_frames skip output_dir w =
       (Return v, w'))
  <->
  (exists data im s l,
     files (fs w) !! gif_path = Some data
     /\ pil_open data = Some im
     /\ default 1 (n_frames_attr im) <> 1
     /\ resolve_skip (default 1 (n_frames_attr im)) max_frames skip = Some s
     /\ s <> 0
     /\ Py.range 0 (default 1 (n_frames_attr im)) s = Some l
     /\ can_makedirs (fs w) (resolve_output_dir gif_path output_dir) = true
     /\ Forall (fun ki =>
                  (exists f px, frame_at im ki.2 = Some f /\ pixels f = Some px)
                  /\ can_save (fs w)
                       (saved_path im (resolve_output_dir gif_path output_dir) ki.1 ki.2)
                     = true)
               (sampled max_frames 0 l)).
Proof.
  assert (Hok : forall im ki,
            frame_ok (fs w) im (resolve_output_dir gif_path output_dir) ki <->
            (exists f px, frame_at im ki.2 = Some f /\ pixels f = Some px)
            /\ can_save (fs w)
                 (saved_path im (resolve_output_dir gif_path output_dir) ki.1 ki.2) = true).
  { intros im ki. unfold frame_ok, raster.
    destruct (frame_at im ki.2) as [f|]; simpl.
    - split; intros [[x Hx] Hs]; (split; [|exact Hs]).
      + exists f, x. split; [reflexivity | exact Hx].
      + destruct Hx as (px & [= ->] & Hpx). eauto.
    - split; intros [[x Hx] _]; [discriminate Hx|].
      destruct Hx as (? & Hx & _). discriminate Hx. }
  split.
  - intros (v & w' & H).
    destruct (extract_frames_return_inv _ _ _ _ _ _ _ _ _ H)
      as (data & im & s & l & Hfile & Hopen & Hanim & Hskip & Hrange & Hcan & Hdec).
    exists data, im, s, l. repeat (split; [assumption|]).
    split; [|split; [assumption|split; [assumption|]]].
    + intros ->. unfold Py.range in Hrange. discriminate Hrange.
    + eapply Forall_impl; [exact Hdec|]. intros ki. apply Hok.
  - intros (data & im & s & l & Hfile & Hopen & Hanim & Hskip & _ & Hrange & Hcan & Hdec).
    eexists _, _.
    apply (extract_frames_returns pil_open pil_encode gif_path max_frames skip
             output_dir w data im s l Hfile Hopen Hanim Hskip Hrange Hcan).
    eapply Forall_impl; [exact Hdec|]. intros ki. apply Hok.
Qed.

(** X19: the script scans the whole command line before it looks at the
    container.  When the scan raises, the process ends with status 1 and the
    world untouched, whether the path exists or not; when it returns, the
    process is [extract_frames] on the path and the options scanned, and its
    status is the one of that outcome. *)
Theorem script_scans_then_extracts pil_open pil_encode py_int prog gif_path args w :
  (forall e,
     scan_args py_int args 0 default_options = Raise e ->
     run_script pil_open pil_encode py_int (prog :: gif_path :: args) w = (1, w))
  /\ (forall o,
        scan_args py_int args 0 default_options = Return o ->
        run_script pil_open pil_encode py_int (prog :: gif_path :: args) w =
          (exit_status
             (extract_frames pil_open pil_encode gif_path (opt_max_frames o)
                (opt_skip o) (opt_output_dir o) w).1,
           (extract_frames pil_open pil_encode gif_path (opt_max_frames o)
              (opt_skip o) (opt_output_dir o) w).2)).
Proof.
  split.
  - intros e Hscan. unfold run_script, main.
    change (length (prog :: gif_path :: args) <? 2)%nat with false. cbv iota.
    change (drop 2 (prog :: gif_path :: args)) with args.
    rewrite Hscan. reflexivity.
  - intros o Hscan. apply run_script_extract. exact Hscan.
Qed.

(** A bad integer wins over a missing file. *)
Example scenario_bad_integer_missing_file :
  run_script toy_open toy_encode dec_int ["prog"; "nowhere.gif"; "--max-frames"; "ten"]
    (toy_world "a.gif" "ab") =
  (1, toy_world "a.gif" "ab").
Proof. reflexivity. Qed.

(** X20: with the stride omitted and [max_frames <= total], on a container
    whose frames load and where the output directory can be made and its
    frame files written, the computed stride is [q = total // max_frames] and
    the frames sought are exactly [0, q, ..., (max_frames - 1) * q]: nothing
    after index [(max_frames - 1) * q] is ever sought, which leaves
    [total mod max_frames + q - 1] frames at the end of the animation
    unsampled. *)
Theorem auto_stride_leaves_tail pil_open pil_encode gif_path max_frames output_dir
    w data im total :
  files (fs w) !! gif_path = Some data ->
  pil_open data = Some im ->
  n_frames_attr im = Some total ->
  (forall i, 0 <= i < total -> is_Some (raster im i)) ->
  2 <= total -> 1 <= max_frames -> max_frames <= total ->
  can_makedirs (fs w) (resolve_output_dir gif_path output_dir) = true ->
  frames_writable (fs w) (resolve_output_dir gif_path output_dir) ->
  exists w' new,
    extract_frames pil_open pil_encode gif_path max_frames None output_dir w =
      (Return (resolve_output_dir gif_path output_dir, max_frames), w')
    /\ calls w' = (calls w ++ new)%list
    /\ seeks new = (fun k => k * (total / max_frames)) <$> seqZ 0 max_frames
    /\ last (seeks new) = Some ((max_frames - 1) * (total / max_frames))
    /\ (forall i, i ∈ seeks new -> i <= (max_frames - 1) * (total / max_frames))
    /\ total - 1 - (max_frames - 1) * (total / max_frames) =
       total mod max_frames + total / max_frames - 1.
Proof.
  intros Hfile Hopen Htotal Hdec Ht Hm Hle Hmk Hwr.
  pose proof (Z.div_mod total max_frames ltac:(lia)) as Hdm.
  pose proof (Z.mod_pos_bound total max_frames ltac:(lia)) as Hb.
  assert (Hq : 1 <= total / max_frames) by (apply Z.div_le_lower_bound; lia).
  assert (Hs : Z.max 1 (total / max_frames) = total / max_frames) by lia.
  assert (Hres : resolve_skip total max_frames None = Some (total / max_frames)).
  { unfold resolve_skip, Py.floordiv.
    rewrite (proj2 (Z.eqb_neq max_frames 0)) by lia. simpl. rewrite Hs. reflexivity. }
  pose proof (auto_stride_min total max_frames ltac:(lia) Hm) as Hmin.
  rewrite Hs in Hmin. rewrite (Z.min_l max_frames total) in Hmin by lia.
  eexists _, _. split.
  { rewrite (extract_frames_sampling pil_open pil_encode gif_path max_frames None
               output_dir w data im total _ Hfile Hopen Htotal Hdec Ht ltac:(lia) Hres)
      by (assumption || lia).
    rewrite Hmin. reflexivity. }
  split; [reflexivity|].
  cbn [run_effect frames_effect e_calls].
  change (seeks (EvOpen gif_path :: EvMakedirs ?d :: ?x)) with (seeks x).
  rewrite seeks_frame_calls.
  change (map snd ((fun k => (k, k * (total / max_frames))) <$> seqZ 0 max_frames))
    with (snd <$> ((fun k => (k, k * (total / max_frames))) <$> seqZ 0 max_frames)).
  rewrite <- list_fmap_compose.
  change (snd ∘ (fun k => (k, k * (total / max_frames))))
    with (fun k => k * (total / max_frames)).
  split; [reflexivity|]. split; [|split].
  - rewrite last_lookup, length_fmap, length_seqZ, list_lookup_fmap.
    rewrite lookup_seqZ_lt by lia. simpl. f_equal. f_equal. lia.
  - intros i Hi. apply list_elem_of_fmap in Hi as (k & -> & Hk).
    apply elem_of_seqZ in Hk. nia.
  - nia.
Qed.

Lemma auto_stride_leaves_tail_witness :
  exists w' new,
    extract_frames toy_open toy_encode "a.gif" 30 None None
      (toy_world "a.gif" (Py.zeros 59)) =
      (Return ("a_frames", 30), w')
    /\ calls w' = ([] ++ new)%list
    /\ seeks new = (fun k => k * (59 / 30)) <$> seqZ 0 30
    /\ last (seeks new) = Some ((30 - 1) * (59 / 30))
    /\ (forall i, i ∈ seeks new -> i <= (30 - 1) * (59 / 30))
    /\ 59 - 1 - (30 - 1) * (59 / 30) = 59 mod 30 + 59 / 30 - 1.
Proof.
  apply (auto_stride_leaves_tail toy_open toy_encode "a.gif" 30 None
           (toy_world "a.gif" (Py.zeros 59)) (Py.zeros 59)
           {| n_frames_attr := Some 59;
              first_frame := {| pixels := Some "0"; info_duration := None |};
              frame_at := toy_frame (Py.zeros 59) |} 59).
  - vm_compute. reflexivity.
  - reflexivity.
  - reflexivity.
  - intros i Hi. apply (toy_frames_decode (Py.zeros 59) i). exact Hi.
  - lia.
  - lia.
  - lia.
  - vm_compute. reflexivity.
  - apply frames_writable_free; reflexivity.
Defined.

(** ** When the filesystem says no *)

Lemma can_makedirs_blocked f od d :
  d ∈ made_dirs od -> d ∉ dirs f -> mkdir_refused f d = true ->
  can_makedirs f od = false.
Proof.
  intros Hd Hno Href. destruct (can_makedirs f od) eqn:Hcan; [|reflexivity].
  unfold can_makedirs in Hcan. apply andb_true_iff in Hcan as [_ Hall].
  rewrite forallb_forall in Hall.
  unfold made_dirs in Hd. rewrite elem_of_list_to_set, list_elem_of_In in Hd.
  specialize (Hall d Hd). rewrite Href, (bool_decide_eq_false_2 _ Hno) in Hall.
  discriminate Hall.
Qed.

(** X21: when the output directory cannot be made, because its path is empty
    or because it, or one of its parents, is not there and is a regular file
    or may not be created, [makedirs] raises and the run ends with [OSError]
    right after opening the container: nothing is printed, no frame is
    sought, no file is written or changed, and the only directories added
    are parents made before the one that failed.  The process ends with
    status 1. *)
Theorem blocked_output_dir_raises pil_open pil_encode gif_path max_frames skip output_dir
    w data im s :
  files (fs w) !! gif_path = Some data ->
  pil_open data = Some im ->
  default 1 (n_frames_attr im) <> 1 ->
  resolve_skip (default 1 (n_frames_attr im)) max_frames skip = Some s ->
  (resolve_output_dir gif_path output_dir = ""
   \/ exists d, (d ∈ made_dirs (resolve_output_dir gif_path output_dir))
                /\ (d ∉ dirs (fs w))
                /\ (is_Some (files (fs w) !! d) \/ d ∈ refused (fs w))) ->
  exists w',
    extract_frames pil_open pil_encode gif_path max_frames skip output_dir w =
      (Raise OSError, w')
    /\ exit_status (@Raise (string * Z) OSError) = 1
    /\ stdout w' = stdout w
    /\ calls w' =
       (calls w ++ [EvOpen gif_path; EvMakedirs (resolve_output_dir gif_path output_dir)])%list
    /\ files (fs w') = files (fs w)
    /\ dirs (fs w) ⊆ dirs (fs w')
    /\ dirs (fs w') ⊆ made_dirs (resolve_output_dir gif_path output_dir) ∪ dirs (fs w).
Proof.
  intros Hfile Hopen Hanim Hskip Hblocked.
  assert (Hcan : can_makedirs (fs (opened gif_path w))
                   (resolve_output_dir gif_path output_dir) = false).
  { destruct Hblocked as [->|(d & Hd & Hno & Hwhy)]; [reflexivity|].
    apply (can_makedirs_blocked _ _ d Hd Hno). unfold mkdir_refused. simpl.
    destruct Hwhy as [Hfile'|Href].
    - rewrite (bool_decide_eq_true_2 _ Hfile'). reflexivity.
    - rewrite (bool_decide_eq_true_2 _ Href). apply orb_true_r. }
  destruct (makedirs_raises _ _ Hcan) as (f & Hmk & Hf & Hrf & Hlo & Hhi).
  eexists. split.
  { apply (run_makedirs_raises pil_open pil_encode gif_path max_frames skip output_dir
             w data im s _ _ Hfile Hopen Hanim Hskip Hmk). }
  simpl. rewrite <- app_assoc. repeat split; assumption || reflexivity.
Qed.

Lemma blocked_output_dir_raises_witness :
  exists w',
    extract_frames toy_open toy_encode "a.gif" 30 None (Some "out/frames") blocked_world =
      (Raise OSError, w')
    /\ exit_status (@Raise (string * Z) OSError) = 1
    /\ stdout w' = stdout blocked_world
    /\ calls w' = (calls blocked_world ++ [EvOpen "a.gif"; EvMakedirs "out/frames"])%list
    /\ files (fs w') = files (fs blocked_world)
    /\ dirs (fs blocked_world) ⊆ dirs (fs w')
    /\ dirs (fs w') ⊆ made_dirs "out/frames" ∪ dirs (fs blocked_world).
Proof.
  apply (blocked_output_dir_raises toy_open toy_encode "a.gif" 30 None (Some "out/frames")
           blocked_world "abcdefghijkl"
           {| n_frames_attr := Some 12;
              first_frame := {| pixels := Some "a"; info_duration := None |};
              frame_at := toy_frame "abcdefghijkl" |} 1).
  - vm_compute. reflexivity.
  - reflexivity.
  - vm_compute. intros H. discriminate H.
  - reflexivity.
  - right. exists "out". split; [|split].
    + vm_compute. reflexivity.
    + apply not_elem_of_empty.
    + left. vm_compute. eauto.
Defined.

(** An output directory that is a regular file, and one given as the empty
    string: both runs raise at [makedirs]. *)
Example scenario_output_dir_is_a_file :
  (extract_frames toy_open toy_encode "a.gif" 30 None (Some "out") blocked_world).1 =
    Raise OSError
  /\ (extract_frames toy_open toy_encode "a.gif" 30 None (Some "")
        (toy_world "a.gif" "abcdefghijkl")).1 = Raise OSError.
Proof. split; reflexivity. Qed.

(** X22: when the file of the [j]-th sampled frame cannot be written, because
    its path is a directory or the system refuses it, while the frames up to
    it load and the files before it are written, [save] raises and the run
    ends with [OSError] after [seek] and [convert] of that frame: the
    directory, the banner and the [j] files already saved stay, with their
    content, and no summary line is printed. *)
Theorem unwritable_frame_raises pil_open pil_encode gif_path max_frames skip
    output_dir w data im total s j :
  files (fs w) !! gif_path = Some data ->
  pil_open data = Some im ->
  n_frames_attr im = Some total ->
  2 <= total ->
  resolve_skip total max_frames skip = Some s -> 1 <= s ->
  0 <= j < Z.min max_frames (ceil_div total s) ->
  (forall k, 0 <= k <= j -> is_Some (raster im (k * s))) ->
  can_makedirs (fs w) (resolve_output_dir gif_path output_dir) = true ->
  (forall k, 0 <= k < j ->
     can_save (fs w) (saved_path im (resolve_output_dir gif_path output_dir) k (k * s))
     = true) ->
  can_save (fs w) (saved_path im (resolve_output_dir gif_path output_dir) j (j * s))
    = false ->
  exists w' new,
    extract_frames pil_open pil_encode gif_path max_frames skip output_dir w =
      (Raise OSError, w')
    /\ calls w' = (calls w ++ new)%list
    /\ new = (EvOpen gif_path :: EvMakedirs (resolve_output_dir gif_path output_dir) ::
              flat_map (fun k =>
                  [EvSeek (k * s); EvConvert "RGBA";
                   EvSave (saved_path im (resolve_output_dir gif_path output_dir) k (k * s))
                          "PNG" (saved_data pil_encode im (k * s))])
                (seqZ 0 j) ++
              [EvSeek (j * s); EvConvert "RGBA";
               EvSaveFailed
                 (saved_path im (resolve_output_dir gif_path output_dir) j (j * s))
                 "PNG"])%list
    /\ Z.of_nat (length (saves new)) = j
    /\ (forall path content,
          (path, content) ∈ saves new -> files (fs w') !! path = Some content)
    /\ resolve_output_dir gif_path output_dir ∈ dirs (fs w')
    /\ stdout w' =
       (stdout w ++ banner gif_path total s (resolve_output_dir gif_path output_dir))%list.
Proof.
  intros Hfile Hopen Htotal Ht Hskip Hs Hj Hdec Hmk Hwr Hno.
  set (od := resolve_output_dir gif_path output_dir) in *.
  set (n := Z.min max_frames (ceil_div total s)) in *.
  assert (Hdef : default 1 (n_frames_attr im) = total) by (rewrite Htotal; reflexivity).
  set (l := map (fun k => Z.of_nat k * s) (seq 0 (Z.to_nat (ceil_div total s)))).
  assert (Hl : sampled max_frames 0 l =
               ((fun k => (k, k * s)) <$> seqZ 0 j) ++
               (j, j * s) :: ((fun k => (k, k * s)) <$> seqZ (j + 1) (n - j - 1))).
  { unfold l. rewrite sampled_candidates by lia. fold n.
    replace n with (j + (n - j)) at 1 by lia.
    rewrite seqZ_app, fmap_app by lia. f_equal.
    rewrite seqZ_cons by lia. rewrite fmap_cons.
    replace (Z.succ (0 + j)) with (j + 1) by lia.
    replace (Z.pred (n - j)) with (n - j - 1) by lia.
    rewrite Z.add_0_l. reflexivity. }
  set (tail := [EvSeek (j * s); EvConvert "RGBA";
                EvSaveFailed (saved_path im od j (j * s)) "PNG"]).
  pose proof (run_loop pil_open pil_encode gif_path max_frames skip output_dir
                w data im s l Hfile Hopen) as Hrun.
  rewrite Hdef in Hrun. cbv zeta in Hrun. fold od in Hrun.
  specialize (Hrun ltac:(lia) Hskip Hmk ltac:(apply range_up; lia)).
  rewrite (loop_trace_save_error max_frames od _ im l 0
             ((fun k => (k, k * s)) <$> seqZ 0 j) j (j * s)
             ((fun k => (k, k * s)) <$> seqZ (j + 1) (n - j - 1)) Hl) in Hrun;
    [|apply Forall_fmap, Forall_forall; intros k Hk; apply elem_of_seqZ in Hk;
      apply frame_ok_made; split; simpl; [apply Hdec; lia | apply Hwr; lia]
     |apply Hdec; lia
     |cbn [before_loop fs]; unfold saved_path; rewrite can_save_made; exact Hno].
  cbn [fst snd] in Hrun. fold tail in Hrun.
  eexists _,
    (EvOpen gif_path :: EvMakedirs od ::
     flat_map (fun k =>
         [EvSeek (k * s); EvConvert "RGBA";
          EvSave (saved_path im od k (k * s)) "PNG" (saved_data pil_encode im (k * s))])
       (seqZ 0 j) ++ tail)%list.
  split; [exact Hrun|].
  assert (Hsaves :
    saves (EvOpen gif_path :: EvMakedirs od ::
           flat_map (fun k =>
               [EvSeek (k * s); EvConvert "RGBA";
                EvSave (saved_path im od k (k * s)) "PNG" (saved_data pil_encode im (k * s))])
             (seqZ 0 j) ++ tail)%list =
    map (fun ki => (saved_path im od ki.1 ki.2, saved_data pil_encode im ki.2))
        ((fun k => (k, k * s)) <$> seqZ 0 j)).
  { rewrite <- saves_frame_calls, flat_map_fmap.
    change (saves (EvOpen gif_path :: EvMakedirs od :: ?x)) with (saves x).
    unfold saves. rewrite omap_app. simpl. rewrite app_nil_r. reflexivity. }
  split.
  { cbn [after_loop calls before_loop fst snd last_calls frames_effect e_calls].
    rewrite flat_map_fmap, <- app_assoc. reflexivity. }
  split; [reflexivity|]. rewrite Hsaves.
  split; [rewrite length_map, length_fmap, length_seqZ; lia|].
  split.
  { intros path content Hin.
    cbn [after_loop fs files before_loop fst frames_effect e_writes].
    apply write_all_lookup_nodup; [apply saved_paths_nodup | exact Hin]. }
  split.
  { cbn [after_loop fs dirs before_loop]. apply elem_of_union_l, output_dir_made. }
  cbn [after_loop stdout before_loop snd]. rewrite app_nil_r. reflexivity.
Qed.

Lemma unwritable_frame_raises_witness :
  exists w' new,
    extract_frames toy_open toy_encode "a.gif" 30 (Some 3) (Some "out") frame_dir_world =
      (Raise OSError, w')
    /\ calls w' = (calls frame_dir_world ++ new)%list
    /\ new = [EvOpen "a.gif"; EvMakedirs "out";
              EvSeek 0; EvConvert "RGBA";
              EvSave "out/frame_000_f0_d0ms.png" "PNG" "PNG:RGBA:a";
              EvSeek 3; EvConvert "RGBA";
              EvSaveFailed "out/frame_001_f3_d40ms.png" "PNG"]
    /\ Z.of_nat (length (saves new)) = 1
    /\ (forall path content,
          (path, content) ∈ saves new -> files (fs w') !! path = Some content)
    /\ "out" ∈ dirs (fs w')
    /\ stdout w' =
       (stdout frame_dir_world ++
        ["GIF: a.gif"; "Total frames: 12"; "Skip: every 3 frame(s)";
         "Output: out"; "---"])%list.
Proof.
  apply (unwritable_frame_raises toy_open toy_encode "a.gif" 30 (Some 3) (Some "out")
           frame_dir_world "abcdefghijkl"
           {| n_frames_attr := Some 12;
              first_frame := {| pixels := Some "a"; info_duration := None |};
              frame_at := toy_frame "abcdefghijkl" |} 12 3 1).
  - vm_compute. reflexivity.
  - reflexivity.
  - reflexivity.
  - lia.
  - reflexivity.
  - lia.
  - vm_compute. split; [intros H; discriminate H | reflexivity].
  - intros k Hk. apply (toy_frames_decode "abcdefghijkl" (k * 3)). simpl. lia.
  - vm_compute. reflexivity.
  - intros k Hk. assert (k = 0) as -> by lia. vm_compute. reflexivity.
  - vm_compute. reflexivity.
Defined.
